(** * Contact-form backend: intake pipeline and admin surface

  A shallow embedding of the Express server (the route handlers, the
  [validateContactForm] chains, [verifyRecaptcha], the Mongoose
  [contactSchema]) and of [utils/emailService.js], together with the
  properties of the intake pipeline and of the admin endpoints.

  Modelling conventions.
  - A JavaScript string is a sequence of UTF-16 code units, a
    [JS.string]; [JS.length] is the [.length] of the source. An astral
    character is a pair of surrogates, two code units.
  - [String.prototype.toLowerCase] and [toUpperCase] follow the Unicode
    tables of the engine, and [isEmail] and [normalizeEmail] are
    validator.js: the server is verified for any four such functions.
  - A JavaScript number is a [JS.Number]: not-a-number, an infinity, or
    an integer that is a double; [Number.parseInt] rounds to the nearest
    double.
  - A [Date] is its millisecond timestamp, a [Z].
  - The MongoDB collection is a finite map from [_id] to document; the
    number of documents is a safe integer.
  - A handler is a computation in a state-and-exception monad over the
    process state; what the outside world answers (the clock, the
    verification service, the database, the mail transport) is read from
    an explicit record of answers.
  - Lines printed with [console.log] are informational and not part of
    the state; lines printed with [console.error] are recorded. *)

From Stdlib Require Import ZArith NArith List Lia Bool.
From Stdlib Require Strings.Byte.
From stdpp Require Import base option list gmap sorting.

Import ListNotations.
Local Open Scope Z_scope.

(** ** JavaScript strings and numbers *)

Module JS.

Inductive string :=
| EmptyString
| String (c : N) (s : string).

#[global] Instance string_eq_dec : EqDecision string.
Proof. solve_decision. Defined.

(** String literals: one code unit for each byte between the quotes. *)
Fixpoint ofBytes (l : list Byte.byte) : string :=
  match l with
  | [] => EmptyString
  | b :: rest => String (Byte.to_N b) (ofBytes rest)
  end.

Fixpoint toBytes (s : string) : option (list Byte.byte) :=
  match s with
  | EmptyString => Some []
  | String c rest =>
      match Byte.of_N c, toBytes rest with
      | Some b, Some l => Some (b :: l)
      | _, _ => None
      end
  end.

(** [s.length] *)
Fixpoint length (s : string) : nat :=
  match s with
  | EmptyString => 0
  | String _ s' => S (length s')
  end.

(** [a + b] *)
Fixpoint append (a b : string) : string :=
  match a with
  | EmptyString => b
  | String c a' => String c (append a' b)
  end.

(** [a === b] on strings *)
Definition eqb (a b : string) : bool := bool_decide (a = b).

(** [s.repeat(n)] *)
Fixpoint repeat (s : string) (n : nat) : string :=
  match n with
  | O => EmptyString
  | S n' => append s (repeat s n')
  end.

(** The code units matched by [\s], which are also the ones removed by
    [String.prototype.trim]: TAB, LF, VT, FF, CR, SPACE, NBSP, U+1680,
    U+2000 to U+200A, U+2028, U+2029, U+202F, U+205F, U+3000 and
    U+FEFF. *)
Definition isWhiteSpace (c : N) : bool :=
  ((9 <=? c) && (c <=? 13) || (c =? 32) || (c =? 160) || (c =? 0x1680)
   || (0x2000 <=? c) && (c <=? 0x200a) || (c =? 0x2028) || (c =? 0x2029)
   || (c =? 0x202f) || (c =? 0x205f) || (c =? 0x3000) || (c =? 0xfeff))%N.

(** [[a-zA-Z]] *)
Definition isLetter (c : N) : bool :=
  ((65 <=? c) && (c <=? 90) || (97 <=? c) && (c <=? 122))%N.

(** [[0-9]] *)
Definition isDigit (c : N) : bool := ((48 <=? c) && (c <=? 57))%N.

(** [[\uD800-\uDBFF]] and [[\uDC00-\uDFFF]] *)
Definition isHighSurrogate (c : N) : bool := ((0xd800 <=? c) && (c <=? 0xdbff))%N.
Definition isLowSurrogate (c : N) : bool := ((0xdc00 <=? c) && (c <=? 0xdfff))%N.

(** [/(\uFE0F|\uFE0E)/g] *)
Definition isVariationSelector (c : N) : bool := ((c =? 0xfe0f) || (c =? 0xfe0e))%N.

Fixpoint trimStart (s : string) : string :=
  match s with
  | EmptyString => EmptyString
  | String c s' => if isWhiteSpace c then trimStart s' else s
  end.

Fixpoint trimEnd (s : string) : string :=
  match s with
  | EmptyString => EmptyString
  | String c s' =>
      match trimEnd s' with
      | EmptyString => if isWhiteSpace c then EmptyString else String c EmptyString
      | t => String c t
      end
  end.

Definition trim (s : string) : string := trimEnd (trimStart s).

Fixpoint every (p : N -> bool) (s : string) : bool :=
  match s with
  | EmptyString => true
  | String c s' => p c && every p s'
  end.

(** The number of matches of a global regular expression for one code
    unit, [(s.match(/.../g) || []).length]. *)
Fixpoint matches (p : N -> bool) (s : string) : nat :=
  match s with
  | EmptyString => 0
  | String c s' => if p c then S (matches p s') else matches p s'
  end.

(** The number of matches of [/[\uD800-\uDBFF][\uDC00-\uDFFF]/g]: the
    scan goes on behind a match. *)
Fixpoint surrogatePairs (s : string) : nat :=
  match s with
  | String h ((String l rest) as t) =>
      if isHighSurrogate h && isLowSurrogate l then S (surrogatePairs rest)
      else surrogatePairs t
  | _ => 0
  end.

(** [Array.prototype.includes] on an array of strings. *)
Definition includes (l : list string) (s : string) : bool :=
  existsb (eqb s) l.

(** Truthiness of a value that is a string or [undefined]. *)
Definition truthy (v : option string) : bool :=
  match v with
  | Some s => negb (eqb s EmptyString)
  | None => false
  end.

(** [v !== null] *)
Definition notNull {A} (v : option A) : bool :=
  match v with
  | Some _ => true
  | None => false
  end.

(** [v === s] for a value that is a string or [undefined]. *)
Definition strictEq (v : option string) (s : string) : bool :=
  match v with
  | Some x => eqb x s
  | None => false
  end.

(** Lower and upper case of the letters of ASCII and Latin-1 whose
    counterpart is again below 256. On strings without other cased
    letters this is what the engine does; the examples run the server
    with these two. *)
Definition isUpper (c : N) : bool :=
  ((65 <=? c) && (c <=? 90)
   || (192 <=? c) && (c <=? 222) && negb (c =? 215))%N.

Definition lowerChar (c : N) : N := if isUpper c then (c + 32)%N else c.

Fixpoint lowerLatin (s : string) : string :=
  match s with
  | EmptyString => EmptyString
  | String c s' => String (lowerChar c) (lowerLatin s')
  end.

Definition upperChar (c : N) : N :=
  if ((97 <=? c) && (c <=? 122)
      || (224 <=? c) && (c <=? 254) && negb (c =? 247))%N
  then (c - 32)%N else c.

Fixpoint upperLatin (s : string) : string :=
  match s with
  | EmptyString => EmptyString
  | String c s' => String (upperChar c) (upperLatin s')
  end.

(** A number, as far as the server meets them: [NaN], an integer, or an
    infinity. Negative zero is read as zero; the two are falsy alike and
    [JSON.stringify] writes both as 0, and writes [null] for [NaN] and
    the infinities. *)
Inductive Number :=
| NaN
| Finite (z : Z)
| Infinity (negative : bool).

(** [Number.MAX_SAFE_INTEGER] *)
Definition maxSafe : Z := 2 ^ 53 - 1.

(** The double nearest to an integer, ties to the even mantissa, and an
    infinity from [2 ^ 1024 - 2 ^ 970] on. *)
Definition toDouble (z : Z) : Number :=
  let a := Z.abs z in
  if a <=? maxSafe then Finite z
  else
    let e := Z.log2 a - 52 in
    let q := a / 2 ^ e in
    let r := a mod 2 ^ e in
    let q' := if 2 * r <? 2 ^ e then q
              else if 2 ^ e <? 2 * r then q + 1
              else if Z.even q then q else q + 1 in
    if 2 ^ 1024 <=? q' * 2 ^ e then Infinity (z <? 0)
    else Finite (Z.sgn z * (q' * 2 ^ e)).

(** [Number.parseInt(v)], [v] being the integer the text of the
    parameter denotes, or [None] when the text does not start with one. *)
Definition parseInt (v : option Z) : Number :=
  match v with
  | Some z => toDouble z
  | None => NaN
  end.

(** [n || d] *)
Definition orDefault (n : Number) (d : Z) : Number :=
  match n with
  | NaN => Finite d
  | Finite z => if z =? 0 then Finite d else n
  | Infinity _ => n
  end.

(** [a - b] and [a * b] on these numbers, rounded as [toDouble] does. *)
Definition minus (a : Number) (b : Z) : Number :=
  match a with
  | Finite z => toDouble (z - b)
  | _ => a
  end.

Definition times (a b : Number) : Number :=
  match a, b with
  | NaN, _ | _, NaN => NaN
  | Finite x, Finite y => toDouble (x * y)
  | Finite x, Infinity n | Infinity n, Finite x =>
      if x =? 0 then NaN else Infinity (xorb n (x <? 0))
  | Infinity n, Infinity m => Infinity (xorb n m)
  end.

(** [Math.ceil(a / b)] on integers, [b] not zero. *)
Definition ceilDiv (a b : Z) : Z := - ((- a) / b).

(** [Math.ceil(total / limit)] for a count of documents. *)
Definition ceilOfQuotient (total : Z) (limit : Number) : Number :=
  match limit with
  | NaN => NaN
  | Finite l =>
      if l =? 0 then (if total =? 0 then NaN else Infinity (total <? 0))
      else Finite (ceilDiv total l)
  | Infinity _ => Finite 0
  end.

End JS.

Declare Scope js_scope.
Delimit Scope js_scope with js.
Bind Scope js_scope with JS.string.
String Notation JS.string JS.ofBytes JS.toBytes : js_scope.
Infix "=?" := JS.eqb : js_scope.
Infix "++" := JS.append : js_scope.
Local Open Scope js_scope.


(** ** Regular expressions of the source *)

(** [/^[a-zA-Z\s]+$/] *)
Definition reLettersAndSpaces (s : JS.string) : bool :=
  negb (s =? "") && JS.every (fun c => JS.isLetter c || JS.isWhiteSpace c) s.

(** [/^[0-9]{10}$/] *)
Definition reTenDigits (s : JS.string) : bool :=
  (JS.length s =? 10)%nat && JS.every JS.isDigit s.

(** ** Data model *)

(** A document of the [contacts] collection, as [contactSchema] shapes it.
    [_id] is the ObjectId, read as the number its 24 hexadecimal digits
    denote. *)
Record Contact := {
  _id : N;
  name : JS.string;
  email : JS.string;
  phone : JS.string;
  message : JS.string;
  formType : JS.string;
  submittedAt : Z;
  status : JS.string
}.

(** [process.env], the variables the server reads. *)
Record Env := {
  NODE_ENV : option JS.string;
  RECAPTCHA_SECRET_KEY : option JS.string;
  SMTP_HOST : option JS.string;
  SMTP_PORT : option JS.string;
  SMTP_USER : option JS.string;
  SMTP_PASS : option JS.string;
  ADMIN_EMAIL : option JS.string
}.

(** A thrown JavaScript [Error]. *)
Record Error := {
  errName : JS.string;
  errMessage : JS.string
}.

(** The body of [POST /api/contact] as it arrives: each key is a string or
    is absent. *)
Record RawBody := {
  raw_name : option JS.string;
  raw_email : option JS.string;
  raw_phone : option JS.string;
  raw_message : option JS.string;
  raw_formType : option JS.string;
  raw_recaptchaToken : option JS.string
}.

(** [req.body] after the validation chains ran. A key that was absent
    reads as the empty string, which is how the chains read it. *)
Record Body := {
  body_name : JS.string;
  body_email : JS.string;
  body_phone : JS.string;
  body_message : JS.string;
  body_formType : JS.string;
  body_recaptchaToken : JS.string
}.

(** One entry of [validationResult(req).array()]. *)
Record FieldError := {
  param : JS.string;
  msg : JS.string
}.

(** The [contactData] object handed to the email service. *)
Record ContactData := {
  cd_name : JS.string;
  cd_email : JS.string;
  cd_phone : JS.string;
  cd_message : JS.string;
  cd_formType : JS.string;
  cd_submittedAt : Z
}.

Inductive Template :=
| NotificationTemplate (d : ContactData)
| AutoReplyTemplate (d : ContactData).

Record MailOptions := {
  from : option JS.string;
  to : JS.string;
  subject : JS.string;
  html : Template
}.

(** The nodemailer transport built by [createTransport]; [port] keeps the
    text of [SMTP_PORT]. *)
Record Transporter := {
  host : option JS.string;
  port : option JS.string;
  authUser : option JS.string;
  authPass : option JS.string
}.

(** What [axios.post] to the verification service comes back with. *)
Inductive AxiosReply :=
| Replied (success : bool)
| Failed (error : Error).

(** The answers of the outside world during one request. *)
Record World := {
  (** [Date.now()] when the duplicate window is computed *)
  clockQuery : Z;
  (** [Date.now()] when the new document takes its default [submittedAt] *)
  clockCreate : Z;
  (** the verification service, by secret and token *)
  siteverify : JS.string -> JS.string -> AxiosReply;
  (** the failure of a database read, if any *)
  mongoRead : option Error;
  (** the order in which a query meets the documents: the exchanges of
      neighbours, by position, that lead to it from the order of the
      collection *)
  scanOrder : list nat;
  (** what the driver and the server make of a [skip] and a [limit] that
      are not both safe integers, [skip] at least 0 and [limit] at least
      1: an error, or the documents to pass over and to serve *)
  oddWindow : JS.Number -> JS.Number -> Error + nat * nat;
  (** the failure of a database write, if any *)
  mongoWrite : option Error;
  (** the failure of [nodemailer.createTransport], if any *)
  createTransport : option Error;
  (** the failure of [transporter.sendMail] on a message, if any *)
  sendMail : MailOptions -> option Error
}.

(** What a handler does that is visible outside the process. *)
Inductive Effect :=
| SiteVerifyRequest (secret token : JS.string)
| MailSent (m : MailOptions)
| ConsoleError (text detail : JS.string).

(** The state of the server process and of its database. *)
Record State := {
  contacts : gmap N Contact;
  nextId : N;
  transporter : option Transporter;
  effects : list Effect
}.

(** The JSON bodies the handlers send. *)
Inductive Json :=
| JValidationFailed (message : JS.string) (errors : list FieldError)
| JFailure (message : JS.string)
| JCreated (message : JS.string) (id : N) (submittedAt : Z) (formType : JS.string)
| JServerError (message : JS.string) (error : option JS.string)
| JContacts (data : list Contact) (page limit : JS.Number) (total : Z)
    (pages : JS.Number)
| JContact (data : Contact).

Definition success (j : Json) : bool :=
  match j with
  | JCreated _ _ _ _ | JContacts _ _ _ _ _ | JContact _ => true
  | _ => false
  end.

Record Response := {
  statusCode : Z;
  json : Json
}.

(** ** Asynchronous computations: state and exceptions *)

Inductive Outcome (A : Type) :=
| Return (a : A)
| Throw (e : Error).
Arguments Return {A} a.
Arguments Throw {A} e.

Definition Async (A : Type) : Type := State -> Outcome A * State.

#[global] Instance Async_ret : MRet Async := fun A a s => (Return a, s).

#[global] Instance Async_bind : MBind Async := fun A B k m s =>
  match m s with
  | (Return a, s') => k a s'
  | (Throw e, s') => (Throw e, s')
  end.

Definition ret {A} (a : A) : Async A := mret a.

Definition throw {A} (e : Error) : Async A := fun s => (Throw e, s).

(** [try { m } catch (error) { h error }], and [promise.catch(h)]. *)
Definition tryCatch {A} (m : Async A) (h : Error -> Async A) : Async A :=
  fun s =>
    match m s with
    | (Return a, s') => (Return a, s')
    | (Throw e, s') => h e s'
    end.

Definition gets {A} (f : State -> A) : Async A := fun s => (Return (f s), s).

Definition modify (f : State -> State) : Async unit := fun s => (Return tt, f s).

Definition emit (e : Effect) : Async unit :=
  modify (fun s => {| contacts := contacts s; nextId := nextId s;
                      transporter := transporter s;
                      effects := (effects s ++ [e])%list |}).

Definition consoleError (text detail : JS.string) : Async unit :=
  emit (ConsoleError text detail).

Definition setContacts (m : gmap N Contact) : Async unit :=
  modify (fun s => {| contacts := m; nextId := nextId s;
                      transporter := transporter s; effects := effects s |}).

Definition setTransporter (t : option Transporter) : Async unit :=
  modify (fun s => {| contacts := contacts s; nextId := nextId s;
                      transporter := t; effects := effects s |}).

(** A fresh ObjectId. The driver makes them unique; the model hands them
    out in increasing order. *)
Definition newObjectId : Async N :=
  fun s => (Return (nextId s),
            {| contacts := contacts s; nextId := N.succ (nextId s);
               transporter := transporter s; effects := effects s |}).

(** ** The validation chains of [validateContactForm] *)

(** A link of an express-validator chain. A validator reports its message
    when it fails and lets the chain go on; a sanitizer replaces the value
    the later links see and the value left in [req.body]. *)
Inductive ChainItem :=
| Sanitizer (f : JS.string -> JS.string)
| Validator (p : JS.string -> bool) (message : JS.string).

Fixpoint runChain (field : JS.string) (chain : list ChainItem) (value : JS.string)
  : JS.string * list FieldError :=
  match chain with
  | [] => (value, [])
  | Sanitizer f :: rest => runChain field rest (f value)
  | Validator p m :: rest =>
      let '(v, errs) := runChain field rest value in
      (v, if p value then errs else {| param := field; msg := m |} :: errs)
  end.

(** The length validator.js measures:
    [str.length - presentationSequences.length - surrogatePairs.length],
    so that a surrogate pair counts once and a variation selector not at
    all. *)
Definition validatorLength (s : JS.string) : nat :=
  (JS.length s - JS.matches JS.isVariationSelector s - JS.surrogatePairs s)%nat.

(** [isLength({ min, max })] *)
Definition isLength (min max : nat) (s : JS.string) : bool :=
  ((min <=? validatorLength s) && (validatorLength s <=? max))%nat.

(** [isIn(values)] *)
Definition isIn (values : list JS.string) (s : JS.string) : bool := JS.includes values s.

(** [notEmpty()] *)
Definition notEmpty (s : JS.string) : bool := negb (s =? "").

(** The value a chain reads for a key: the string, or the empty string
    for an absent key. *)
Definition toString (v : option JS.string) : JS.string := default "" v.

Definition formTypes : list JS.string := ["hero"; "final"].
Definition statuses : list JS.string := ["new"; "contacted"; "converted"].

Section Server.

(** [isEmail] and [normalizeEmail] of validator.js, the library behind the
    chains, and [toLowerCase] and [toUpperCase] of the engine; the server
    is verified for any four of them. *)
Variable isEmail : JS.string -> bool.
Variable normalizeEmail : JS.string -> JS.string.
Variable toLowerCase : JS.string -> JS.string.
Variable toUpperCase : JS.string -> JS.string.

Definition nameChain : list ChainItem :=
  [ Sanitizer JS.trim;
    Validator (isLength 3 100) "Name must be between 2 and 100 characters";
    Validator reLettersAndSpaces "Name can only contain letters and spaces" ].

Definition emailChain : list ChainItem :=
  [ Sanitizer JS.trim;
    Validator isEmail "Please provide a valid email address";
    Sanitizer normalizeEmail;
    Validator (isLength 0 255) "Email is too long" ].

Definition phoneChain : list ChainItem :=
  [ Sanitizer JS.trim;
    Validator reTenDigits "Phone number must be exactly 10 digits" ].

Definition messageChain : list ChainItem :=
  [ Sanitizer JS.trim;
    Validator (isLength 10 1000) "Message must be between 10 and 1000 characters" ].

Definition formTypeChain : list ChainItem :=
  [ Validator (isIn formTypes) "Invalid form type" ].

Definition recaptchaTokenChain : list ChainItem :=
  [ Validator notEmpty "Please complete the captcha verification" ].

(** The six chains run in the order of the array; the errors of all of
    them are collected. *)
Definition validateContactForm (raw : RawBody) : Body * list FieldError :=
  let '(n, e1) := runChain "name" nameChain (toString (raw_name raw)) in
  let '(e, e2) := runChain "email" emailChain (toString (raw_email raw)) in
  let '(p, e3) := runChain "phone" phoneChain (toString (raw_phone raw)) in
  let '(m, e4) := runChain "message" messageChain (toString (raw_message raw)) in
  let '(f, e5) := runChain "formType" formTypeChain (toString (raw_formType raw)) in
  let '(t, e6) := runChain "recaptchaToken" recaptchaTokenChain
                    (toString (raw_recaptchaToken raw)) in
  ({| body_name := n; body_email := e; body_phone := p; body_message := m;
      body_formType := f; body_recaptchaToken := t |},
   (e1 ++ e2 ++ e3 ++ e4 ++ e5 ++ e6)%list).

(** ** [verifyRecaptcha] *)

Definition isDevelopment (env : Env) : bool :=
  JS.strictEq (NODE_ENV env) "development".

Definition isBypassToken (token : JS.string) : bool :=
  (token =? "development_token") || (token =? "fallback_token")
  || (token =? "test_token").

Definition axiosPost (w : World) (secret token : JS.string) : Async bool :=
  emit (SiteVerifyRequest secret token);;
  match siteverify w secret token with
  | Replied b => ret b
  | Failed e => throw e
  end.

Definition verifyRecaptcha (env : Env) (w : World) (token : JS.string) : Async bool :=
  tryCatch
    (if isDevelopment env then ret true
     else if isBypassToken token then ret true
     else if negb (JS.truthy (RECAPTCHA_SECRET_KEY env)) then ret true
     else axiosPost w (toString (RECAPTCHA_SECRET_KEY env)) token)
    (fun error =>
       consoleError "reCAPTCHA verification error:" (errMessage error);;
       ret (isDevelopment env)).

(** ** The email service *)

Definition smtpConfigured (env : Env) : bool :=
  JS.truthy (SMTP_USER env) && JS.truthy (SMTP_PASS env).

Definition initializeTransporter (env : Env) (w : World) : Async unit :=
  if smtpConfigured env then
    match createTransport w with
    | None =>
        setTransporter
          (Some {| host := SMTP_HOST env; port := SMTP_PORT env;
                   authUser := SMTP_USER env; authPass := SMTP_PASS env |})
    | Some error =>
        consoleError " Error initializing email service:" (errMessage error);;
        setTransporter None
    end
  else setTransporter None.

Definition ensureTransporter (env : Env) (w : World) : Async bool :=
  t ← gets transporter;
  (if negb (JS.notNull t) && smtpConfigured env
   then initializeTransporter env w else ret tt);;
  t' ← gets transporter;
  ret (JS.notNull t').

Definition transporterSendMail (w : World) (m : MailOptions) : Async unit :=
  match sendMail w m with
  | None => emit (MailSent m)
  | Some error => throw error
  end.

Definition notificationMail (env : Env) (d : ContactData) : MailOptions :=
  {| from := SMTP_USER env;
     to := if JS.truthy (ADMIN_EMAIL env) then toString (ADMIN_EMAIL env)
           else "pradum@delhidigital.co";
     subject := " New Contact Form Submission - " ++ toUpperCase (cd_formType d);
     html := NotificationTemplate d |}.

Definition autoReplyMail (env : Env) (d : ContactData) : MailOptions :=
  {| from := SMTP_USER env;
     to := cd_email d;
     subject := "Thank you for contacting Delhi Digital Co.";
     html := AutoReplyTemplate d |}.

Definition sendContactNotification (env : Env) (w : World) (d : ContactData)
  : Async unit :=
  ok ← ensureTransporter env w;
  if negb ok then ret tt
  else
    tryCatch
      (transporterSendMail w (notificationMail env d))
      (fun error =>
         consoleError " Error sending contact notification email:" (errMessage error);;
         throw error).

Definition sendAutoReply (env : Env) (w : World) (d : ContactData) : Async unit :=
  ok ← ensureTransporter env w;
  if negb ok then ret tt
  else
    tryCatch
      (transporterSendMail w (autoReplyMail env d))
      (fun error =>
         consoleError " Error sending auto-reply email:" (errMessage error);;
         throw error).

(** ** The [Contact] model: Mongoose over the collection *)

(** The setters of [contactSchema]: [trim] on the four text paths,
    [lowercase] on [email]. Mongoose applies them when a document is built
    and when a query filter is cast. [maxlength] counts code units. *)
Definition castName (s : JS.string) : JS.string := JS.trim s.
Definition castEmail (s : JS.string) : JS.string := toLowerCase (JS.trim s).
Definition castPhone (s : JS.string) : JS.string := JS.trim s.
Definition castMessage (s : JS.string) : JS.string := JS.trim s.

(** [new Contact({ name, email, phone, message, formType })]: the setters
    run, [submittedAt] and [status] take their defaults and the document
    gets its [_id]. *)
Definition newContact (w : World) (b : Body) : Async Contact :=
  id ← newObjectId;
  ret {| _id := id;
         name := castName (body_name b);
         email := castEmail (body_email b);
         phone := castPhone (body_phone b);
         message := castMessage (body_message b);
         formType := body_formType b;
         submittedAt := clockCreate w;
         status := "new" |}.

(** The validators of [contactSchema], run by [save]. *)
Definition required (s : JS.string) : bool := negb (s =? "").
Definition maxlength (n : nat) (s : JS.string) : bool := (JS.length s <=? n)%nat.

Definition schemaValid (c : Contact) : bool :=
  required (name c) && maxlength 100 (name c)
  && required (email c) && maxlength 255 (email c)
  && required (phone c) && reTenDigits (phone c)
  && required (message c) && maxlength 1000 (message c)
  && required (formType c) && JS.includes formTypes (formType c)
  && JS.includes statuses (status c).

Definition validationError : Error :=
  {| errName := "ValidationError"; errMessage := "Contact validation failed" |}.

Definition duplicateKey : Error :=
  {| errName := "MongoServerError"; errMessage := "E11000 duplicate key error" |}.

(** [document.save()] of a new document: the schema validators run, then
    the document is inserted; the collection refuses an [_id] it already
    holds. *)
Definition save (w : World) (c : Contact) : Async unit :=
  if schemaValid c then
    match mongoWrite w with
    | None =>
        cs ← gets contacts;
        match cs !! _id c with
        | None => setContacts (<[_id c := c]> cs)
        | Some _ => throw duplicateKey
        end
    | Some error => throw error
    end
  else throw validationError.

(** The documents of the collection, in the order a scan meets them. *)
Definition documents (s : State) : list Contact := (map_to_list (contacts s)).*2.

(** [Contact.findOne(filter)] *)
Definition findOne (w : World) (filter : Contact -> bool) : Async (option Contact) :=
  match mongoRead w with
  | None => docs ← gets documents; ret (find filter docs)
  | Some error => throw error
  end.

(** The filter of the duplicate check:
    [{ $or: [{ email }, { phone }], submittedAt: { $gte: oneHourAgo } }]. *)
Definition recentByContact (e p : JS.string) (oneHourAgo : Z) (c : Contact) : bool :=
  ((email c =? castEmail e) || (phone c =? castPhone p))
  && (oneHourAgo <=? submittedAt c)%Z.

(** The order of [sort({ submittedAt: -1 })]. *)
Definition newerFirst (a b : Contact) : Prop := submittedAt b <= submittedAt a.

#[global] Instance newerFirst_dec a b : Decision (newerFirst a b).
Proof. unfold newerFirst. apply _. Defined.

Definition negativeSkip : Error :=
  {| errName := "MongoServerError";
     errMessage := "BSON field 'skip' value must be >= 0" |}.

(** Exchanging the neighbours at a position of a list, and a list after
    a sequence of such exchanges. *)
Fixpoint swapAt {A} (i : nat) (l : list A) : list A :=
  match i, l with
  | O, a :: b :: rest => b :: a :: rest
  | S j, a :: rest => a :: swapAt j rest
  | _, _ => l
  end.

Definition shuffle {A} (swaps : list nat) (l : list A) : list A :=
  fold_left (fun acc i => swapAt i acc) swaps l.

Definition isSafe (z : Z) : bool := (- JS.maxSafe <=? z) && (z <=? JS.maxSafe).

(** The documents a query passes over and the documents it serves. With
    safe integers, [limit] at least 1, the server refuses a negative
    [skip] and takes the two as they are. *)
Definition window (w : World) (skip limit : JS.Number) : Error + nat * nat :=
  match skip, limit with
  | JS.Finite sk, JS.Finite li =>
      if isSafe sk && isSafe li && (1 <=? li) then
        if sk <? 0 then inl negativeSkip else inr (Z.to_nat sk, Z.to_nat li)
      else oddWindow w skip limit
  | _, _ => oddWindow w skip limit
  end.

(** [Contact.find().sort({ submittedAt: -1 }).skip(skip).limit(limit)]:
    the documents as the query meets them, sorted; documents of the same
    [submittedAt] stay in the order they were met in. *)
Definition findSorted (w : World) (skip limit : JS.Number) : Async (list Contact) :=
  match mongoRead w with
  | None =>
      match window w skip limit with
      | inl error => throw error
      | inr (passed, served) =>
          docs ← gets documents;
          ret (take served
                 (drop passed (merge_sort newerFirst (shuffle (scanOrder w) docs))))
      end
  | Some error => throw error
  end.

(** [Contact.countDocuments()] *)
Definition countDocuments (w : World) : Async Z :=
  match mongoRead w with
  | None => docs ← gets documents; ret (Z.of_nat (length docs))
  | Some error => throw error
  end.

(** An ObjectId in a request is written as 24 hexadecimal digits; any
    other string fails the cast. *)
Definition hexValue (c : N) : option N :=
  let n := c in
  if ((48 <=? n) && (n <=? 57))%N then Some (n - 48)%N
  else if ((97 <=? n) && (n <=? 102))%N then Some (n - 87)%N
  else if ((65 <=? n) && (n <=? 70))%N then Some (n - 55)%N
  else None.

Fixpoint parseHex (acc : N) (s : JS.string) : option N :=
  match s with
  | JS.EmptyString => Some acc
  | JS.String c s' =>
      match hexValue c with
      | Some d => parseHex (16 * acc + d)%N s'
      | None => None
      end
  end.

Definition castObjectId (id : JS.string) : option N :=
  if (JS.length id =? 24)%nat then parseHex 0%N id else None.

Definition castError (id : JS.string) : Error :=
  {| errName := "CastError";
     errMessage := "Cast to ObjectId failed for value " ++ id |}.

Definition withStatus (c : Contact) (st : JS.string) : Contact :=
  {| _id := _id c; name := name c; email := email c; phone := phone c;
     message := message c; formType := formType c;
     submittedAt := submittedAt c; status := st |}.

(** [Contact.findByIdAndUpdate(id, { status }, { new: true })] *)
Definition findByIdAndUpdate (w : World) (id : JS.string) (st : JS.string)
  : Async (option Contact) :=
  match castObjectId id with
  | None => throw (castError id)
  | Some oid =>
      match mongoWrite w with
      | None =>
          cs ← gets contacts;
          match cs !! oid with
          | None => ret None
          | Some c =>
              setContacts (<[oid := withStatus c st]> cs);;
              ret (Some (withStatus c st))
          end
      | Some error => throw error
      end
  end.

(** ** The route handlers *)

Definition oneHour : Z := 60 * 60 * 1000.

(** [promise.catch(error => console.error(text, error.message))] on a
    promise nobody awaits. *)
Definition detached (p : Async unit) (text : JS.string) : Async unit :=
  tryCatch p (fun error => consoleError text (errMessage error)).

Definition contactDataOf (c : Contact) (b : Body) : ContactData :=
  {| cd_name := body_name b; cd_email := body_email b; cd_phone := body_phone b;
     cd_message := body_message b; cd_formType := body_formType b;
     cd_submittedAt := submittedAt c |}.

Definition validationFailed (errors : list FieldError) : Response :=
  {| statusCode := 400; json := JValidationFailed "Validation failed" errors |}.

Definition captchaFailed : Response :=
  {| statusCode := 400;
     json := JFailure "Captcha verification failed. Please try again." |}.

Definition duplicateSubmission : Response :=
  {| statusCode := 429;
     json := JFailure "A submission with this email or phone number was already received recently. Please wait before submitting again." |}.

Definition created (c : Contact) : Response :=
  {| statusCode := 201;
     json := JCreated "Thank you for your inquiry! We will contact you within 24 hours."
               (_id c) (submittedAt c) (formType c) |}.

Definition submissionError (env : Env) (error : Error) : Response :=
  {| statusCode := 500;
     json := JServerError
               "An error occurred while processing your request. Please try again later."
               (if isDevelopment env then Some (errMessage error) else None) |}.

(** [app.post("/api/contact", limiter, validateContactForm, handler)], from
    the validation chains on. *)
Definition postContact (env : Env) (w : World) (raw : RawBody) : Async Response :=
  let '(body, errors) := validateContactForm raw in
  tryCatch
    (if negb (bool_decide (errors = [])) then ret (validationFailed errors)
     else
       isRecaptchaValid ← verifyRecaptcha env w (body_recaptchaToken body);
       if negb isRecaptchaValid then ret captchaFailed
       else
         let oneHourAgo := clockQuery w - oneHour in
         existingSubmission ←
           findOne w (recentByContact (body_email body) (body_phone body) oneHourAgo);
         match existingSubmission with
         | Some _ => ret duplicateSubmission
         | None =>
             contact ← newContact w body;
             save w contact;;
             let contactData := contactDataOf contact body in
             (if smtpConfigured env then
                detached (sendContactNotification env w contactData)
                  "Failed to send admin notification:";;
                detached (sendAutoReply env w contactData)
                  "Failed to send auto-reply:"
              else ret tt);;
             ret (created contact)
         end)
    (fun error =>
       consoleError "Contact form submission error:" (errMessage error);;
       ret (submissionError env error)).

Definition contactsPage (data : list Contact) (page limit : JS.Number) (total : Z)
  : Response :=
  {| statusCode := 200;
     json := JContacts data page limit total (JS.ceilOfQuotient total limit) |}.

Definition fetchError : Response :=
  {| statusCode := 500; json := JFailure "Error fetching contacts" |}.

(** [app.get("/api/contacts", handler)]; [qpage] and [qlimit] are the
    integers the query parameters denote, if any. *)
Definition getContacts (w : World) (qpage qlimit : option Z) : Async Response :=
  tryCatch
    (let page := JS.orDefault (JS.parseInt qpage) 1 in
     let limit := JS.orDefault (JS.parseInt qlimit) 20 in
     let skip := JS.times (JS.minus page 1) limit in
     data ← findSorted w skip limit;
     total ← countDocuments w;
     ret (contactsPage data page limit total))
    (fun error =>
       consoleError "Error fetching contacts:" (errMessage error);;
       ret fetchError).

Definition invalidStatus : Response :=
  {| statusCode := 400; json := JFailure "Invalid status value" |}.

Definition contactNotFound : Response :=
  {| statusCode := 404; json := JFailure "Contact not found" |}.

Definition updateError : Response :=
  {| statusCode := 500; json := JFailure "Error updating contact status" |}.

Definition updated (c : Contact) : Response :=
  {| statusCode := 200; json := JContact c |}.

(** [app.patch("/api/contacts/:id/status", handler)]; [st] is
    [req.body.status], a string or absent. *)
Definition patchStatus (w : World) (id : JS.string) (st : option JS.string) : Async Response :=
  tryCatch
    (if negb (from_option (JS.includes statuses) false st) then ret invalidStatus
     else
       contact ← findByIdAndUpdate w id (toString st);
       match contact with
       | None => ret contactNotFound
       | Some c => ret (updated c)
       end)
    (fun error =>
       consoleError "Error updating contact status:" (errMessage error);;
       ret updateError).

(** ** The server as a transition system *)

Inductive Request :=
| PostContact (raw : RawBody)
| GetContacts (page limit : option Z)
| PatchStatus (id : JS.string) (st : option JS.string).

Definition handle (env : Env) (w : World) (r : Request) : Async Response :=
  match r with
  | PostContact raw => postContact env w raw
  | GetContacts page limit => getContacts w page limit
  | PatchStatus id st => patchStatus w id st
  end.

(** The process after start-up: an empty collection, and the email service
    as its constructor leaves it. *)
Definition boot (env : Env) (w : World) : State :=
  snd (initializeTransporter env w
         {| contacts := ∅; nextId := 0%N; transporter := None; effects := [] |}).

Inductive reachable (env : Env) : State -> Prop :=
| reachable_boot w : reachable env (boot env w)
| reachable_step w r s : reachable env s -> reachable env (snd (handle env w r s)).

(** ** The vocabulary of the properties *)

(** A string is either blank after [trimStart] or starts with a
    character that is not white space. *)
Definition headed (s : JS.string) : Prop :=
  match s with
  | JS.EmptyString => True
  | JS.String c _ => JS.isWhiteSpace c = false
  end.

(** The rules of the submission form, each with the error it reports: the
    flag tells whether the (sanitized) field meets the rule. *)
Definition fieldRules (raw : RawBody) : list (bool * FieldError) :=
  let n := JS.trim (toString (raw_name raw)) in
  let e := JS.trim (toString (raw_email raw)) in
  let p := JS.trim (toString (raw_phone raw)) in
  let m := JS.trim (toString (raw_message raw)) in
  [ (isLength 3 100 n,
      {| param := "name"; msg := "Name must be between 2 and 100 characters" |});
    (reLettersAndSpaces n,
      {| param := "name"; msg := "Name can only contain letters and spaces" |});
    (isEmail e,
      {| param := "email"; msg := "Please provide a valid email address" |});
    (isLength 0 255 (normalizeEmail e),
      {| param := "email"; msg := "Email is too long" |});
    (reTenDigits p,
      {| param := "phone"; msg := "Phone number must be exactly 10 digits" |});
    (isLength 10 1000 m,
      {| param := "message"; msg := "Message must be between 10 and 1000 characters" |});
    (isIn formTypes (toString (raw_formType raw)),
      {| param := "formType"; msg := "Invalid form type" |});
    (notEmpty (toString (raw_recaptchaToken raw)),
      {| param := "recaptchaToken"; msg := "Please complete the captcha verification" |}) ].

(** The errors of the rules that are not met, in the order of the rules. *)
Fixpoint violations (rules : list (bool * FieldError)) : list FieldError :=
  match rules with
  | [] => []
  | (ok, e) :: rest => if ok then violations rest else e :: violations rest
  end.

(** The rules a chain checks on a value, in order, each on the value the
    sanitizers before it have left. *)
Fixpoint chainRules (field : JS.string) (chain : list ChainItem) (value : JS.string)
  : list (bool * FieldError) :=
  match chain with
  | [] => []
  | Sanitizer f :: rest => chainRules field rest (f value)
  | Validator p m :: rest =>
      (p value, {| param := field; msg := m |}) :: chainRules field rest value
  end.

(** Every document sits under its own [_id], below the next fresh id. *)
Definition idsFresh (s : State) : Prop :=
  forall id c, contacts s !! id = Some c -> _id c = id /\ (id < nextId s)%N.

(** Every stored status is one of the enumerated values. *)
Definition statusesValid (s : State) : Prop :=
  forall id c, contacts s !! id = Some c -> In (status c) statuses.

(** A transport exists only when the SMTP account is configured. *)
Definition mailerSound (env : Env) (s : State) : Prop :=
  is_Some (transporter s) -> smtpConfigured env = true.

(** The document [new Contact] builds from a sanitized body. *)
Definition contactOf (id : N) (w : World) (b : Body) : Contact :=
  {| _id := id;
     name := castName (body_name b);
     email := castEmail (body_email b);
     phone := castPhone (body_phone b);
     message := castMessage (body_message b);
     formType := body_formType b;
     submittedAt := clockCreate w;
     status := "new" |}.

(** The dispatch of the two notifications, as [postContact] does it after
    the document is saved. *)
Definition dispatch (env : Env) (w : World) (d : ContactData) : Async unit :=
  if smtpConfigured env then
    detached (sendContactNotification env w d) "Failed to send admin notification:";;
    detached (sendAutoReply env w d) "Failed to send auto-reply:"
  else ret tt.

Definition withContact (s : State) (c : Contact) : State :=
  {| contacts := <[_id c := c]> (contacts s); nextId := N.succ (nextId s);
     transporter := transporter s; effects := effects s |}.

(** A submission that goes through: valid, let in by the spam gate, not a
    duplicate, a document that the schema accepts, on a database that
    answers. *)
Record Accepted (env : Env) (w : World) (raw : RawBody) (s s1 : State) : Prop := {
  acc_valid : snd (validateContactForm raw) = [];
  acc_gate :
    verifyRecaptcha env w (body_recaptchaToken (fst (validateContactForm raw))) s
    = (Return true, s1);
  acc_read : mongoRead w = None;
  acc_unblocked :
    forall id c, contacts s !! id = Some c ->
      recentByContact (body_email (fst (validateContactForm raw)))
        (body_phone (fst (validateContactForm raw)))
        (clockQuery w - oneHour) c = false;
  acc_schema :
    schemaValid (contactOf (nextId s) w (fst (validateContactForm raw))) = true;
  acc_write : mongoWrite w = None
}.

Definition withEffects (s : State) (l : list Effect) : State :=
  {| contacts := contacts s; nextId := nextId s; transporter := transporter s;
     effects := (effects s ++ l)%list |}.

Definition withTransporter (s : State) (t : option Transporter) : State :=
  {| contacts := contacts s; nextId := nextId s; transporter := t;
     effects := effects s |}.

Definition transportOf (env : Env) : Transporter :=
  {| host := SMTP_HOST env; port := SMTP_PORT env;
     authUser := SMTP_USER env; authPass := SMTP_PASS env |}.

(** The transport is there, or can be built now. *)
Definition ready (env : Env) (w : World) (s : State) : Prop :=
  is_Some (transporter s) \/ (smtpConfigured env = true /\ createTransport w = None).

(** What one notification leaves behind: the message when it is sent, two
    lines on the error console when it is not. *)
Definition attempt (w : World) (m : MailOptions) (service handler : JS.string)
  : list Effect :=
  match sendMail w m with
  | None => [MailSent m]
  | Some error => [ConsoleError service (errMessage error);
                   ConsoleError handler (errMessage error)]
  end.

(** The effects of the dispatch, by the state of the transport. *)
Definition dispatched (env : Env) (w : World) (d : ContactData) (s : State)
  : list Effect :=
  if smtpConfigured env then
    match transporter s, createTransport w with
    | None, Some error =>
        [ConsoleError " Error initializing email service:" (errMessage error);
         ConsoleError " Error initializing email service:" (errMessage error)]
    | _, _ =>
        attempt w (notificationMail env d)
          " Error sending contact notification email:"
          "Failed to send admin notification:"
        ++ attempt w (autoReplyMail env d)
             " Error sending auto-reply email:" "Failed to send auto-reply:"
    end
  else [].


(** The same world with another mail transport. *)
Definition withMail (w : World) (ct : option Error)
  (sm : MailOptions -> option Error) : World :=
  {| clockQuery := clockQuery w; clockCreate := clockCreate w;
     siteverify := siteverify w; mongoRead := mongoRead w;
     scanOrder := scanOrder w; oddWindow := oddWindow w;
     mongoWrite := mongoWrite w; createTransport := ct; sendMail := sm |}.

Definition enumerated (st : option JS.string) : bool :=
  from_option (JS.includes statuses) false st.

Definition withContacts (s : State) (m : gmap N Contact) : State :=
  {| contacts := m; nextId := nextId s; transporter := transporter s;
     effects := effects s |}.

Definition invariant (env : Env) (s : State) : Prop :=
  idsFresh s /\ statusesValid s /\ mailerSound env s.

(** A computation started in a state that satisfies [P] ends in a state
    that satisfies [Q] of its result, or throws in a state that satisfies
    [E]. *)
Definition triple {A} (P : State -> Prop) (m : Async A)
  (Q : A -> State -> Prop) (E : State -> Prop) : Prop :=
  forall s, P s ->
    match m s with
    | (Return a, s') => Q a s'
    | (Throw _, s') => E s'
    end.

(** ** A deployment and a request to run the server on *)

(** Stand-ins for validator.js: an address has an at sign; normalizing puts
    it in lower case. The engine is stood in for by [JS.lowerLatin] and
    [JS.upperLatin]. *)
Fixpoint hasAt (s : JS.string) : bool :=
  match s with
  | JS.EmptyString => false
  | JS.String c s' => (c =? 64)%N || hasAt s'
  end.

Definition production : Env :=
  {| NODE_ENV := Some "production";
     RECAPTCHA_SECRET_KEY := Some "6LcSecret";
     SMTP_HOST := Some "smtp.example.com";
     SMTP_PORT := Some "587";
     SMTP_USER := Some "forms@example.com";
     SMTP_PASS := Some "hunter2";
     ADMIN_EMAIL := None |}.

Definition timedOut : Error :=
  {| errName := "AxiosError"; errMessage := "timeout of 5000ms exceeded" |}.

Definition mailboxFull : Error :=
  {| errName := "Error"; errMessage := "452 mailbox full" |}.

(** A world where the verification service accepts the token "human" and
    times out on every other one, the database answers, meets the
    documents in the order of the collection and serves an empty page for
    an odd [skip] or [limit], and the transport refuses the mail addressed
    to jane@x.com. *)
Definition calm : World :=
  {| clockQuery := 1000000;
     clockCreate := 1000005;
     siteverify := fun _ token => if token =? "human" then Replied true else Failed timedOut;
     mongoRead := None;
     scanOrder := [];
     oddWindow := fun _ _ => inr (0%nat, 0%nat);
     mongoWrite := None;
     createTransport := None;
     sendMail := fun m => if to m =? "jane@x.com" then Some mailboxFull else None |}.

Definition janeDoe : RawBody :=
  {| raw_name := Some "Jane Doe";
     raw_email := Some "JANE@X.COM";
     raw_phone := Some "9876543210";
     raw_message := Some "Interested in your product";
     raw_formType := Some "hero";
     raw_recaptchaToken := Some "test_token" |}.

Definition janeStored : Contact :=
  {| _id := 0; name := "Jane Doe"; email := "jane@x.com"; phone := "9876543210";
     message := "Interested in your product"; formType := "hero";
     submittedAt := 1000005; status := "new" |}.

(** A request whose name is too short and has a digit, and without token. *)
Definition badName : RawBody :=
  {| raw_name := Some "J4";
     raw_email := Some "jane@x.com";
     raw_phone := Some "9876543210";
     raw_message := Some "Interested in your product";
     raw_formType := Some "hero";
     raw_recaptchaToken := None |}.

(** The process as it starts in [production], and after one submission
    has been handled in the [calm] world. *)
Definition started : State := boot production calm.

Definition afterSubmission (raw : RawBody) : State :=
  snd (postContact production calm raw started).

(** ** More of the server: the health check *)

(** The body of [GET /api/health]; the status is 200. *)
Record Health := {
  health_success : bool;
  health_message : JS.string;
  health_status : JS.string;
  health_environment : option JS.string;
  health_timestamp : Z;
  services_database : JS.string;
  services_email : JS.string;
  services_recaptcha : JS.string
}.

(** [app.get("/api/health", handler)]; [readyState] is
    [mongoose.connection.readyState] and [now] the clock. *)
Definition getHealth (env : Env) (readyState : Z) (now : Z) : Health :=
  {| health_success := true;
     health_message := "Server is running perfectly";
     health_status := "healthy";
     health_environment := NODE_ENV env;
     health_timestamp := now;
     services_database := if (readyState =? 1)%Z then "connected" else "disconnected";
     services_email := if JS.truthy (SMTP_USER env) then "configured" else "not configured";
     services_recaptcha :=
       if JS.truthy (RECAPTCHA_SECRET_KEY env) then "configured" else "not configured" |}.

(** ** More vocabulary *)

(** The messages among the effects. *)
Fixpoint mails (l : list Effect) : list MailOptions :=
  match l with
  | [] => []
  | MailSent m :: rest => m :: mails rest
  | _ :: rest => mails rest
  end.

(** The requests to the verification service among the effects. *)
Fixpoint verifications (l : list Effect) : list (JS.string * JS.string) :=
  match l with
  | [] => []
  | SiteVerifyRequest secret token :: rest => (secret, token) :: verifications rest
  | _ :: rest => verifications rest
  end.

(** Two versions of a document that differ at most in the status. *)
Definition sameButStatus (c c' : Contact) : Prop :=
  _id c' = _id c /\ name c' = name c /\ email c' = email c /\ phone c' = phone c
  /\ message c' = message c /\ formType c' = formType c
  /\ submittedAt c' = submittedAt c.

(** The server goes from one state to another by handling requests. *)
Inductive evolves (env : Env) : State -> State -> Prop :=
| evolves_refl s : evolves env s s
| evolves_step w r s s' :
    evolves env s s' -> evolves env s (snd (handle env w r s')).

(** What the stored email needs of the engine: putting a string in lower
    case twice is putting it in lower case once, and a trimmed string
    stays trimmed. *)
Definition caseStable : Prop :=
  (forall s, toLowerCase (toLowerCase s) = toLowerCase s)
  /\ (forall s, JS.trim s = s -> JS.trim (toLowerCase s) = toLowerCase s).

(** What holds of a document that went through the validation chains and
    the schema: the schema accepts it, the name is three letters or spaces
    at least, the message ten characters at least, the text fields are
    stored trimmed, and the email is what the engine's [toLowerCase] made
    of a trimmed string: trimmed and a fixed point of [toLowerCase] when
    the engine's [toLowerCase] is stable. *)
Definition wellStored (c : Contact) : Prop :=
  schemaValid c = true
  /\ isLength 3 100 (name c) = true
  /\ reLettersAndSpaces (name c) = true
  /\ isLength 10 1000 (message c) = true
  /\ JS.trim (name c) = name c
  /\ JS.trim (phone c) = phone c
  /\ JS.trim (message c) = message c
  /\ (exists e, email c = toLowerCase (JS.trim e))
  /\ (caseStable -> JS.trim (email c) = email c /\ toLowerCase (email c) = email c).

(** Two stored submissions with the same email or the same phone lie more
    than an hour apart. *)
Definition spaced (s : State) : Prop :=
  forall i j ci cj,
    i <> j -> contacts s !! i = Some ci -> contacts s !! j = Some cj ->
    email ci = email cj \/ phone ci = phone cj ->
    oneHour < Z.abs (submittedAt ci - submittedAt cj).

(** The documents a listing answers with; none when it is an error. *)
Definition listed (o : Outcome Response) : list Contact :=
  match o with
  | Return {| json := JContacts data _ _ _ _ |} => data
  | _ => []
  end.

(** The total a listing reports; zero when it is an error. *)
Definition reportedTotal (o : Outcome Response) : Z :=
  match o with
  | Return {| json := JContacts _ _ _ total _ |} => total
  | _ => 0
  end.

(** A body with the white space around name, email, phone and message
    removed. *)
Definition trimmedBody (raw : RawBody) : RawBody :=
  {| raw_name := JS.trim <$> raw_name raw;
     raw_email := JS.trim <$> raw_email raw;
     raw_phone := JS.trim <$> raw_phone raw;
     raw_message := JS.trim <$> raw_message raw;
     raw_formType := raw_formType raw;
     raw_recaptchaToken := raw_recaptchaToken raw |}.

(** The address the operator's notification goes to. *)
Definition adminAddress (env : Env) : JS.string :=
  if JS.truthy (ADMIN_EMAIL env) then toString (ADMIN_EMAIL env)
  else "pradum@delhidigital.co".

(** The error [save] throws for a new document, if any: the schema's, the
    database's, or the collection's when the [_id] is taken. *)
Definition refusal (w : World) (c : Contact) (s : State) : option Error :=
  if schemaValid c then
    match mongoWrite w with
    | Some error => Some error
    | None => if JS.notNull (contacts s !! _id c) then Some duplicateKey else None
    end
  else Some validationError.

(** [constructor()] of the email service: no transport, then
    [initializeTransporter]. *)
Definition construct (env : Env) (w : World) : Async unit :=
  setTransporter None;; initializeTransporter env w.


(** The ways a submission can end. [gate] is what the spam gate left
    behind, [c] the document built for the request. *)
Inductive Ending (env : Env) (w : World) (raw : RawBody) (s : State)
  (gate : list Effect) : Response -> State -> Prop :=
| ends_invalid :
    snd (validateContactForm raw) <> [] -> gate = [] ->
    Ending env w raw s gate (validationFailed (snd (validateContactForm raw))) s
| ends_captcha :
    snd (validateContactForm raw) = [] ->
    Ending env w raw s gate captchaFailed (withEffects s gate)
| ends_duplicate existing :
    snd (validateContactForm raw) = [] -> mongoRead w = None ->
    find (recentByContact (body_email (fst (validateContactForm raw)))
            (body_phone (fst (validateContactForm raw))) (clockQuery w - oneHour))
      (documents s) = Some existing ->
    Ending env w raw s gate duplicateSubmission (withEffects s gate)
| ends_error error s' :
    snd (validateContactForm raw) = [] ->
    contacts s' = contacts s -> transporter s' = transporter s ->
    (nextId s <= nextId s')%N ->
    effects s' = (effects s ++ gate
                  ++ [ConsoleError "Contact form submission error:" (errMessage error)])%list ->
    (mongoRead w = Some error
     \/ mongoRead w = None
        /\ refusal w (contactOf (nextId s) w (fst (validateContactForm raw))) s
           = Some error) ->
    Ending env w raw s gate (submissionError env error) s'
| ends_created :
    snd (validateContactForm raw) = [] ->
    mongoRead w = None -> mongoWrite w = None ->
    contacts s !! nextId s = None ->
    find (recentByContact (body_email (fst (validateContactForm raw)))
            (body_phone (fst (validateContactForm raw))) (clockQuery w - oneHour))
      (documents s) = None ->
    schemaValid (contactOf (nextId s) w (fst (validateContactForm raw))) = true ->
    Ending env w raw s gate
      (created (contactOf (nextId s) w (fst (validateContactForm raw))))
      (snd (dispatch env w
              (contactDataOf (contactOf (nextId s) w (fst (validateContactForm raw)))
                 (fst (validateContactForm raw)))
              (withContact (withEffects s gate)
                 (contactOf (nextId s) w (fst (validateContactForm raw)))))).

(** ** More samples *)

(** [production] switched to development mode. *)
Definition development : Env :=
  {| NODE_ENV := Some "development";
     RECAPTCHA_SECRET_KEY := RECAPTCHA_SECRET_KEY production;
     SMTP_HOST := SMTP_HOST production;
     SMTP_PORT := SMTP_PORT production;
     SMTP_USER := SMTP_USER production;
     SMTP_PASS := SMTP_PASS production;
     ADMIN_EMAIL := ADMIN_EMAIL production |}.

(** [production] without the password of the mail account. *)
Definition userOnly : Env :=
  {| NODE_ENV := NODE_ENV production;
     RECAPTCHA_SECRET_KEY := RECAPTCHA_SECRET_KEY production;
     SMTP_HOST := SMTP_HOST production;
     SMTP_PORT := SMTP_PORT production;
     SMTP_USER := SMTP_USER production;
     SMTP_PASS := None;
     ADMIN_EMAIL := ADMIN_EMAIL production |}.

Definition unreachable : Error :=
  {| errName := "MongoNetworkError"; errMessage := "connection timed out" |}.

(** [calm] with a database that fails on reading, and on writing. *)
Definition readDown : World :=
  {| clockQuery := clockQuery calm; clockCreate := clockCreate calm;
     siteverify := siteverify calm;
     mongoRead := Some unreachable; scanOrder := scanOrder calm;
     oddWindow := oddWindow calm; mongoWrite := mongoWrite calm;
     createTransport := createTransport calm; sendMail := sendMail calm |}.

Definition writeDown : World :=
  {| clockQuery := clockQuery calm; clockCreate := clockCreate calm;
     siteverify := siteverify calm;
     mongoRead := mongoRead calm; scanOrder := scanOrder calm;
     oddWindow := oddWindow calm; mongoWrite := Some unreachable;
     createTransport := createTransport calm; sendMail := sendMail calm |}.

(** Jane's submission with a token the verification service does not
    accept. *)
Definition robot : RawBody :=
  {| raw_name := raw_name janeDoe; raw_email := raw_email janeDoe;
     raw_phone := raw_phone janeDoe; raw_message := raw_message janeDoe;
     raw_formType := raw_formType janeDoe; raw_recaptchaToken := Some "robot" |}.

(** One hour and a little later: the clock has passed the window of a
    submission made in [calm], and the query meets the first two
    documents the other way round. *)
Definition later : World :=
  {| clockQuery := 4600006; clockCreate := 4600010;
     siteverify := siteverify calm;
     mongoRead := None; scanOrder := [0%nat];
     oddWindow := oddWindow calm; mongoWrite := None;
     createTransport := None; sendMail := fun _ => None |}.

(** Jane's second submission as it is stored. *)
Definition janeAgain : Contact :=
  {| _id := 1; name := "Jane Doe"; email := "jane@x.com"; phone := "9876543210";
     message := "Interested in your product"; formType := "hero";
     submittedAt := 4600010; status := "new" |}.

(** U+1F600, a surrogate pair, and Jane's submission with a message of 501
    of them: 501 characters as validator.js counts, 1002 code units. *)
Definition grin : JS.string := JS.String 0xd83d (JS.String 0xde00 "").

Definition wordy : RawBody :=
  {| raw_name := raw_name janeDoe; raw_email := raw_email janeDoe;
     raw_phone := raw_phone janeDoe; raw_message := Some (JS.repeat grin 501);
     raw_formType := raw_formType janeDoe;
     raw_recaptchaToken := raw_recaptchaToken janeDoe |}.
(** ** Facts about the JS.string operations *)

Lemma eqb_eq (a b : JS.string) : (a =? b) = true <-> a = b.
Proof using. unfold JS.eqb. apply bool_decide_eq_true. Qed.

Lemma eqb_neq (a b : JS.string) : (a =? b) = false <-> a <> b.
Proof using. unfold JS.eqb. apply bool_decide_eq_false. Qed.

Lemma trimStart_length s : (JS.length (JS.trimStart s) <= JS.length s)%nat.
Proof.
  induction s as [|c s IH]; simpl; [lia|].
  destruct (JS.isWhiteSpace c); simpl; lia.
Qed.

Lemma trimEnd_length s : (JS.length (JS.trimEnd s) <= JS.length s)%nat.
Proof.
  induction s as [|c s IH]; simpl; [lia|].
  destruct (JS.trimEnd s) eqn:E.
  - destruct (JS.isWhiteSpace c); simpl; lia.
  - simpl in *. lia.
Qed.

Lemma trim_length s : (JS.length (JS.trim s) <= JS.length s)%nat.
Proof.
  unfold JS.trim. pose proof (trimEnd_length (JS.trimStart s)).
  pose proof (trimStart_length s). lia.
Qed.

Lemma trimEnd_idem s : JS.trimEnd (JS.trimEnd s) = JS.trimEnd s.
Proof.
  induction s as [|c s IH]; simpl; [reflexivity|].
  destruct (JS.trimEnd s) as [|d t] eqn:E.
  - destruct (JS.isWhiteSpace c) eqn:W; simpl; [reflexivity | now rewrite W].
  - simpl. simpl in IH. now rewrite IH.
Qed.

Lemma trimStart_headed s : headed (JS.trimStart s).
Proof.
  induction s as [|c s IH]; simpl; [exact I|].
  destruct (JS.isWhiteSpace c) eqn:W; [exact IH | exact W].
Qed.

Lemma trimStart_of_headed s : headed s -> JS.trimStart s = s.
Proof. destruct s as [|c s]; simpl; [reflexivity | now intros ->]. Qed.

Lemma trimEnd_headed s : headed s -> headed (JS.trimEnd s).
Proof.
  destruct s as [|c s]; simpl; [trivial|]. intros W.
  destruct (JS.trimEnd s); [rewrite W|]; exact W.
Qed.

Lemma trim_idem s : JS.trim (JS.trim s) = JS.trim s.
Proof.
  unfold JS.trim.
  rewrite (trimStart_of_headed (JS.trimEnd (JS.trimStart s))).
  - apply trimEnd_idem.
  - apply trimEnd_headed, trimStart_headed.
Qed.

Lemma eqb_empty_length s : (s =? "") = (JS.length s =? 0)%nat.
Proof. destruct s; reflexivity. Qed.

(** A surrogate pair is two code units and a variation selector is none
    of a pair: validator.js never counts more than [.length]. *)
Lemma validatorLength_le s : (validatorLength s <= JS.length s)%nat.
Proof. unfold validatorLength. lia. Qed.

Lemma every_matches p q s :
  (forall c, p c = true -> q c = false) ->
  JS.every p s = true -> JS.matches q s = 0%nat.
Proof.
  intros Hpq. induction s as [|c s IH]; cbn; [reflexivity|].
  intros [Hc Hs]%andb_true_iff. rewrite (Hpq c Hc). auto.
Qed.

Lemma every_surrogatePairs p s :
  (forall c, p c = true -> JS.isHighSurrogate c = false) ->
  JS.every p s = true -> JS.surrogatePairs s = 0%nat.
Proof.
  intros Hp. induction s as [|c s IH]; [reflexivity|].
  intros [Hc Hs]%andb_true_iff. specialize (IH Hs).
  destruct s as [|d s]; [reflexivity|].
  change (JS.surrogatePairs (JS.String c (JS.String d s)))
    with (if JS.isHighSurrogate c && JS.isLowSurrogate d
          then S (JS.surrogatePairs s) else JS.surrogatePairs (JS.String d s)).
  now rewrite (Hp c Hc).
Qed.

(** On a string of letters, digits and white space the two lengths
    agree. *)
Lemma validatorLength_plain p s :
  (forall c, p c = true ->
             JS.isHighSurrogate c = false /\ JS.isVariationSelector c = false) ->
  JS.every p s = true -> validatorLength s = JS.length s.
Proof.
  intros Hp Hs. unfold validatorLength.
  rewrite (every_matches p JS.isVariationSelector s), (every_surrogatePairs p s);
    try assumption; try lia; intros c Hc; now apply Hp.
Qed.

Lemma letterOrSpace_plain c :
  JS.isLetter c || JS.isWhiteSpace c = true ->
  JS.isHighSurrogate c = false /\ JS.isVariationSelector c = false.
Proof using.
  unfold JS.isLetter, JS.isWhiteSpace, JS.isHighSurrogate, JS.isVariationSelector.
  intros H. split; apply not_true_is_false; intros H'; revert H H';
    rewrite ?orb_true_iff, ?andb_true_iff, ?N.leb_le, ?N.eqb_eq; lia.
Qed.

(** ** The validation gate *)

Lemma violations_app l1 l2 :
  violations (l1 ++ l2) = (violations l1 ++ violations l2)%list.
Proof.
  induction l1 as [|[ok e] l1 IH]; cbn; [reflexivity|].
  destruct ok; cbn; now rewrite IH.
Qed.

Lemma runChain_errors field chain value :
  snd (runChain field chain value) = violations (chainRules field chain value).
Proof.
  revert value. induction chain as [|[f|p m] chain IH]; intros value; cbn.
  - reflexivity.
  - apply IH.
  - specialize (IH value). destruct (runChain field chain value) as [v errs].
    cbn in *. subst errs. now destruct (p value).
Qed.

Lemma validateContactForm_errors raw :
  snd (validateContactForm raw) = violations (fieldRules raw).
Proof.
  unfold validateContactForm.
  pose proof (runChain_errors "name" nameChain (toString (raw_name raw))) as H1.
  pose proof (runChain_errors "email" emailChain (toString (raw_email raw))) as H2.
  pose proof (runChain_errors "phone" phoneChain (toString (raw_phone raw))) as H3.
  pose proof (runChain_errors "message" messageChain (toString (raw_message raw))) as H4.
  pose proof (runChain_errors "formType" formTypeChain (toString (raw_formType raw))) as H5.
  pose proof (runChain_errors "recaptchaToken" recaptchaTokenChain
                (toString (raw_recaptchaToken raw))) as H6.
  destruct (runChain "name" _ _) as [n e1], (runChain "email" _ _) as [e e2],
    (runChain "phone" _ _) as [p e3], (runChain "message" _ _) as [m e4],
    (runChain "formType" _ _) as [f e5], (runChain "recaptchaToken" _ _) as [t e6].
  cbn [snd] in *. subst e1 e2 e3 e4 e5 e6.
  rewrite <- !violations_app. reflexivity.
Qed.

Lemma violations_In rules e : In (false, e) rules -> In e (violations rules).
Proof.
  induction rules as [|[ok e'] rules IH]; simpl; [tauto|].
  intros [H | H].
  - inversion H; subst. now left.
  - destruct ok; [|right]; auto.
Qed.

Lemma violations_nil rules :
  violations rules = [] -> forall ok e, In (ok, e) rules -> ok = true.
Proof.
  induction rules as [|[ok' e'] rules IH]; simpl; [tauto|].
  destruct ok'; [|discriminate]. intros Hnil ok e [H | H].
  - now inversion H.
  - eauto.
Qed.

(** C2. When a field of the request breaks its rule (name length or
    characters, email format or length, phone pattern, message length, form
    type, missing captcha token), the handler answers 400 "Validation
    failed" with the errors of all the rules that are broken, the one at
    hand among them; the state of the server is left as it was, whatever
    the verification service, the database and the mail transport would
    have answered: none of them is reached. *)
Theorem validation_gate env w raw s e :
  In (false, e) (fieldRules raw) ->
  postContact env w raw s
  = (Return {| statusCode := 400;
               json := JValidationFailed "Validation failed"
                         (violations (fieldRules raw)) |}, s)
  /\ In e (violations (fieldRules raw))
  /\ (forall e', In (false, e') (fieldRules raw) ->
                 In e' (violations (fieldRules raw))).
Proof.
  intros Hin. pose proof (violations_In _ _ Hin) as Hv.
  split; [|split; [exact Hv | intros; now apply violations_In]].
  unfold postContact.
  pose proof (validateContactForm_errors raw) as Herr.
  destruct (validateContactForm raw) as [body errors]. cbn [snd] in Herr. subst errors.
  unfold tryCatch. rewrite bool_decide_eq_false_2.
  - reflexivity.
  - intros Hnil. rewrite Hnil in Hv. destruct Hv.
Qed.

(** ** The spam gate *)

Lemma verifyRecaptcha_frame env w token s :
  let s' := snd (verifyRecaptcha env w token s) in
  contacts s' = contacts s /\ nextId s' = nextId s
  /\ transporter s' = transporter s.
Proof.
  unfold verifyRecaptcha, tryCatch, axiosPost.
  destruct (isDevelopment env); [easy|].
  destruct (isBypassToken token); [easy|].
  destruct (JS.truthy (RECAPTCHA_SECRET_KEY env)); [|easy].
  cbn. destruct (siteverify w _ token); cbn; easy.
Qed.

Lemma verifyRecaptcha_call env w token s secret :
  isDevelopment env = false -> isBypassToken token = false ->
  RECAPTCHA_SECRET_KEY env = Some secret -> secret <> "" ->
  verifyRecaptcha env w token s
  = match siteverify w secret token with
    | Replied verdict =>
        (Return verdict, withEffects s [SiteVerifyRequest secret token])
    | Failed error =>
        (Return false,
         withEffects (withEffects s [SiteVerifyRequest secret token])
           [ConsoleError "reCAPTCHA verification error:" (errMessage error)])
    end.
Proof.
  intros Hdev Hbyp Hsec Hne.
  unfold verifyRecaptcha, tryCatch, axiosPost.
  rewrite Hdev, Hbyp, Hsec. unfold JS.truthy.
  apply eqb_neq in Hne. rewrite Hne.
  cbn. destruct (siteverify w secret token); reflexivity.
Qed.

(** C3. [verifyRecaptcha] answers true, without calling the verification
    service, in development mode, on a bypass token, and when no secret is
    configured. Otherwise it sends the secret and the token to the service
    and answers its verdict. When that call fails, the answer is true
    exactly when the deployment is in development mode; as the call is only
    made outside development mode, the answer is then false. *)
Theorem verifyRecaptcha_spec env w token s :
  (isDevelopment env = true ->
     verifyRecaptcha env w token s = (Return true, s))
  /\ (isBypassToken token = true ->
     verifyRecaptcha env w token s = (Return true, s))
  /\ (JS.truthy (RECAPTCHA_SECRET_KEY env) = false ->
     verifyRecaptcha env w token s = (Return true, s))
  /\ (isDevelopment env = false -> isBypassToken token = false ->
      forall secret, RECAPTCHA_SECRET_KEY env = Some secret -> secret <> "" ->
      (forall verdict, siteverify w secret token = Replied verdict ->
         verifyRecaptcha env w token s
         = (Return verdict, withEffects s [SiteVerifyRequest secret token]))
      /\ (forall error, siteverify w secret token = Failed error ->
         fst (verifyRecaptcha env w token s) = Return false))
  /\ (forall secret error, RECAPTCHA_SECRET_KEY env = Some secret ->
      siteverify w secret token = Failed error ->
      isBypassToken token = false -> secret <> "" ->
      (fst (verifyRecaptcha env w token s) = Return true
       <-> isDevelopment env = true)).
Proof.
  split; [|split; [|split; [|split]]].
  - intros Hdev. unfold verifyRecaptcha, tryCatch. now rewrite Hdev.
  - intros Hbyp. unfold verifyRecaptcha, tryCatch. rewrite Hbyp.
    now destruct (isDevelopment env).
  - intros Hsec. unfold verifyRecaptcha, tryCatch. rewrite Hsec.
    now destruct (isDevelopment env), (isBypassToken token).
  - intros Hdev Hbyp secret Hsec Hne.
    rewrite (verifyRecaptcha_call env w token s secret Hdev Hbyp Hsec Hne).
    split.
    + intros verdict ->. reflexivity.
    + intros error ->. reflexivity.
  - intros secret error Hsec Hfail Hbyp Hne.
    destruct (isDevelopment env) eqn:Hdev.
    + unfold verifyRecaptcha, tryCatch. rewrite Hdev. easy.
    + rewrite (verifyRecaptcha_call env w token s secret Hdev Hbyp Hsec Hne), Hfail.
      cbn. split; discriminate.
Qed.

(** ** Running a submission through the handler *)

(** Running a computation step by step. *)
Lemma bind_Return {A B} (m : Async A) (k : A -> Async B) s a s' :
  m s = (Return a, s') -> (m ≫= k) s = k a s'.
Proof. intros H. unfold mbind, Async_bind. now rewrite H. Qed.

Lemma bind_Throw {A B} (m : Async A) (k : A -> Async B) s e s' :
  m s = (Throw e, s') -> (m ≫= k) s = (Throw e, s').
Proof. intros H. unfold mbind, Async_bind. now rewrite H. Qed.

Lemma tryCatch_Return {A} (m : Async A) h s a s' :
  m s = (Return a, s') -> tryCatch m h s = (Return a, s').
Proof. intros H. unfold tryCatch. now rewrite H. Qed.

Lemma tryCatch_Throw {A} (m : Async A) h s e s' :
  m s = (Throw e, s') -> tryCatch m h s = h e s'.
Proof. intros H. unfold tryCatch. now rewrite H. Qed.

Lemma findOne_run w p s :
  mongoRead w = None -> findOne w p s = (Return (find p (documents s)), s).
Proof. intros H. unfold findOne. now rewrite H. Qed.

Lemma newContact_run w b s :
  newContact w b s
  = (Return (contactOf (nextId s) w b),
     {| contacts := contacts s; nextId := N.succ (nextId s);
        transporter := transporter s; effects := effects s |}).
Proof. reflexivity. Qed.

Lemma save_run w c s :
  schemaValid c = true -> mongoWrite w = None -> contacts s !! _id c = None ->
  save w c s
  = (Return tt,
     {| contacts := <[_id c := c]> (contacts s); nextId := nextId s;
        transporter := transporter s; effects := effects s |}).
Proof.
  intros Hv Hw Hn. unfold save. rewrite Hv, Hw.
  unfold mbind, Async_bind, gets. now rewrite Hn.
Qed.

Lemma detached_returns p text s : exists s', detached p text s = (Return tt, s').
Proof.
  unfold detached, tryCatch, consoleError, emit, modify.
  destruct (p s) as [[[]|e] s']; eauto.
Qed.

Lemma dispatch_returns env w d s : exists s', dispatch env w d s = (Return tt, s').
Proof.
  unfold dispatch. destruct (smtpConfigured env); [|now eexists].
  destruct (detached_returns (sendContactNotification env w d)
              "Failed to send admin notification:" s) as [s1 H1].
  destruct (detached_returns (sendAutoReply env w d)
              "Failed to send auto-reply:" s1) as [s2 H2].
  exists s2. rewrite (bind_Return _ _ _ _ _ H1). exact H2.
Qed.

Lemma validateContactForm_body raw :
  fst (validateContactForm raw)
  = {| body_name := JS.trim (toString (raw_name raw));
       body_email := normalizeEmail (JS.trim (toString (raw_email raw)));
       body_phone := JS.trim (toString (raw_phone raw));
       body_message := JS.trim (toString (raw_message raw));
       body_formType := toString (raw_formType raw);
       body_recaptchaToken := toString (raw_recaptchaToken raw) |}.
Proof.
  unfold validateContactForm.
  cbn [runChain nameChain emailChain phoneChain messageChain formTypeChain
       recaptchaTokenChain].
  repeat match goal with
         | |- context [runChain ?f [] ?v] => change (runChain f [] v) with (v, @nil FieldError)
         end.
  reflexivity.
Qed.

Lemma documents_In s c :
  In c (documents s) <-> exists id, contacts s !! id = Some c.
Proof.
  unfold documents. rewrite <- list_elem_of_In, list_elem_of_fmap. split.
  - intros [[id c'] [-> Hin]]. apply elem_of_map_to_list in Hin. eauto.
  - intros [id Hid]. exists (id, c). split; [reflexivity|].
    now apply elem_of_map_to_list.
Qed.

Lemma find_none_documents s p :
  find p (documents s) = None
  <-> forall id c, contacts s !! id = Some c -> p c = false.
Proof.
  split.
  - intros Hnone id c Hc. apply (find_none _ _ Hnone). apply documents_In. eauto.
  - intros Hall. destruct (find p (documents s)) as [c|] eqn:F; [|reflexivity].
    apply find_some in F as [Hin Hp]. apply documents_In in Hin as [id Hid].
    rewrite (Hall _ _ Hid) in Hp. discriminate.
Qed.


Lemma isLength_bounds lo hi s :
  isLength lo hi s = true -> (lo <= validatorLength s <= hi)%nat.
Proof using.
  unfold isLength. intros H. apply andb_true_iff in H as [H1 H2].
  apply Nat.leb_le in H1, H2. split; assumption.
Qed.

Lemma required_of_length s : (0 < JS.length s)%nat -> required s = true.
Proof. destruct s; simpl; [lia | reflexivity]. Qed.

Lemma required_nonblank s : required s = true <-> s <> "".
Proof using. unfold required. now rewrite negb_true_iff, eqb_neq. Qed.

Lemma reTenDigits_length s : reTenDigits s = true -> JS.length s = 10%nat.
Proof using.
  unfold reTenDigits. intros H. apply andb_true_iff in H as [H _].
  now apply Nat.eqb_eq in H.
Qed.

(** A name of letters and white space has as many characters for
    validator.js as it has code units. *)
Lemma reLettersAndSpaces_length s :
  reLettersAndSpaces s = true -> validatorLength s = JS.length s.
Proof using.
  unfold reLettersAndSpaces. intros [_ H]%andb_true_iff.
  apply (validatorLength_plain _ _ letterOrSpace_plain H).
Qed.

(** What the chains have checked of a body without errors. *)
Lemma validated_rules raw :
  snd (validateContactForm raw) = [] ->
  let b := fst (validateContactForm raw) in
  isLength 3 100 (body_name b) = true
  /\ reLettersAndSpaces (body_name b) = true
  /\ reTenDigits (body_phone b) = true
  /\ isLength 10 1000 (body_message b) = true
  /\ isIn formTypes (body_formType b) = true
  /\ JS.trim (body_name b) = body_name b
  /\ JS.trim (body_phone b) = body_phone b
  /\ JS.trim (body_message b) = body_message b.
Proof.
  intros Hvalid. rewrite validateContactForm_errors in Hvalid.
  pose proof (violations_nil _ Hvalid) as Hrules.
  rewrite validateContactForm_body. unfold fieldRules in Hrules.
  cbn [body_name body_phone body_message body_formType].
  rewrite !trim_idem.
  repeat split; try reflexivity; eapply Hrules; simpl; eauto 10.
Qed.

(** A body that passed the chains makes a document the schema accepts
    exactly when the message has at most 1000 code units and the email, as
    the setters leave it, is not blank and has at most 255 code units. *)
Lemma validated_schemaValid raw id w :
  snd (validateContactForm raw) = [] ->
  let b := fst (validateContactForm raw) in
  schemaValid (contactOf id w b) = true
  <-> (JS.length (body_message b) <= 1000)%nat
      /\ castEmail (body_email b) <> ""
      /\ (JS.length (castEmail (body_email b)) <= 255)%nat.
Proof.
  intros Hvalid b.
  destruct (validated_rules raw Hvalid) as (Hn & Hre & Hp & Hm & Hf & Tn & Tp & Tm).
  fold b in Hn, Hre, Hp, Hm, Hf, Tn, Tp, Tm.
  apply isLength_bounds in Hn, Hm.
  rewrite (reLettersAndSpaces_length _ Hre) in Hn.
  pose proof (validatorLength_le (body_message b)) as Hle.
  unfold schemaValid, contactOf;
    cbn [name email phone message formType status].
  unfold castName, castPhone, castMessage. rewrite Tn, Tp, Tm.
  assert (Hform : required (body_formType b) = true).
  { unfold isIn, formTypes, JS.includes in Hf.
    destruct (body_formType b); [vm_compute in Hf; discriminate | reflexivity]. }
  rewrite (required_of_length (body_name b)) by lia.
  rewrite (required_of_length (body_phone b))
    by (rewrite (reTenDigits_length _ Hp); lia).
  rewrite (required_of_length (body_message b)) by lia.
  rewrite Hp, Hform.
  unfold isIn in Hf. rewrite Hf.
  replace (maxlength 100 (body_name b)) with true
    by (symmetry; apply Nat.leb_le; lia).
  cbn [andb]. rewrite !andb_true_r, !andb_true_iff.
  unfold maxlength. rewrite !Nat.leb_le, required_nonblank. tauto.
Qed.

(** The handler on an accepted submission: the document is inserted under
    a fresh id, the notifications are dispatched, and the answer is 201. *)
Lemma postContact_accepts env w raw s s1 :
  idsFresh s -> Accepted env w raw s s1 ->
  let c := contactOf (nextId s) w (fst (validateContactForm raw)) in
  let d := contactDataOf c (fst (validateContactForm raw)) in
  contacts s !! nextId s = None
  /\ fst (dispatch env w d (withContact s1 c)) = Return tt
  /\ postContact env w raw s
     = (Return (created c), snd (dispatch env w d (withContact s1 c))).
Proof.
  intros Hfresh [Hvalid Hgate Hread Hdup Hschema Hwrite] c d.
  assert (Hnone : contacts s !! nextId s = None).
  { destruct (contacts s !! nextId s) as [c'|] eqn:E; [|reflexivity].
    apply Hfresh in E. lia. }
  pose proof (verifyRecaptcha_frame env w
                (body_recaptchaToken (fst (validateContactForm raw))) s) as Hframe.
  rewrite Hgate in Hframe. cbn [snd] in Hframe. destruct Hframe as (Hc1 & Hn1 & Ht1).
  destruct (dispatch_returns env w d (withContact s1 c)) as [s2 Hdisp].
  split; [exact Hnone|]. split; [now rewrite Hdisp|].
  rewrite Hdisp. cbn [snd].
  unfold postContact.
  subst c d. revert Hvalid Hgate Hdup Hschema Hdisp.
  destruct (validateContactForm raw) as [body errors]. cbn [fst snd].
  intros -> Hgate Hdup Hschema Hdisp.
  apply tryCatch_Return.
  rewrite bool_decide_eq_true_2 by reflexivity. cbn [negb].
  rewrite (bind_Return _ _ _ _ _ Hgate). cbn [negb].
  rewrite (bind_Return _ _ _ _ _ (findOne_run w _ s1 Hread)).
  assert (Hfind : find (recentByContact (body_email body) (body_phone body)
                          (clockQuery w - oneHour)) (documents s1) = None).
  { apply find_none_documents. intros id c0. rewrite Hc1. apply Hdup. }
  rewrite Hfind.
  rewrite (bind_Return _ _ _ _ _ (newContact_run w body s1)).
  rewrite Hn1.
  erewrite bind_Return; cycle 1.
  { apply save_run; [exact Hschema | exact Hwrite |].
    cbn [contacts]. rewrite Hc1. exact Hnone. }
  cbn [contacts nextId transporter effects].
  unfold withContact in Hdisp. cbn [_id contactOf] in Hdisp.
  rewrite Hn1 in Hdisp.
  erewrite bind_Return; [reflexivity|].
  exact Hdisp.
Qed.

(** ** The notifications *)

Lemma state_eta s :
  {| contacts := contacts s; nextId := nextId s; transporter := transporter s;
     effects := effects s |} = s.
Proof. now destruct s. Qed.

Lemma withEffects_nil s : withEffects s [] = s.
Proof. unfold withEffects. rewrite app_nil_r. apply state_eta. Qed.

Lemma withEffects_app s l1 l2 :
  withEffects (withEffects s l1) l2 = withEffects s (l1 ++ l2).
Proof. unfold withEffects. cbn. now rewrite app_assoc. Qed.

(** [ensureTransporter] in the three situations it can meet. *)
Lemma ensureTransporter_some env w s :
  is_Some (transporter s) -> ensureTransporter env w s = (Return true, s).
Proof.
  intros [t Ht]. unfold ensureTransporter, mbind, Async_bind, gets, ret, mret, Async_ret.
  rewrite Ht. cbn. now rewrite Ht.
Qed.

Lemma ensureTransporter_unconfigured env w s :
  transporter s = None -> smtpConfigured env = false ->
  ensureTransporter env w s = (Return false, s).
Proof.
  intros Hs Hc. unfold ensureTransporter, mbind, Async_bind, gets, ret, mret, Async_ret.
  rewrite Hs, Hc. cbn. now rewrite Hs.
Qed.

Lemma ensureTransporter_built env w s :
  transporter s = None -> smtpConfigured env = true -> createTransport w = None ->
  ensureTransporter env w s
  = (Return true, withTransporter s (Some (transportOf env))).
Proof.
  intros Hs Hc Hb.
  unfold ensureTransporter, initializeTransporter, mbind, Async_bind, gets, ret,
    mret, Async_ret, setTransporter, modify.
  rewrite Hs, Hc, Hb. reflexivity || (cbn; now rewrite ?Hs).
Qed.

Lemma ensureTransporter_failed env w s error :
  transporter s = None -> smtpConfigured env = true ->
  createTransport w = Some error ->
  ensureTransporter env w s
  = (Return false,
     withEffects s [ConsoleError " Error initializing email service:" (errMessage error)]).
Proof.
  intros Hs Hc Hb.
  unfold ensureTransporter, initializeTransporter, mbind, Async_bind, gets, ret,
    mret, Async_ret, setTransporter, consoleError, emit, modify.
  rewrite Hs, Hc, Hb. cbn. unfold withEffects. now rewrite Hs.
Qed.

(** One detached notification on a transport that is there. *)
Lemma notification_sent env w d s :
  is_Some (transporter s) ->
  detached (sendContactNotification env w d) "Failed to send admin notification:" s
  = (Return tt,
     withEffects s (attempt w (notificationMail env d)
                      " Error sending contact notification email:"
                      "Failed to send admin notification:")).
Proof.
  intros Hs. unfold detached, sendContactNotification.
  unfold tryCatch at 1. rewrite (bind_Return _ _ _ _ _ (ensureTransporter_some env w s Hs)).
  cbn [negb]. unfold tryCatch, transporterSendMail, attempt.
  destruct (sendMail w (notificationMail env d));
    unfold consoleError, emit, modify, throw, mbind, Async_bind, withEffects;
    cbn; rewrite <- ?app_assoc; reflexivity.
Qed.

Lemma autoReply_sent env w d s :
  is_Some (transporter s) ->
  detached (sendAutoReply env w d) "Failed to send auto-reply:" s
  = (Return tt,
     withEffects s (attempt w (autoReplyMail env d)
                      " Error sending auto-reply email:"
                      "Failed to send auto-reply:")).
Proof.
  intros Hs. unfold detached, sendAutoReply.
  unfold tryCatch at 1. rewrite (bind_Return _ _ _ _ _ (ensureTransporter_some env w s Hs)).
  cbn [negb]. unfold tryCatch, transporterSendMail, attempt.
  destruct (sendMail w (autoReplyMail env d));
    unfold consoleError, emit, modify, throw, mbind, Async_bind, withEffects;
    cbn; rewrite <- ?app_assoc; reflexivity.
Qed.

Lemma notification_built env w d s :
  transporter s = None -> smtpConfigured env = true -> createTransport w = None ->
  detached (sendContactNotification env w d) "Failed to send admin notification:" s
  = (Return tt,
     withEffects (withTransporter s (Some (transportOf env)))
       (attempt w (notificationMail env d)
          " Error sending contact notification email:"
          "Failed to send admin notification:")).
Proof.
  intros Ht Hc Hb. unfold detached, sendContactNotification.
  unfold tryCatch at 1.
  rewrite (bind_Return _ _ _ _ _ (ensureTransporter_built env w s Ht Hc Hb)).
  cbn [negb]. unfold tryCatch, transporterSendMail, attempt.
  destruct (sendMail w (notificationMail env d));
    unfold consoleError, emit, modify, throw, mbind, Async_bind, withEffects;
    cbn; rewrite <- ?app_assoc; reflexivity.
Qed.

Lemma notification_failed env w d s error :
  transporter s = None -> smtpConfigured env = true ->
  createTransport w = Some error ->
  detached (sendContactNotification env w d) "Failed to send admin notification:" s
  = (Return tt,
     withEffects s [ConsoleError " Error initializing email service:" (errMessage error)]).
Proof.
  intros Ht Hc Hb. unfold detached, sendContactNotification.
  apply tryCatch_Return.
  now rewrite (bind_Return _ _ _ _ _ (ensureTransporter_failed env w s error Ht Hc Hb)).
Qed.

Lemma autoReply_failed env w d s error :
  transporter s = None -> smtpConfigured env = true ->
  createTransport w = Some error ->
  detached (sendAutoReply env w d) "Failed to send auto-reply:" s
  = (Return tt,
     withEffects s [ConsoleError " Error initializing email service:" (errMessage error)]).
Proof.
  intros Ht Hc Hb. unfold detached, sendAutoReply.
  apply tryCatch_Return.
  now rewrite (bind_Return _ _ _ _ _ (ensureTransporter_failed env w s error Ht Hc Hb)).
Qed.

Lemma dispatch_run env w d s :
  exists t,
    dispatch env w d s = (Return tt, withEffects (withTransporter s t) (dispatched env w d s))
    /\ (is_Some t -> is_Some (transporter s) \/ smtpConfigured env = true).
Proof.
  unfold dispatch, dispatched.
  destruct (smtpConfigured env) eqn:Hc.
  - destruct (transporter s) as [t|] eqn:Ht.
    + exists (Some t). split; [|eauto].
      assert (Hs : is_Some (transporter s)) by (rewrite Ht; eauto).
      rewrite (bind_Return _ _ _ _ _ (notification_sent env w d s Hs)).
      rewrite autoReply_sent by (cbn; exact Hs).
      rewrite withEffects_app. f_equal. f_equal.
      destruct s; cbn in *; now subst.
    + destruct (createTransport w) as [error|] eqn:Hb.
      * exists None. split; [|intros []; discriminate].
        rewrite (bind_Return _ _ _ _ _ (notification_failed env w d s error Ht Hc Hb)).
        rewrite (autoReply_failed env w d _ error) by (cbn; assumption).
        rewrite withEffects_app. f_equal. f_equal.
        destruct s; cbn in *; now subst.
      * exists (Some (transportOf env)). split; [|eauto].
        rewrite (bind_Return _ _ _ _ _ (notification_built env w d s Ht Hc Hb)).
        rewrite autoReply_sent by (cbn; eauto).
        now rewrite withEffects_app.
  - exists (transporter s). split; [|eauto].
    unfold ret, mret, Async_ret. f_equal.
    unfold withEffects, withTransporter. cbn. rewrite app_nil_r. now destruct s.
Qed.

Lemma dispatch_frame env w d s :
  contacts (snd (dispatch env w d s)) = contacts s
  /\ nextId (snd (dispatch env w d s)) = nextId s
  /\ effects (snd (dispatch env w d s)) = (effects s ++ dispatched env w d s)%list.
Proof.
  destruct (dispatch_run env w d s) as (t & -> & _). cbn. auto.
Qed.

(** ** The intake pipeline *)




(** C4. A request that passed validation, the spam gate and the duplicate
    check, whose document the schema accepts when it is saved, on a
    database that accepts the write, is stored as a document with status
    "new", [submittedAt] equal to the clock reading taken when the document
    is built, and the email put in lower case by the engine (a fixed point
    of [toLowerCase] when the engine's [toLowerCase] is stable); the id is
    the fresh one the store hands out. The answer is 201 and its data is
    that id, that [submittedAt] and the form type. The schema accepts the
    document exactly when the message has at most 1000 code units and the
    email, trimmed and in lower case, is not blank and has at most 255 code
    units. The state is one whose ids are below the next fresh one, as they
    are in every reachable state. *)
Theorem submission_persisted env w raw s s1 :
  idsFresh s -> Accepted env w raw s s1 ->
  let body := fst (validateContactForm raw) in
  (exists c,
     contacts s !! _id c = None
     /\ contacts (snd (postContact env w raw s)) = <[_id c := c]> (contacts s)
     /\ _id c = nextId s
     /\ status c = "new"
     /\ submittedAt c = clockCreate w
     /\ email c = toLowerCase (JS.trim (body_email body))
     /\ (caseStable -> toLowerCase (email c) = email c)
     /\ formType c = body_formType body
     /\ fst (postContact env w raw s)
        = Return {| statusCode := 201;
                    json := JCreated "Thank you for your inquiry! We will contact you within 24 hours."
                              (_id c) (submittedAt c) (formType c) |})
  /\ (JS.length (body_message body) <= 1000)%nat
  /\ toLowerCase (JS.trim (body_email body)) <> ""
  /\ (JS.length (toLowerCase (JS.trim (body_email body))) <= 255)%nat.
Proof.
  intros Hfresh Hacc body.
  pose proof (verifyRecaptcha_frame env w (body_recaptchaToken body) s) as Hframe.
  unfold body in Hframe. rewrite (acc_gate _ _ _ _ _ Hacc) in Hframe.
  cbn [snd] in Hframe. destruct Hframe as (Hc1 & _).
  destruct (postContact_accepts env w raw s s1 Hfresh Hacc) as (Hnew & _ & Hpost).
  fold body in Hpost.
  split.
  - exists (contactOf (nextId s) w body). rewrite Hpost. cbn [fst snd].
    split; [exact Hnew|]. split.
    { destruct (dispatch_frame env w
                  (contactDataOf (contactOf (nextId s) w body) body)
                  (withContact s1 (contactOf (nextId s) w body))) as (-> & _).
      cbn [withContact contacts contactOf _id]. now rewrite Hc1. }
    cbn [contactOf _id status submittedAt email formType]. unfold castEmail.
    repeat split. intros [Hidem _]. apply Hidem.
  - apply (validated_schemaValid raw (nextId s) w (acc_valid _ _ _ _ _ Hacc)).
    exact (acc_schema _ _ _ _ _ Hacc).
Qed.

Lemma accepted_withMail env w raw s s1 ct sm :
  Accepted env w raw s s1 -> Accepted env (withMail w ct sm) raw s s1.
Proof. intros [H1 H2 H3 H4 H5 H6]. split; assumption. Qed.

Lemma mails_differ env d d' : notificationMail env d <> autoReplyMail env d'.
Proof. intros H. apply (f_equal html) in H. discriminate. Qed.

Lemma attempt_sent w m service handler x :
  In (MailSent x) (attempt w m service handler) <-> x = m /\ sendMail w m = None.
Proof.
  unfold attempt. destruct (sendMail w m); cbn.
  - split; [intros [H|[H|[]]]; discriminate | intros [_ H]; discriminate].
  - split; [intros [H|[]]; inversion H; auto | intros [-> _]; auto].
Qed.

Lemma attempt_error w m service handler error :
  sendMail w m = Some error ->
  In (ConsoleError handler (errMessage error)) (attempt w m service handler).
Proof. unfold attempt. intros ->. cbn. auto. Qed.

Lemma unconfigured_noop env w d s :
  mailerSound env s -> smtpConfigured env = false ->
  sendContactNotification env w d s = (Return tt, s)
  /\ sendAutoReply env w d s = (Return tt, s).
Proof.
  intros Hsound Hc.
  assert (Ht : transporter s = None).
  { destruct (transporter s) eqn:E; [|reflexivity].
    rewrite Hsound in Hc; [discriminate | eauto]. }
  unfold sendContactNotification, sendAutoReply.
  now rewrite !(bind_Return _ _ _ _ _ (ensureTransporter_unconfigured env w s Ht Hc)).
Qed.

(** C7. Once a submission is stored (it passed validation, the spam gate
    and the duplicate check, the schema accepted the document and the
    database the write), the answer is the 201 response
    whatever the mail transport does: with any other transport in place of
    the actual one the answer and the stored document are the same. Of the
    two notifications, each is delivered exactly when the SMTP account is
    configured, a transport is there or can be built, and its own message is
    accepted by the transport, whatever happens to the other one; a refused
    message is reported on the error console and nothing more. Without an
    SMTP account nothing is attempted, and the two calls of the email
    service return at once, leaving the state as it was. *)
Theorem notifications_best_effort env w raw s s1 :
  idsFresh s -> Accepted env w raw s s1 ->
  let body := fst (validateContactForm raw) in
  let c := contactOf (nextId s) w body in
  let admin := notificationMail env (contactDataOf c body) in
  let reply := autoReplyMail env (contactDataOf c body) in
  (forall ct sm,
     fst (postContact env (withMail w ct sm) raw s) = Return (created c)
     /\ statusCode (created c) = 201
     /\ contacts (snd (postContact env (withMail w ct sm) raw s))
        = <[_id c := c]> (contacts s))
  /\ (exists new,
        effects (snd (postContact env w raw s)) = (effects s1 ++ new)%list
        /\ (In (MailSent admin) new
            <-> smtpConfigured env = true /\ ready env w s /\ sendMail w admin = None)
        /\ (In (MailSent reply) new
            <-> smtpConfigured env = true /\ ready env w s /\ sendMail w reply = None)
        /\ (forall error, smtpConfigured env = true -> ready env w s ->
              sendMail w admin = Some error ->
              In (ConsoleError "Failed to send admin notification:" (errMessage error)) new)
        /\ (forall error, smtpConfigured env = true -> ready env w s ->
              sendMail w reply = Some error ->
              In (ConsoleError "Failed to send auto-reply:" (errMessage error)) new)
        /\ (smtpConfigured env = false -> new = []))
  /\ (forall st d, mailerSound env st -> smtpConfigured env = false ->
        sendContactNotification env w d st = (Return tt, st)
        /\ sendAutoReply env w d st = (Return tt, st)).
Proof.
  intros Hfresh Hacc body c admin reply.
  pose proof (verifyRecaptcha_frame env w (body_recaptchaToken body) s) as Hframe.
  unfold body in Hframe. rewrite (acc_gate _ _ _ _ _ Hacc) in Hframe.
  cbn [snd] in Hframe. destruct Hframe as (Hc1 & _ & Ht1).
  split; [|split].
  - intros ct sm.
    destruct (postContact_accepts env (withMail w ct sm) raw s s1 Hfresh
                (accepted_withMail env w raw s s1 ct sm Hacc)) as (_ & _ & Hpost).
    rewrite Hpost. cbn [fst snd]. split; [reflexivity|]. split; [reflexivity|].
    match goal with
    | |- contacts (snd (dispatch ?e ?w' ?d' ?s')) = _ =>
        destruct (dispatch_frame e w' d' s') as (-> & _)
    end.
    cbn [withContact contacts contactOf _id]. now rewrite Hc1.
  - destruct (postContact_accepts env w raw s s1 Hfresh Hacc) as (_ & _ & Hpost).
    fold body in Hpost. fold c in Hpost.
    exists (dispatched env w (contactDataOf c body) (withContact s1 c)).
    rewrite Hpost. cbn [snd].
    destruct (dispatch_frame env w (contactDataOf c body) (withContact s1 c))
      as (_ & _ & ->).
    split; [reflexivity|].
    unfold dispatched, ready. cbn [withContact transporter]. rewrite Ht1.
    fold admin. fold reply.
    pose proof (mails_differ env (contactDataOf c body) (contactDataOf c body)) as Hne.
    fold admin in Hne. fold reply in Hne.
    destruct (smtpConfigured env) eqn:Hc.
    2: { repeat split; intros; try discriminate;
         match goal with
         | H : In _ [] |- _ => destruct H
         | H : false = true /\ _ |- _ => destruct H; discriminate
         end. }
    assert (Hquiet :
      forall error x,
        ~ In (MailSent x)
            [ConsoleError " Error initializing email service:" (errMessage error);
             ConsoleError " Error initializing email service:" (errMessage error)]).
    { intros error x [H|[H|[]]]; discriminate. }
    destruct (transporter s) as [t|] eqn:Ht;
      [|destruct (createTransport w) as [ce|] eqn:Hb].
    2: { (* no transport and none can be built *)
      assert (Hnot : ~ (is_Some (@None Transporter) \/ true = true /\ Some ce = None)).
      { intros [[x Hx]|[_ Hx]]; discriminate. }
      repeat split; intros; try discriminate; try tauto;
        try (exfalso; eapply Hquiet; eassumption). }
    all: assert (Hready : is_Some (transporter s) \/ true = true /\ createTransport w = None)
           by (rewrite ?Ht, ?Hb; eauto).
    all: rewrite ?Ht, ?Hb in Hready.
    all: rewrite !in_app_iff, !attempt_sent.
    all: repeat split; intros; try discriminate; try tauto.
    all: try (match goal with
              | H : _ \/ _ |- _ => destruct H as [[H1 H2]|[H1 H2]]
              end; first [assumption | congruence]).
    all: apply in_app_iff;
      first [left; apply attempt_error; assumption
            | right; apply attempt_error; assumption].
  - intros st d. apply unconfigured_noop.
Qed.

(** ** The admin surface: status updates *)

Lemma consoleError_run text detail s :
  consoleError text detail s = (Return tt, withEffects s [ConsoleError text detail]).
Proof. reflexivity. Qed.

Lemma patchStatus_invalid w id st s :
  enumerated st = false -> patchStatus w id st s = (Return invalidStatus, s).
Proof.
  intros H. unfold patchStatus, enumerated in *. apply tryCatch_Return.
  now rewrite H.
Qed.

Lemma patchStatus_malformed w id st s :
  enumerated st = true -> castObjectId id = None ->
  patchStatus w id st s
  = (Return updateError,
     withEffects s [ConsoleError "Error updating contact status:"
                      (errMessage (castError id))]).
Proof.
  intros H Hid. unfold patchStatus, enumerated in *. rewrite H. cbn [negb].
  erewrite tryCatch_Throw; cycle 1.
  { apply bind_Throw. unfold findByIdAndUpdate. rewrite Hid. reflexivity. }
  now rewrite (bind_Return _ _ _ _ _ (consoleError_run _ _ s)).
Qed.

Lemma patchStatus_unavailable w id st s oid error :
  enumerated st = true -> castObjectId id = Some oid -> mongoWrite w = Some error ->
  patchStatus w id st s
  = (Return updateError,
     withEffects s [ConsoleError "Error updating contact status:" (errMessage error)]).
Proof.
  intros H Hid Hw. unfold patchStatus, enumerated in *. rewrite H. cbn [negb].
  erewrite tryCatch_Throw; cycle 1.
  { apply bind_Throw. unfold findByIdAndUpdate. rewrite Hid, Hw. reflexivity. }
  now rewrite (bind_Return _ _ _ _ _ (consoleError_run _ _ s)).
Qed.

Lemma patchStatus_missing w id st s oid :
  enumerated st = true -> castObjectId id = Some oid -> mongoWrite w = None ->
  contacts s !! oid = None ->
  patchStatus w id st s = (Return contactNotFound, s).
Proof.
  intros H Hid Hw Hc. unfold patchStatus, enumerated in *. rewrite H. cbn [negb].
  apply tryCatch_Return. erewrite bind_Return; cycle 1.
  { unfold findByIdAndUpdate. rewrite Hid, Hw.
    unfold mbind, Async_bind, gets. rewrite Hc. reflexivity. }
  reflexivity.
Qed.

Lemma patchStatus_found w id st s oid c :
  enumerated st = true -> castObjectId id = Some oid -> mongoWrite w = None ->
  contacts s !! oid = Some c ->
  patchStatus w id st s
  = (Return (updated (withStatus c (toString st))),
     withContacts s (<[oid := withStatus c (toString st)]> (contacts s))).
Proof.
  intros H Hid Hw Hc. unfold patchStatus, enumerated in *. rewrite H. cbn [negb].
  apply tryCatch_Return. erewrite bind_Return; cycle 1.
  { unfold findByIdAndUpdate. rewrite Hid, Hw.
    unfold mbind, Async_bind, gets. rewrite Hc. reflexivity. }
  reflexivity.
Qed.

Lemma enumerated_Some st : enumerated (Some st) = true <-> In st statuses.
Proof using.
  unfold enumerated, statuses, JS.includes. cbn.
  rewrite !orb_true_iff, !eqb_eq. split.
  - intros [H|[H|[H|H]]]; [left | right; left | right; right; left | discriminate];
      now symmetry.
  - intros [H|[H|[H|[]]]]; [left | right; left | right; right; left]; now symmetry.
Qed.

(** C5, as the code has it. A status outside the enumeration is refused
    with 400 "Invalid status value" and the state is untouched. With an
    enumerated status and an id that is a well-formed ObjectId, on a
    database that answers: when no document has the id the answer is 404
    and the state is untouched; when a document has it, the answer is 200
    with that document, its status now the new one. *)
Theorem update_status_outcomes w id st s :
  (enumerated st = false ->
     patchStatus w id st s
     = (Return {| statusCode := 400; json := JFailure "Invalid status value" |}, s))
  /\ (forall oid, enumerated st = true -> castObjectId id = Some oid ->
        mongoWrite w = None -> contacts s !! oid = None ->
        patchStatus w id st s
        = (Return {| statusCode := 404; json := JFailure "Contact not found" |}, s))
  /\ (forall oid c, enumerated st = true -> castObjectId id = Some oid ->
        mongoWrite w = None -> contacts s !! oid = Some c ->
        exists c',
          fst (patchStatus w id st s) = Return {| statusCode := 200; json := JContact c' |}
          /\ Some (status c') = st
          /\ contacts (snd (patchStatus w id st s)) !! oid = Some c').
Proof.
  split; [|split].
  - apply patchStatus_invalid.
  - intros oid. apply patchStatus_missing.
  - intros oid c Hst Hid Hw Hc.
    rewrite (patchStatus_found w id st s oid c Hst Hid Hw Hc). cbn [fst snd].
    exists (withStatus c (toString st)). split; [reflexivity|]. split.
    + destruct st; [reflexivity | discriminate].
    + cbn. apply lookup_insert_eq.
Qed.

(** C9. An update of the status of an existing document, with an
    enumerated status, on a database that answers: the document keeps its
    id, name, email, phone, message, form type and submission time and takes
    the new status; every other document is as before; nothing else of the
    state changes. *)
Theorem update_status_frame w id oid st s c :
  castObjectId id = Some oid -> contacts s !! oid = Some c ->
  In st statuses -> mongoWrite w = None ->
  let s' := snd (patchStatus w id (Some st) s) in
  (exists c', contacts s' !! oid = Some c'
              /\ _id c' = _id c /\ name c' = name c /\ email c' = email c
              /\ phone c' = phone c /\ message c' = message c
              /\ formType c' = formType c /\ submittedAt c' = submittedAt c
              /\ status c' = st)
  /\ (forall other, other <> oid -> contacts s' !! other = contacts s !! other)
  /\ nextId s' = nextId s /\ transporter s' = transporter s
  /\ effects s' = effects s.
Proof.
  intros Hid Hc Hst Hw. cbv zeta.
  apply enumerated_Some in Hst.
  rewrite (patchStatus_found w id (Some st) s oid c Hst Hid Hw Hc). cbn [snd].
  split; [|split].
  - exists (withStatus c st). cbn. rewrite lookup_insert_eq. repeat split.
  - intros other Hne. cbn. now apply lookup_insert_ne.
  - repeat split.
Qed.

(** C10. With an enumerated status, an id that is not a well-formed
    ObjectId gets 500 "Error updating contact status", not 404: the cast of
    the id throws and the handler's catch answers. The collection is
    untouched and the error is reported on the console. *)
Theorem malformed_id_server_error w id st s :
  castObjectId id = None -> enumerated st = true ->
  fst (patchStatus w id st s)
  = Return {| statusCode := 500; json := JFailure "Error updating contact status" |}
  /\ fst (patchStatus w id st s) <> Return contactNotFound
  /\ contacts (snd (patchStatus w id st s)) = contacts s
  /\ effects (snd (patchStatus w id st s))
     = (effects s ++ [ConsoleError "Error updating contact status:"
                        (errMessage (castError id))])%list.
Proof.
  intros Hid Hst. rewrite (patchStatus_malformed w id st s Hst Hid). cbn.
  repeat split. discriminate.
Qed.

(** ** The admin surface: listing *)

#[global] Instance newerFirst_total : Total newerFirst.
Proof. intros a b. unfold newerFirst. lia. Qed.

#[global] Instance newerFirst_trans : Transitive newerFirst.
Proof. intros a b c. unfold newerFirst. lia. Qed.

Lemma StronglySorted_take {A} (R : relation A) n l :
  StronglySorted R l -> StronglySorted R (take n l).
Proof.
  intros H. rewrite <- (take_drop n l) in H.
  now apply StronglySorted_app_1_l in H.
Qed.

Lemma StronglySorted_drop {A} (R : relation A) n l :
  StronglySorted R l -> StronglySorted R (drop n l).
Proof.
  intros H. rewrite <- (take_drop n l) in H.
  now apply StronglySorted_app_1_r in H.
Qed.

Lemma documents_length s : length (documents s) = size (contacts s).
Proof. unfold documents. now rewrite length_fmap, length_map_to_list. Qed.

Lemma ceilDiv_bounds a b :
  0 < b -> b * (JS.ceilDiv a b - 1) < a <= b * JS.ceilDiv a b.
Proof.
  intros Hb. unfold JS.ceilDiv.
  pose proof (Z.div_mod (- a) b ltac:(lia)).
  pose proof (Z.mod_pos_bound (- a) b Hb). nia.
Qed.

Lemma swapAt_Permutation {A} i (l : list A) : swapAt i l ≡ₚ l.
Proof using.
  revert l. induction i as [|i IH]; intros l.
  - destruct l as [|a [|b l]]; cbn; try reflexivity. apply Permutation_swap.
  - destruct l as [|a l]; cbn; [reflexivity|]. apply Permutation_skip, IH.
Qed.

Lemma shuffle_Permutation {A} swaps (l : list A) : shuffle swaps l ≡ₚ l.
Proof using.
  unfold shuffle. revert l. induction swaps as [|i swaps IH]; intros l; cbn.
  - reflexivity.
  - rewrite IH. apply swapAt_Permutation.
Qed.

(** A safe integer is a double. *)
Lemma toDouble_safe z : - JS.maxSafe <= z <= JS.maxSafe -> JS.toDouble z = JS.Finite z.
Proof using.
  intros Hz. unfold JS.toDouble.
  destruct (Z.leb_spec (Z.abs z) JS.maxSafe) as [_|H]; [reflexivity | lia].
Qed.

Lemma maxSafe_pos : 0 < JS.maxSafe.
Proof using. reflexivity. Qed.

Lemma window_safe w skip limit :
  0 <= skip <= JS.maxSafe -> 1 <= limit <= JS.maxSafe ->
  window w (JS.Finite skip) (JS.Finite limit) = inr (Z.to_nat skip, Z.to_nat limit).
Proof using.
  intros Hs Hl. unfold window, isSafe. pose proof maxSafe_pos.
  repeat match goal with
         | |- context [?a <=? ?b] => destruct (Z.leb_spec a b); try lia
         | |- context [?a <? ?b] => destruct (Z.ltb_spec a b); try lia
         end.
  reflexivity.
Qed.

(** The documents as a query in [w] sorts them. *)
Lemma getContacts_run w s page limit :
  1 <= page -> 1 <= limit -> page * limit <= JS.maxSafe -> mongoRead w = None ->
  getContacts w (Some page) (Some limit) s
  = (Return (contactsPage
               (take (Z.to_nat limit)
                  (drop (Z.to_nat ((page - 1) * limit))
                     (merge_sort newerFirst (shuffle (scanOrder w) (documents s)))))
               (JS.Finite page) (JS.Finite limit)
               (Z.of_nat (length (documents s)))), s).
Proof.
  intros Hpage Hlimit Hsafe Hread. unfold getContacts. apply tryCatch_Return.
  assert (Hp : JS.orDefault (JS.parseInt (Some page)) 1 = JS.Finite page).
  { cbn [JS.parseInt]. rewrite toDouble_safe by nia. unfold JS.orDefault.
    destruct (Z.eqb_spec page 0); [lia | reflexivity]. }
  assert (Hl : JS.orDefault (JS.parseInt (Some limit)) 20 = JS.Finite limit).
  { cbn [JS.parseInt]. rewrite toDouble_safe by nia. unfold JS.orDefault.
    destruct (Z.eqb_spec limit 0); [lia | reflexivity]. }
  rewrite Hp, Hl. cbn [JS.minus].
  rewrite (toDouble_safe (page - 1)) by nia. cbn [JS.times].
  rewrite (toDouble_safe ((page - 1) * limit)) by nia.
  erewrite bind_Return; cycle 1.
  { unfold findSorted. rewrite Hread, window_safe by nia. reflexivity. }
  erewrite bind_Return; cycle 1.
  { unfold countDocuments. rewrite Hread. reflexivity. }
  reflexivity.
Qed.

(** A missing or unparsable parameter, and zero, fall back to page 1 and
    to twenty documents a page. *)
Lemma getContacts_defaults w s :
  getContacts w None None s = getContacts w (Some 1) (Some 20) s
  /\ getContacts w (Some 0) (Some 0) s = getContacts w (Some 1) (Some 20) s.
Proof. split; reflexivity. Qed.

(** C6. For every state of the collection, every page from 1 on and
    every page size from 1 on whose product is a safe integer, on a
    database that answers, the listing is the slice
    [(page - 1) * limit, page * limit) of the documents sorted by
    [submittedAt], newest first: page 1 starts at the newest document. The
    total is the number of stored documents whatever the page and the page
    size, the number of pages is the least [n] with [total <= limit * n],
    that is the ceiling of [total / limit], and a page past the last one is
    an empty list with status 200. The state is not changed. *)
Theorem list_contacts w s page limit :
  1 <= page -> 1 <= limit -> page * limit <= JS.maxSafe -> mongoRead w = None ->
  exists sorted items pages,
    getContacts w (Some page) (Some limit) s
    = (Return {| statusCode := 200;
                 json := JContacts items (JS.Finite page) (JS.Finite limit)
                           (Z.of_nat (size (contacts s))) (JS.Finite pages) |}, s)
    /\ sorted ≡ₚ documents s
    /\ StronglySorted newerFirst sorted
    /\ items = take (Z.to_nat limit) (drop (Z.to_nat ((page - 1) * limit)) sorted)
    /\ StronglySorted newerFirst items
    /\ limit * (pages - 1) < Z.of_nat (size (contacts s)) <= limit * pages
    /\ pages = JS.ceilDiv (Z.of_nat (size (contacts s))) limit
    /\ (Z.of_nat (size (contacts s)) <= (page - 1) * limit -> items = []).
Proof.
  intros Hpage Hlimit Hsafe Hread.
  set (sorted := merge_sort newerFirst (shuffle (scanOrder w) (documents s))).
  assert (Hperm : sorted ≡ₚ documents s).
  { unfold sorted. rewrite merge_sort_Permutation. apply shuffle_Permutation. }
  pose proof (StronglySorted_merge_sort newerFirst
                (shuffle (scanOrder w) (documents s))) as Hsorted.
  fold sorted in Hsorted.
  exists sorted.
  exists (take (Z.to_nat limit) (drop (Z.to_nat ((page - 1) * limit)) sorted)).
  exists (JS.ceilDiv (Z.of_nat (size (contacts s))) limit).
  split; [|split; [exact Hperm | split; [exact Hsorted | split; [reflexivity|]]]].
  - rewrite getContacts_run by assumption.
    rewrite documents_length. unfold contactsPage, JS.ceilOfQuotient.
    destruct (Z.eqb_spec limit 0); [lia | reflexivity].
  - split; [|split; [|split]].
    + now apply StronglySorted_take, StronglySorted_drop.
    + apply ceilDiv_bounds. lia.
    + reflexivity.
    + intros Hout. rewrite drop_ge; [apply take_nil|].
      rewrite (Permutation_length Hperm), documents_length. lia.
Qed.

(** ** The invariant of the server *)

Lemma triple_ret {A} (P : State -> Prop) (a : A) (Q : A -> State -> Prop) E :
  (forall s, P s -> Q a s) -> triple P (ret a) Q E.
Proof. intros H s Hs. now apply H. Qed.

Lemma triple_throw {A} (P E : State -> Prop) e (Q : A -> State -> Prop) :
  (forall s, P s -> E s) -> triple P (throw e) Q E.
Proof. intros H s Hs. now apply H. Qed.

Lemma triple_bind {A B} P (m : Async A) (k : A -> Async B) R Q E :
  triple P m R E -> (forall a, triple (R a) (k a) Q E) -> triple P (m ≫= k) Q E.
Proof.
  intros Hm Hk s Hs. specialize (Hm s Hs).
  unfold mbind, Async_bind. destruct (m s) as [[a|e] s']; [|exact Hm].
  now apply Hk.
Qed.

Lemma triple_tryCatch {A} P (m : Async A) h Q E E' :
  triple P m Q E' -> (forall e, triple E' (h e) Q E) -> triple P (tryCatch m h) Q E.
Proof.
  intros Hm Hh s Hs. specialize (Hm s Hs).
  unfold tryCatch. destruct (m s) as [[a|e] s']; [exact Hm|].
  now apply Hh.
Qed.

Lemma triple_weaken {A} (P P' : State -> Prop) (m : Async A) Q E :
  (forall s, P' s -> P s) -> triple P m Q E -> triple P' m Q E.
Proof. intros H Hm s Hs. apply Hm, H, Hs. Qed.

Lemma triple_if {A} P (b : bool) (m1 m2 : Async A) Q E :
  triple P m1 Q E -> triple P m2 Q E -> triple P (if b then m1 else m2) Q E.
Proof. now destruct b. Qed.

(** The invariant does not look at the effects. *)
Lemma invariant_frame env s s' :
  contacts s' = contacts s -> nextId s' = nextId s ->
  (is_Some (transporter s') -> is_Some (transporter s) \/ smtpConfigured env = true) ->
  invariant env s -> invariant env s'.
Proof.
  intros Hc Hn Ht (Hf & Hs & Hm). unfold invariant, idsFresh, statusesValid, mailerSound.
  rewrite Hc, Hn. split; [exact Hf | split; [exact Hs|]].
  intros H. destruct (Ht H); auto.
Qed.

Lemma consoleError_invariant env text detail :
  triple (invariant env) (consoleError text detail) (fun _ => invariant env)
    (invariant env).
Proof. intros s Hs. cbn. apply (invariant_frame env s); auto. Qed.

Lemma verifyRecaptcha_invariant env w token :
  triple (invariant env) (verifyRecaptcha env w token) (fun _ => invariant env)
    (invariant env).
Proof.
  intros s Hs.
  destruct (verifyRecaptcha_frame env w token s) as (Hc & Hn & Ht).
  destruct (verifyRecaptcha env w token s) as [[b|e] s']; cbn [snd] in *;
    (apply (invariant_frame env s); [exact Hc | exact Hn | rewrite Ht; auto | exact Hs]).
Qed.

Lemma findOne_invariant env w p :
  triple (invariant env) (findOne w p) (fun _ => invariant env) (invariant env).
Proof. intros s Hs. unfold findOne. now destruct (mongoRead w). Qed.

(** After [new Contact] the document has an id below the next fresh one,
    under which the collection holds nothing. *)
Lemma newContact_invariant env w b :
  triple (invariant env) (newContact w b)
    (fun c s => invariant env s /\ (_id c < nextId s)%N /\ contacts s !! _id c = None)
    (invariant env).
Proof.
  intros s (Hf & Hs & Hm). rewrite newContact_run. cbn.
  split; [split; [|split; [exact Hs | exact Hm]]|split; [lia|]].
  - intros id c Hc. destruct (Hf id c Hc). cbn. split; [assumption | lia].
  - destruct (contacts s !! nextId s) as [c|] eqn:E; [|reflexivity].
    apply Hf in E. lia.
Qed.

(** [save] keeps the invariant: the schema has checked the status. *)
Lemma save_invariant env w c :
  triple (fun s => invariant env s /\ (_id c < nextId s)%N /\ contacts s !! _id c = None)
    (save w c) (fun _ => invariant env) (invariant env).
Proof.
  intros s ((Hf & Hs & Hm) & Hid & Hnone). unfold save.
  destruct (schemaValid c) eqn:Hv; [|now cbn].
  destruct (mongoWrite w); [now cbn|].
  unfold mbind, Async_bind, gets. rewrite Hnone. cbn.
  split; [|split; [|exact Hm]].
  - intros id c'. cbn. rewrite lookup_insert. case_decide as Hk.
    + intros [= <-]. subst id. split; [reflexivity | exact Hid].
    + apply Hf.
  - intros id c'. cbn. rewrite lookup_insert. case_decide as Hk.
    + intros [= <-]. unfold schemaValid in Hv.
      rewrite !andb_true_iff in Hv. destruct Hv as [_ Hv].
      apply enumerated_Some. exact Hv.
    + apply Hs.
Qed.

Lemma dispatch_invariant env w d :
  triple (invariant env) (dispatch env w d) (fun _ => invariant env) (invariant env).
Proof.
  intros s Hs. destruct (dispatch_run env w d s) as (t & -> & Ht).
  apply (invariant_frame env s); [reflexivity | reflexivity | exact Ht | exact Hs].
Qed.

Lemma postContact_invariant env w raw :
  triple (invariant env) (postContact env w raw) (fun _ => invariant env)
    (invariant env).
Proof.
  unfold postContact. destruct (validateContactForm raw) as [body errors].
  eapply triple_tryCatch with (E' := invariant env).
  - apply triple_if; [now apply triple_ret|].
    eapply triple_bind; [apply verifyRecaptcha_invariant|]. intros ok.
    apply triple_if; [now apply triple_ret|].
    eapply triple_bind; [apply findOne_invariant|]. intros [existing|].
    + now apply triple_ret.
    + eapply triple_bind; [apply newContact_invariant|]. intros c.
      eapply triple_bind; [apply save_invariant|]. intros ?.
      eapply triple_bind; [apply dispatch_invariant|]. intros ?.
      now apply triple_ret.
  - intros e. eapply triple_bind; [apply consoleError_invariant|]. intros ?.
    now apply triple_ret.
Qed.

Lemma getContacts_invariant env w qpage qlimit :
  triple (invariant env) (getContacts w qpage qlimit) (fun _ => invariant env)
    (invariant env).
Proof.
  unfold getContacts.
  eapply triple_tryCatch with (E' := invariant env).
  - eapply triple_bind with (R := fun _ => invariant env).
    + intros s Hs. unfold findSorted. destruct (mongoRead w); [exact Hs|].
      destruct (window w _ _) as [error|[passed served]]; exact Hs.
    + intros data. eapply triple_bind with (R := fun _ => invariant env).
      * intros s Hs. unfold countDocuments. now destruct (mongoRead w).
      * intros total. now apply triple_ret.
  - intros e. eapply triple_bind; [apply consoleError_invariant|]. intros ?.
    now apply triple_ret.
Qed.

(** [findByIdAndUpdate] keeps the invariant when the new status is one of
    the enumerated values. *)
Lemma findByIdAndUpdate_invariant env w id st :
  In st statuses ->
  triple (invariant env) (findByIdAndUpdate w id st) (fun _ => invariant env)
    (invariant env).
Proof.
  intros Hst s (Hf & Hs & Hm). unfold findByIdAndUpdate.
  destruct (castObjectId id) as [oid|]; [|now cbn].
  destruct (mongoWrite w); [now cbn|].
  unfold mbind, Async_bind, gets.
  destruct (contacts s !! oid) as [c|] eqn:Hc; [|now cbn].
  cbn. split; [|split; [|exact Hm]].
  - intros k c'. cbn. rewrite lookup_insert. case_decide as Hk.
    + intros [= <-]. subst k. cbn. apply (Hf _ _ Hc).
    + apply Hf.
  - intros k c'. cbn. rewrite lookup_insert. case_decide as Hk.
    + intros [= <-]. exact Hst.
    + apply Hs.
Qed.

Lemma patchStatus_invariant env w id st :
  triple (invariant env) (patchStatus w id st) (fun _ => invariant env)
    (invariant env).
Proof.
  unfold patchStatus.
  eapply triple_tryCatch with (E' := invariant env).
  - destruct st as [st|]; cbn [from_option negb]; [|now apply triple_ret].
    destruct (JS.includes statuses st) eqn:Hst; cbn [negb]; [|now apply triple_ret].
    eapply triple_bind.
    + apply findByIdAndUpdate_invariant. now apply enumerated_Some.
    + intros [c|]; now apply triple_ret.
  - intros e. eapply triple_bind; [apply consoleError_invariant|]. intros ?.
    now apply triple_ret.
Qed.

Lemma handle_invariant env w r s :
  invariant env s -> invariant env (snd (handle env w r s)).
Proof.
  intros Hs.
  assert (H : triple (invariant env) (handle env w r) (fun _ => invariant env)
                (invariant env)).
  { destruct r; [apply postContact_invariant | apply getContacts_invariant
                | apply patchStatus_invariant]. }
  specialize (H s Hs). now destruct (handle env w r s) as [[a|e] s'].
Qed.

Lemma boot_contacts env w : contacts (boot env w) = ∅.
Proof.
  unfold boot, initializeTransporter.
  destruct (smtpConfigured env); [destruct (createTransport w)|]; reflexivity.
Qed.

Lemma boot_transporter env w :
  is_Some (transporter (boot env w)) -> smtpConfigured env = true.
Proof.
  unfold boot, initializeTransporter.
  destruct (smtpConfigured env); [reflexivity|]. cbn. intros [t Ht]. discriminate.
Qed.

Lemma boot_invariant env w : invariant env (boot env w).
Proof.
  split; [|split].
  - intros id c Hc. rewrite boot_contacts, lookup_empty in Hc. discriminate.
  - intros id c Hc. rewrite boot_contacts, lookup_empty in Hc. discriminate.
  - exact (boot_transporter env w).
Qed.

Lemma reachable_invariant env s : reachable env s -> invariant env s.
Proof.
  induction 1 as [w|w r s _ IH]; [apply boot_invariant | now apply handle_invariant].
Qed.

(** C8. In every state the server can reach, every stored submission has a
    status among "new", "contacted" and "converted": a submission is
    inserted with "new", and an update whose status is not enumerated is
    turned away before the collection is touched. *)
Theorem stored_status_enumerated env s :
  reachable env s ->
  forall id c, contacts s !! id = Some c ->
    status c = "new" \/ status c = "contacted" \/ status c = "converted".
Proof.
  intros Hreach id c Hc.
  destruct (reachable_invariant env s Hreach) as (_ & Hstatus & _).
  specialize (Hstatus id c Hc). unfold statuses in Hstatus. cbn in Hstatus.
  intuition.
Qed.

(** ** Further properties: the spam gate in full *)

Lemma mails_app l1 l2 : mails (l1 ++ l2) = (mails l1 ++ mails l2)%list.
Proof.
  induction l1 as [|[] l1 IH]; cbn; [reflexivity | exact IH | now rewrite IH | exact IH].
Qed.

Lemma verifications_app l1 l2 :
  verifications (l1 ++ l2) = (verifications l1 ++ verifications l2)%list.
Proof.
  induction l1 as [|[] l1 IH]; cbn; [reflexivity | now rewrite IH | exact IH | exact IH].
Qed.

(** Every run of [verifyRecaptcha] returns, and leaves behind nothing, one
    request, or one request and one line on the error console. *)
Lemma verifyRecaptcha_runs env w token s :
  exists verdict l,
    verifyRecaptcha env w token s = (Return verdict, withEffects s l)
    /\ (l = [] /\ verdict = true
        \/ exists secret,
             RECAPTCHA_SECRET_KEY env = Some secret /\ secret <> ""
             /\ isDevelopment env = false /\ isBypassToken token = false
             /\ (l = [SiteVerifyRequest secret token]
                   /\ siteverify w secret token = Replied verdict
                 \/ exists error,
                      siteverify w secret token = Failed error /\ verdict = false
                      /\ l = [SiteVerifyRequest secret token;
                              ConsoleError "reCAPTCHA verification error:"
                                (errMessage error)])).
Proof.
  destruct (isDevelopment env) eqn:Hdev.
  { exists true, []. rewrite withEffects_nil. split; [|now left].
    unfold verifyRecaptcha, tryCatch. now rewrite Hdev. }
  destruct (isBypassToken token) eqn:Hbyp.
  { exists true, []. rewrite withEffects_nil. split; [|now left].
    unfold verifyRecaptcha, tryCatch. now rewrite Hdev, Hbyp. }
  destruct (JS.truthy (RECAPTCHA_SECRET_KEY env)) eqn:Hsec.
  2: { exists true, []. rewrite withEffects_nil. split; [|now left].
       unfold verifyRecaptcha, tryCatch. now rewrite Hdev, Hbyp, Hsec. }
  destruct (RECAPTCHA_SECRET_KEY env) as [secret|] eqn:Hkey; [|discriminate].
  assert (Hne : secret <> "").
  { intros ->. discriminate. }
  rewrite (verifyRecaptcha_call env w token s secret Hdev Hbyp Hkey Hne).
  destruct (siteverify w secret token) as [verdict|error] eqn:Hreply.
  - exists verdict, [SiteVerifyRequest secret token]. split; [reflexivity|].
    right. exists secret. repeat split; auto.
  - exists false, [SiteVerifyRequest secret token;
                   ConsoleError "reCAPTCHA verification error:" (errMessage error)].
    split; [now rewrite withEffects_app|].
    right. exists secret. repeat split; auto. right. exists error. auto.
Qed.

(** What the spam gate leaves on the trace. *)
Lemma verifyRecaptcha_trace env w token s :
  exists verdict l,
    verifyRecaptcha env w token s = (Return verdict, withEffects s l)
    /\ mails l = []
    /\ (length (verifications l) <= 1)%nat
    /\ (isDevelopment env = true -> l = [] /\ verdict = true).
Proof.
  destruct (verifyRecaptcha_runs env w token s) as (verdict & l & Hrun & Hl).
  exists verdict, l. split; [exact Hrun|].
  destruct Hl as [[-> ->]|(secret & _ & _ & Hdev & _ & Hl)].
  - cbn. repeat split; auto.
  - destruct Hl as [[-> _]|(error & _ & _ & ->)]; cbn;
      (split; [reflexivity|]; split; [lia|]); intros H; congruence.
Qed.

(** X1. [verifyRecaptcha] never throws: it always answers with a boolean.
    It leaves the collection, the id counter and the transport alone, sends
    no mail, and contacts the verification service at most once; in
    development mode, on a bypass token and without a secret it does not
    contact it at all. *)
Theorem verifyRecaptcha_total env w token s :
  exists verdict new,
    verifyRecaptcha env w token s = (Return verdict, withEffects s new)
    /\ mails new = []
    /\ (length (verifications new) <= 1)%nat
    /\ (isDevelopment env = true \/ isBypassToken token = true
        \/ JS.truthy (RECAPTCHA_SECRET_KEY env) = false ->
        new = [] /\ verdict = true).
Proof.
  destruct (verifyRecaptcha_runs env w token s) as (verdict & l & Hrun & Hl).
  exists verdict, l. split; [exact Hrun|].
  destruct Hl as [[-> ->]|(secret & Hkey & Hne & Hdev & Hbyp & Hl)].
  - cbn. repeat split; auto.
  - assert (Htruthy : JS.truthy (RECAPTCHA_SECRET_KEY env) = true).
    { rewrite Hkey. cbn. apply eqb_neq in Hne. now rewrite Hne. }
    destruct Hl as [[-> _]|(error & _ & _ & ->)]; cbn;
      (split; [reflexivity|]; split; [lia|]);
      intros [H|[H|H]]; congruence.
Qed.

(** ** Further properties: every way through the submission handler *)

Lemma save_refused w c s error :
  refusal w c s = Some error -> save w c s = (Throw error, s).
Proof.
  unfold refusal, save. destruct (schemaValid c); [|now intros [= <-]].
  destruct (mongoWrite w) as [e|]; [now intros [= <-]|].
  unfold mbind, Async_bind, gets.
  destruct (contacts s !! _id c); cbn; [now intros [= <-] | discriminate].
Qed.

(** The handler always answers, in one of the five ways. *)
Lemma postContact_ends env w raw s :
  exists gate r s',
    postContact env w raw s = (Return r, s')
    /\ mails gate = [] /\ (length (verifications gate) <= 1)%nat
    /\ (isDevelopment env = true -> gate = [])
    /\ (r = captchaFailed -> isDevelopment env = false)
    /\ Ending env w raw s gate r s'.
Proof.
  unfold postContact.
  destruct (validateContactForm raw) as [body errors] eqn:Hv.
  destruct (decide (errors = [])) as [->|Hne].
  2: { exists [], (validationFailed errors), s. cbn [fst snd].
       split; [|repeat split; auto; try (cbn; lia); try discriminate].
       - apply tryCatch_Return. now rewrite bool_decide_eq_false_2.
       - pose proof (ends_invalid env w raw s []) as H. rewrite Hv in H.
         now apply H. }
  rewrite bool_decide_eq_true_2 by reflexivity. cbn [negb].
  destruct (verifyRecaptcha_trace env w (body_recaptchaToken body) s)
    as (verdict & gate & Hgate & Hmails & Hver & Hdevgate).
  exists gate.
  assert (Hvalid : snd (validateContactForm raw) = []) by now rewrite Hv.
  assert (Hbody : fst (validateContactForm raw) = body) by now rewrite Hv.
  destruct verdict.
  2: { exists captchaFailed, (withEffects s gate).
       split; [|repeat split; auto].
       - apply tryCatch_Return. now rewrite (bind_Return _ _ _ _ _ Hgate).
       - intros H. now apply Hdevgate in H.
       - intros _. destruct (isDevelopment env); [|reflexivity].
         destruct (Hdevgate eq_refl). discriminate.
       - now apply ends_captcha. }
  assert (Hnotcaptcha : forall e, submissionError env e = captchaFailed -> isDevelopment env = false)
    by (intros e H; discriminate).
  destruct (mongoRead w) as [e|] eqn:Hread.
  { exists (submissionError env e),
      (withEffects (withEffects s gate)
         [ConsoleError "Contact form submission error:" (errMessage e)]).
    split; [|repeat split; eauto].
    - erewrite tryCatch_Throw; cycle 1.
      { rewrite (bind_Return _ _ _ _ _ Hgate). cbn [negb].
        apply bind_Throw. unfold findOne. rewrite Hread. reflexivity. }
      reflexivity.
    - intros H. now apply Hdevgate in H.
    - apply ends_error;
        [exact Hvalid | reflexivity | reflexivity | cbn; lia
        | cbn; now rewrite <- app_assoc
        | now left]. }
  destruct (find (recentByContact (body_email body) (body_phone body)
                    (clockQuery w - oneHour)) (documents s)) as [existing|] eqn:Hfind.
  { exists duplicateSubmission, (withEffects s gate).
    split; [|repeat split; auto; try discriminate].
    - apply tryCatch_Return. rewrite (bind_Return _ _ _ _ _ Hgate). cbn [negb].
      rewrite (bind_Return _ _ _ _ _ (findOne_run w _ _ Hread)).
      change (documents (withEffects s gate)) with (documents s). now rewrite Hfind.
    - intros H. now apply Hdevgate in H.
    - apply (ends_duplicate env w raw s gate existing); auto. now rewrite Hbody. }
  set (c := contactOf (nextId s) w body).
  set (s2 := {| contacts := contacts s; nextId := N.succ (nextId s);
                transporter := transporter s;
                effects := (effects s ++ gate)%list |}).
  destruct (schemaValid c) eqn:Hschema;
    [destruct (mongoWrite w) as [e|] eqn:Hwrite;
     [|destruct (contacts s !! nextId s) as [old|] eqn:Hold]|].
  4: { (* the schema refuses the document *)
    set (error := validationError).
    assert (Hrefusal : refusal w c s = Some error)
      by (unfold refusal; now rewrite Hschema).
    assert (Hsave : save w c s2 = (Throw error, s2)) by now apply save_refused.
    exists (submissionError env error),
      (withEffects s2 [ConsoleError "Contact form submission error:" (errMessage error)]).
    split; [|repeat split; eauto].
    - erewrite tryCatch_Throw; cycle 1.
      { rewrite (bind_Return _ _ _ _ _ Hgate). cbn [negb].
        rewrite (bind_Return _ _ _ _ _ (findOne_run w _ _ Hread)).
        change (documents (withEffects s gate)) with (documents s). rewrite Hfind.
        rewrite (bind_Return _ _ _ _ _ (newContact_run w body (withEffects s gate))).
        apply bind_Throw. exact Hsave. }
      reflexivity.
    - intros H. now apply Hdevgate in H.
    - apply ends_error;
        [exact Hvalid | reflexivity | reflexivity | cbn; lia
        | cbn; now rewrite <- app_assoc
        | right; split; [exact Hread|]; rewrite Hbody; exact Hrefusal]. }
  - (* the database refuses the write *)
    set (error := e).
    assert (Hrefusal : refusal w c s = Some error)
      by (unfold refusal; now rewrite Hschema, Hwrite).
    assert (Hsave : save w c s2 = (Throw error, s2)) by now apply save_refused.
    exists (submissionError env error),
      (withEffects s2 [ConsoleError "Contact form submission error:" (errMessage error)]).
    split; [|repeat split; eauto].
    + erewrite tryCatch_Throw; cycle 1.
      { rewrite (bind_Return _ _ _ _ _ Hgate). cbn [negb].
        rewrite (bind_Return _ _ _ _ _ (findOne_run w _ _ Hread)).
        change (documents (withEffects s gate)) with (documents s). rewrite Hfind.
        rewrite (bind_Return _ _ _ _ _ (newContact_run w body (withEffects s gate))).
        apply bind_Throw. exact Hsave. }
      reflexivity.
    + intros H. now apply Hdevgate in H.
    + apply ends_error;
        [exact Hvalid | reflexivity | reflexivity | cbn; lia
        | cbn; now rewrite <- app_assoc
        | right; split; [exact Hread|]; rewrite Hbody; exact Hrefusal].
  - (* the id is taken *)
    set (error := duplicateKey).
    assert (Hrefusal : refusal w c s = Some error)
      by (unfold refusal; rewrite Hschema, Hwrite; subst c; cbn [contactOf _id];
          now rewrite Hold).
    assert (Hsave : save w c s2 = (Throw error, s2)) by now apply save_refused.
    exists (submissionError env error),
      (withEffects s2 [ConsoleError "Contact form submission error:" (errMessage error)]).
    split; [|repeat split; eauto].
    + erewrite tryCatch_Throw; cycle 1.
      { rewrite (bind_Return _ _ _ _ _ Hgate). cbn [negb].
        rewrite (bind_Return _ _ _ _ _ (findOne_run w _ _ Hread)).
        change (documents (withEffects s gate)) with (documents s). rewrite Hfind.
        rewrite (bind_Return _ _ _ _ _ (newContact_run w body (withEffects s gate))).
        apply bind_Throw. exact Hsave. }
      reflexivity.
    + intros H. now apply Hdevgate in H.
    + apply ends_error;
        [exact Hvalid | reflexivity | reflexivity | cbn; lia
        | cbn; now rewrite <- app_assoc
        | right; split; [exact Hread|]; rewrite Hbody; exact Hrefusal].
  - (* the document is stored *)
    destruct (dispatch_returns env w (contactDataOf c body)
                (withContact (withEffects s gate) c)) as [s3 Hdisp].
    exists (created c), s3.
    split; [|repeat split; eauto; try discriminate].
    + apply tryCatch_Return.
      rewrite (bind_Return _ _ _ _ _ Hgate). cbn [negb].
      rewrite (bind_Return _ _ _ _ _ (findOne_run w _ _ Hread)).
      change (documents (withEffects s gate)) with (documents s). rewrite Hfind.
      rewrite (bind_Return _ _ _ _ _ (newContact_run w body (withEffects s gate))).
      erewrite bind_Return; cycle 1.
      { apply save_run; [exact Hschema | exact Hwrite | exact Hold]. }
      erewrite bind_Return; [reflexivity|]. exact Hdisp.
    + intros H. now apply Hdevgate in H.
    + pose proof (ends_created env w raw s gate Hvalid Hread Hwrite Hold) as H.
      rewrite Hbody in H. fold c in H. rewrite Hdisp in H. apply H; assumption.
Qed.

Lemma mails_attempt w m service handler :
  mails (attempt w m service handler) = [m] /\ sendMail w m = None
  \/ mails (attempt w m service handler) = [] /\ sendMail w m <> None.
Proof.
  unfold attempt. destruct (sendMail w m); cbn; [right | left]; split; congruence.
Qed.

Lemma verifications_attempt w m service handler :
  verifications (attempt w m service handler) = [].
Proof. unfold attempt. now destruct (sendMail w m). Qed.

Lemma verifications_dispatched env w d s : verifications (dispatched env w d s) = [].
Proof.
  unfold dispatched. destruct (smtpConfigured env); [|reflexivity].
  destruct (transporter s), (createTransport w);
    rewrite ?verifications_app, ?verifications_attempt; reflexivity.
Qed.

(** The messages of a dispatch: the operator's and the applicant's, each
    if the transport took it, in that order, and none without an account. *)
Lemma mails_dispatched env w d s :
  exists la lr,
    mails (dispatched env w d s) = (la ++ lr)%list
    /\ (la = [] \/ la = [notificationMail env d] /\ smtpConfigured env = true)
    /\ (lr = [] \/ lr = [autoReplyMail env d] /\ smtpConfigured env = true).
Proof.
  unfold dispatched. destruct (smtpConfigured env).
  2: { exists [], []. auto. }
  assert (Hboth :
    exists la lr,
      mails (attempt w (notificationMail env d)
               " Error sending contact notification email:"
               "Failed to send admin notification:"
             ++ attempt w (autoReplyMail env d)
                  " Error sending auto-reply email:" "Failed to send auto-reply:")
      = (la ++ lr)%list
      /\ (la = [] \/ la = [notificationMail env d] /\ true = true)
      /\ (lr = [] \/ lr = [autoReplyMail env d] /\ true = true)).
  { rewrite mails_app.
    destruct (mails_attempt w (notificationMail env d)
                " Error sending contact notification email:"
                "Failed to send admin notification:") as [[-> _]|[-> _]],
             (mails_attempt w (autoReplyMail env d)
                " Error sending auto-reply email:"
                "Failed to send auto-reply:") as [[-> _]|[-> _]];
      eexists _, _; (split; [reflexivity|]); auto. }
  destruct (transporter s), (createTransport w); try exact Hboth.
  exists [], []. auto.
Qed.

(** X2. A submission is stored exactly when it is answered with 201: on
    every request, in every state and world, the handler either answers 201
    and adds one document, with status "new", under an id the collection
    did not hold, or answers 400, 429 or 500 and leaves the collection as it
    was. It never throws. *)
Theorem stored_iff_created env w raw s :
  exists r,
    fst (postContact env w raw s) = Return r
    /\ (statusCode r = 201
        /\ (exists c, json r = JCreated "Thank you for your inquiry! We will contact you within 24 hours."
                                 (_id c) (submittedAt c) (formType c)
                      /\ status c = "new"
                      /\ contacts s !! _id c = None
                      /\ contacts (snd (postContact env w raw s))
                         = <[_id c := c]> (contacts s))
        \/ In (statusCode r) [400; 429; 500]
           /\ contacts (snd (postContact env w raw s)) = contacts s).
Proof.
  destruct (postContact_ends env w raw s) as (gate & r & s' & -> & _ & _ & _ & _ & Hend).
  exists r. cbn [fst snd]. split; [reflexivity|].
  destruct Hend as [| | |error s' ? Hc|].
  - right. cbn. auto.
  - right. cbn. auto.
  - right. cbn. auto.
  - right. cbn. auto 6.
  - left. split; [reflexivity|].
    exists (contactOf (nextId s) w (fst (validateContactForm raw))).
    split; [reflexivity|]. split; [reflexivity|].
    split; [assumption|].
    match goal with
    | |- contacts (snd (dispatch ?e ?w' ?d ?st)) = _ =>
        destruct (dispatch_frame e w' d st) as (-> & _)
    end.
    reflexivity.
Qed.

(** X3. Mail goes out only for a stored submission: whatever the request,
    the messages the handler sends are at most two, the operator's
    notification (to ADMIN_EMAIL or the default address) and then the
    applicant's acknowledgement (to the sanitized email of the request);
    every one of them comes with a 201 answer and needs both SMTP_USER and
    SMTP_PASS. *)
Theorem mail_only_when_stored env w raw s :
  exists r new,
    fst (postContact env w raw s) = Return r
    /\ effects (snd (postContact env w raw s)) = (effects s ++ new)%list
    /\ (length (mails new) <= 2)%nat
    /\ (forall m, In m (mails new) ->
          statusCode r = 201 /\ smtpConfigured env = true
          /\ from m = SMTP_USER env
          /\ (to m = adminAddress env
              \/ to m = body_email (fst (validateContactForm raw)))).
Proof.
  destruct (postContact_ends env w raw s)
    as (gate & r & s' & -> & Hmails & _ & _ & _ & Hend).
  exists r. cbn [fst snd].
  destruct Hend as [Hinv -> | | |error s' ? ? ? ? Heff|].
  - exists []. rewrite app_nil_r. cbn. repeat split; try lia; try tauto.
  - exists gate. rewrite Hmails. cbn. repeat split; try lia; try tauto.
  - exists gate. rewrite Hmails. cbn. repeat split; try lia; try tauto.
  - exists (gate ++ [ConsoleError "Contact form submission error:" (errMessage error)])%list.
    rewrite mails_app, Hmails. cbn. repeat split; try lia; try tauto; try exact Heff.
  - match goal with
    | |- context [dispatch ?e ?w' ?d ?st] =>
        destruct (dispatch_frame e w' d st) as (_ & _ & Heff);
        destruct (mails_dispatched e w' d st) as (la & lr & Hm & Hla & Hlr);
        exists (gate ++ dispatched e w' d st)%list
    end.
    rewrite Heff. cbn [withContact withEffects effects].
    split; [reflexivity|]. split; [now rewrite app_assoc|].
    rewrite mails_app, Hmails, Hm. cbn [app].
    split.
    + rewrite length_app.
      destruct Hla as [->|[-> _]], Hlr as [->|[-> _]]; cbn; lia.
    + intros m Hin. apply in_app_iff in Hin.
      destruct Hin as [Hin|Hin].
      * destruct Hla as [->|[-> Hc]]; [destruct Hin|].
        destruct Hin as [<-|[]]. cbn. auto.
      * destruct Hlr as [->|[-> Hc]]; [destruct Hin|].
        destruct Hin as [<-|[]]. cbn. auto.
Qed.

(** X4. In development mode the spam gate is open: no request is answered
    with the captcha failure, and the verification service is never
    contacted, whatever the token and whatever the service would say. *)
Theorem development_skips_verification env w raw s :
  isDevelopment env = true ->
  fst (postContact env w raw s) <> Return captchaFailed
  /\ exists new,
       effects (snd (postContact env w raw s)) = (effects s ++ new)%list
       /\ verifications new = [].
Proof.
  intros Hdev.
  destruct (postContact_ends env w raw s)
    as (gate & r & s' & -> & _ & _ & Hquiet & Hcaptcha & Hend).
  specialize (Hquiet Hdev). subst gate. cbn [fst snd]. split.
  - intros [= ->]. specialize (Hcaptcha eq_refl). congruence.
  - destruct Hend as [| | |error s' ? ? ? ? Heff|].
    + exists []. now rewrite app_nil_r.
    + exists []. split; reflexivity.
    + exists []. split; reflexivity.
    + eexists. split; [exact Heff|]. reflexivity.
    + match goal with
      | |- context [dispatch ?e ?w' ?d ?st] =>
          destruct (dispatch_frame e w' d st) as (_ & _ & Heff);
          exists (dispatched e w' d st)
      end.
      rewrite Heff. cbn [withContact withEffects effects]. rewrite app_nil_r.
      split; [reflexivity | apply verifications_dispatched].
Qed.

(** X5. Outside development mode, with a secret configured and a token that
    is not a bypass token, a valid request is turned away with 400 "Captcha
    verification failed" unless the verification service answers that the
    token is good: a negative verdict and a failed call (timeout, network)
    both close the gate. Nothing is stored, no id is used up, the database
    is not queried and no mail is sent; the service was asked once. *)
Theorem captcha_rejection env w raw s secret :
  snd (validateContactForm raw) = [] ->
  isDevelopment env = false ->
  isBypassToken (body_recaptchaToken (fst (validateContactForm raw))) = false ->
  RECAPTCHA_SECRET_KEY env = Some secret -> secret <> "" ->
  siteverify w secret (body_recaptchaToken (fst (validateContactForm raw)))
    <> Replied true ->
  exists new,
    postContact env w raw s
    = (Return {| statusCode := 400;
                 json := JFailure "Captcha verification failed. Please try again." |},
       withEffects s new)
    /\ verifications new
       = [(secret, body_recaptchaToken (fst (validateContactForm raw)))]
    /\ mails new = [].
Proof.
  intros Hvalid Hdev Hbyp Hkey Hne Hbad.
  pose proof (verifyRecaptcha_call env w
                (body_recaptchaToken (fst (validateContactForm raw))) s secret
                Hdev Hbyp Hkey Hne) as Hcall.
  unfold postContact. revert Hvalid Hcall Hbad.
  destruct (validateContactForm raw) as [body errors]. cbn [fst snd].
  intros -> Hcall Hbad.
  rewrite bool_decide_eq_true_2 by reflexivity. cbn [negb].
  destruct (siteverify w secret (body_recaptchaToken body)) as [[]|error].
  - now destruct Hbad.
  - exists [SiteVerifyRequest secret (body_recaptchaToken body)].
    split; [|split; reflexivity].
    apply tryCatch_Return. now rewrite (bind_Return _ _ _ _ _ Hcall).
  - exists [SiteVerifyRequest secret (body_recaptchaToken body);
            ConsoleError "reCAPTCHA verification error:" (errMessage error)].
    split; [|split; reflexivity].
    apply tryCatch_Return. rewrite (bind_Return _ _ _ _ _ Hcall).
    cbn [negb]. now rewrite withEffects_app.
Qed.

(** When [save] refuses the document of a request that came that far,
    the answer is the 500 of the catch block; the id is used up. *)
Lemma database_refusal env w raw s s1 :
  snd (validateContactForm raw) = [] ->
  verifyRecaptcha env w (body_recaptchaToken (fst (validateContactForm raw))) s
  = (Return true, s1) ->
  mongoRead w = None ->
  (forall id c, contacts s !! id = Some c ->
     recentByContact (body_email (fst (validateContactForm raw)))
       (body_phone (fst (validateContactForm raw)))
       (clockQuery w - oneHour) c = false) ->
  forall e,
    refusal w (contactOf (nextId s) w (fst (validateContactForm raw))) s = Some e ->
    postContact env w raw s
    = (Return (submissionError env e),
       withEffects {| contacts := contacts s1; nextId := N.succ (nextId s1);
                      transporter := transporter s1; effects := effects s1 |}
         [ConsoleError "Contact form submission error:" (errMessage e)])
    /\ contacts s1 = contacts s.
Proof.
  intros Hvalid Hgate Hread Hdup e Hrefusal.
  pose proof (verifyRecaptcha_frame env w
                (body_recaptchaToken (fst (validateContactForm raw))) s) as Hframe.
  rewrite Hgate in Hframe. cbn [snd] in Hframe. destruct Hframe as (Hc1 & Hn1 & _).
  split; [|exact Hc1].
  unfold postContact. revert Hvalid Hgate Hdup Hrefusal.
  destruct (validateContactForm raw) as [body errors]. cbn [fst snd].
  intros -> Hgate Hdup Hrefusal.
  rewrite bool_decide_eq_true_2 by reflexivity. cbn [negb].
  erewrite tryCatch_Throw; cycle 1.
  { rewrite (bind_Return _ _ _ _ _ Hgate). cbn [negb].
    rewrite (bind_Return _ _ _ _ _ (findOne_run w _ s1 Hread)).
    assert (Hfind : find (recentByContact (body_email body) (body_phone body)
                            (clockQuery w - oneHour)) (documents s1) = None).
    { apply find_none_documents. intros id c0. rewrite Hc1. apply Hdup. }
    rewrite Hfind.
    rewrite (bind_Return _ _ _ _ _ (newContact_run w body s1)).
    apply bind_Throw. apply save_refused. rewrite Hn1.
    unfold refusal in *. cbn [contacts]. rewrite Hc1. exact Hrefusal. }
  reflexivity.
Qed.

(** X6. When the database fails, a request that passed validation and the
    spam gate is answered with 500 and the generic message; the message of
    the error is added in development mode only. A failed duplicate query
    stops the handler before a document is built. [save] fails after that:
    with the schema's validation error when the schema refuses the document,
    whatever the database would have done, and with the error of the
    database when the schema accepts the document and the write fails. In
    both cases the document's id is used up, but nothing is stored and no
    mail is sent. Either way the error is reported on the console. *)
Theorem database_failure env w raw s s1 error :
  snd (validateContactForm raw) = [] ->
  verifyRecaptcha env w (body_recaptchaToken (fst (validateContactForm raw))) s
  = (Return true, s1) ->
  let answer := fun e =>
    {| statusCode := 500;
       json := JServerError
                 "An error occurred while processing your request. Please try again later."
                 (if isDevelopment env then Some (errMessage e) else None) |} in
  let logged := fun e =>
    [ConsoleError "Contact form submission error:" (errMessage e)] in
  let c := contactOf (nextId s) w (fst (validateContactForm raw)) in
  let used := {| contacts := contacts s1; nextId := N.succ (nextId s1);
                 transporter := transporter s1; effects := effects s1 |} in
  (mongoRead w = Some error ->
     postContact env w raw s = (Return (answer error), withEffects s1 (logged error)))
  /\ (mongoRead w = None ->
      (forall id c, contacts s !! id = Some c ->
         recentByContact (body_email (fst (validateContactForm raw)))
           (body_phone (fst (validateContactForm raw)))
           (clockQuery w - oneHour) c = false) ->
      (schemaValid c = true -> mongoWrite w = Some error ->
         postContact env w raw s
         = (Return (answer error), withEffects used (logged error)))
      /\ (schemaValid c = false ->
          postContact env w raw s
          = (Return (answer validationError), withEffects used (logged validationError)))
      /\ contacts s1 = contacts s).
Proof.
  intros Hvalid Hgate answer logged c used.
  pose proof (verifyRecaptcha_frame env w
                (body_recaptchaToken (fst (validateContactForm raw))) s) as Hframe.
  rewrite Hgate in Hframe. cbn [snd] in Hframe. destruct Hframe as (Hc1 & Hn1 & _).
  split.
  - intros Hread. unfold postContact. revert Hvalid Hgate.
    destruct (validateContactForm raw) as [body errors]. cbn [fst snd].
    intros -> Hgate.
    rewrite bool_decide_eq_true_2 by reflexivity. cbn [negb].
    erewrite tryCatch_Throw; cycle 1.
    { rewrite (bind_Return _ _ _ _ _ Hgate). cbn [negb].
      apply bind_Throw. unfold findOne. rewrite Hread. reflexivity. }
    reflexivity.
  - intros Hread Hdup.
    split; [|split].
    + intros Hschema Hwrite.
      apply (database_refusal env w raw s s1 Hvalid Hgate Hread Hdup error).
      unfold refusal. fold c. now rewrite Hschema, Hwrite.
    + intros Hschema.
      apply (database_refusal env w raw s s1 Hvalid Hgate Hread Hdup validationError).
      unfold refusal. fold c. now rewrite Hschema.
    + exact Hc1.
Qed.

(** ** Further properties: every handler answers *)

Lemma getContacts_ends w qpage qlimit s :
  (exists data page limit total pages,
     getContacts w qpage qlimit s
     = (Return {| statusCode := 200; json := JContacts data page limit total pages |}, s)
     /\ mongoRead w = None /\ total = Z.of_nat (length (documents s)))
  \/ (exists error,
        getContacts w qpage qlimit s
        = (Return fetchError,
           withEffects s [ConsoleError "Error fetching contacts:" (errMessage error)])
        /\ (mongoRead w = None ->
            let page := JS.orDefault (JS.parseInt qpage) 1 in
            let limit := JS.orDefault (JS.parseInt qlimit) 20 in
            window w (JS.times (JS.minus page 1) limit) limit = inl error)).
Proof.
  unfold getContacts.
  destruct (mongoRead w) as [error|] eqn:Hread.
  { right. exists error. split; [|discriminate].
    erewrite tryCatch_Throw; cycle 1.
    { apply bind_Throw. unfold findSorted. rewrite Hread. reflexivity. }
    reflexivity. }
  set (page := JS.orDefault (JS.parseInt qpage) 1).
  set (limit := JS.orDefault (JS.parseInt qlimit) 20).
  destruct (window w (JS.times (JS.minus page 1) limit) limit)
    as [error|[passed served]] eqn:Hwindow.
  - right. exists error. split; [|intros _; reflexivity].
    erewrite tryCatch_Throw; cycle 1.
    { apply bind_Throw. unfold findSorted. rewrite Hread, Hwindow. reflexivity. }
    reflexivity.
  - left. do 5 eexists. split; [|split; reflexivity].
    apply tryCatch_Return.
    erewrite bind_Return; cycle 1.
    { unfold findSorted. rewrite Hread, Hwindow. reflexivity. }
    erewrite bind_Return; cycle 1.
    { unfold countDocuments. rewrite Hread. reflexivity. }
    reflexivity.
Qed.

Lemma patchStatus_ends w id st s :
  patchStatus w id st s = (Return invalidStatus, s) /\ enumerated st = false
  \/ patchStatus w id st s = (Return contactNotFound, s)
  \/ (exists error,
        patchStatus w id st s
        = (Return updateError,
           withEffects s [ConsoleError "Error updating contact status:"
                            (errMessage error)]))
  \/ (exists oid c,
        castObjectId id = Some oid /\ contacts s !! oid = Some c
        /\ enumerated st = true
        /\ patchStatus w id st s
           = (Return (updated (withStatus c (toString st))),
              withContacts s (<[oid := withStatus c (toString st)]> (contacts s)))).
Proof.
  destruct (enumerated st) eqn:Hst.
  2: { left. split; [now apply patchStatus_invalid | reflexivity]. }
  destruct (castObjectId id) as [oid|] eqn:Hid.
  2: { right. right. left. eexists. now apply patchStatus_malformed. }
  destruct (mongoWrite w) as [error|] eqn:Hw.
  { right. right. left. exists error. now apply (patchStatus_unavailable w id st s oid). }
  destruct (contacts s !! oid) as [c|] eqn:Hc.
  - right. right. right. exists oid, c. repeat split; auto.
    now apply patchStatus_found.
  - right. left. now apply (patchStatus_missing w id st s oid).
Qed.

(** X7. Every handler answers every request: none of them throws, in any
    state and whatever the outside world does. The status is 201, 400, 429
    or 500 for a submission, 200 or 500 for a listing, 200, 400, 404 or 500
    for a status update, and [success] in the body is true exactly when the
    status is below 300. *)
Theorem handlers_always_answer env w request s :
  exists r,
    fst (handle env w request s) = Return r
    /\ success (json r) = (statusCode r <? 300)%Z
    /\ In (statusCode r)
         match request with
         | PostContact _ => [201; 400; 429; 500]
         | GetContacts _ _ => [200; 500]
         | PatchStatus _ _ => [200; 400; 404; 500]
         end.
Proof.
  destruct request as [raw|qpage qlimit|id st]; cbn [handle].
  - destruct (postContact_ends env w raw s) as (gate & r & s' & -> & _ & _ & _ & _ & Hend).
    exists r. split; [reflexivity|].
    destruct Hend; cbn; auto 6.
  - destruct (getContacts_ends w qpage qlimit s)
      as [(data & page & limit & total & pages & -> & _)|(error & -> & _)];
      eexists; (split; [reflexivity|]); cbn; auto.
  - destruct (patchStatus_ends w id st s)
      as [[-> _]|[->|[(error & ->)|(oid & c & _ & _ & _ & ->)]]];
      eexists; (split; [reflexivity|]); cbn; auto 6.
Qed.


(** ** Further properties: what a request can do to the collection *)

(** A request leaves the collection alone, or inserts the document of a
    valid, unblocked submission under the next id, or replaces the status of
    one document by an enumerated one. *)
Lemma handle_changes env w request s :
  let s' := snd (handle env w request s) in
  (nextId s <= nextId s')%N
  /\ (contacts s' = contacts s
      \/ (exists raw,
            request = PostContact raw
            /\ snd (validateContactForm raw) = []
            /\ contacts s !! nextId s = None
            /\ schemaValid (contactOf (nextId s) w (fst (validateContactForm raw))) = true
            /\ find (recentByContact (body_email (fst (validateContactForm raw)))
                       (body_phone (fst (validateContactForm raw)))
                       (clockQuery w - oneHour)) (documents s) = None
            /\ contacts s'
               = <[nextId s := contactOf (nextId s) w (fst (validateContactForm raw))]>
                   (contacts s)
            /\ nextId s' = N.succ (nextId s))
      \/ (exists oid c st,
            contacts s !! oid = Some c /\ In st statuses
            /\ nextId s' = nextId s
            /\ contacts s' = <[oid := withStatus c st]> (contacts s))).
Proof.
  destruct request as [raw|qpage qlimit|id st]; cbn [handle].
  - destruct (postContact_ends env w raw s) as (gate & r & s' & -> & _ & _ & _ & _ & Hend).
    cbn [snd]. destruct Hend as [| | |error s' ? Hc ? Hn|].
    + split; [lia | now left].
    + split; [cbn; lia | now left].
    + split; [cbn; lia | now left].
    + split; [exact Hn | now left].
    + match goal with
      | |- context [dispatch ?e ?w' ?d ?st] =>
          destruct (dispatch_frame e w' d st) as (Hc & Hn & _)
      end.
      rewrite Hc, Hn. cbn [withContact withEffects contacts nextId contactOf _id].
      split; [lia|]. right. left. exists raw. repeat split; auto.
  - destruct (getContacts_ends w qpage qlimit s)
      as [(data & page & limit & total & pages & -> & _)|(error & -> & _)];
      cbn; (split; [lia | now left]).
  - destruct (patchStatus_ends w id st s)
      as [[-> _]|[->|[(error & ->)|(oid & c & _ & Hc & Hst & ->)]]];
      cbn; (split; [lia|]); try (now left).
    right. right. exists oid, c, (toString st). repeat split; auto.
    destruct st as [st|]; [|discriminate]. now apply enumerated_Some.
Qed.

Lemma sameButStatus_refl c : sameButStatus c c.
Proof. repeat split. Qed.

Lemma sameButStatus_trans a b c :
  sameButStatus a b -> sameButStatus b c -> sameButStatus a c.
Proof.
  unfold sameButStatus. intros (?&?&?&?&?&?&?) (?&?&?&?&?&?&?).
  repeat split; congruence.
Qed.

Lemma handle_keeps env w request s id c :
  contacts s !! id = Some c ->
  exists c', contacts (snd (handle env w request s)) !! id = Some c'
             /\ sameButStatus c c'.
Proof.
  intros Hc.
  destruct (handle_changes env w request s) as (_ & [->|[Hins|Hupd]]).
  - exists c. split; [exact Hc | apply sameButStatus_refl].
  - destruct Hins as (raw & _ & _ & Hnone & _ & _ & -> & _).
    exists c. split; [|apply sameButStatus_refl].
    rewrite lookup_insert_ne; [exact Hc|]. intros <-. congruence.
  - destruct Hupd as (oid & c0 & st & Hc0 & _ & _ & ->).
    destruct (decide (oid = id)) as [->|Hne].
    + rewrite Hc in Hc0. injection Hc0 as <-.
      exists (withStatus c st). rewrite lookup_insert_eq. split; [reflexivity|].
      repeat split.
    + exists c. rewrite lookup_insert_ne by exact Hne.
      split; [exact Hc | apply sameButStatus_refl].
Qed.

(** X9. A stored submission is never deleted and never rewritten, except
    for its status: whatever requests the server handles afterwards, in
    whatever worlds, the document is still there under its id with the same
    name, email, phone, message, form type and submission time. *)
Theorem documents_persist env s s' id c :
  evolves env s s' -> contacts s !! id = Some c ->
  exists c', contacts s' !! id = Some c' /\ sameButStatus c c'.
Proof.
  intros Hrun Hc. induction Hrun as [s|w r s s' _ IH].
  - exists c. split; [exact Hc | apply sameButStatus_refl].
  - destruct (IH Hc) as (c1 & Hc1 & Hsame).
    destruct (handle_keeps env w r s' id c1 Hc1) as (c2 & Hc2 & Hsame').
    exists c2. split; [exact Hc2 | exact (sameButStatus_trans _ _ _ Hsame Hsame')].
Qed.

(** ** Further properties: what is stored *)

Lemma validated_wellStored raw id w :
  snd (validateContactForm raw) = [] ->
  schemaValid (contactOf id w (fst (validateContactForm raw))) = true ->
  wellStored (contactOf id w (fst (validateContactForm raw))).
Proof.
  intros Hvalid Hschema. split; [exact Hschema|]. clear Hschema.
  destruct (validated_rules raw Hvalid) as (Hn & Hre & Hp & Hm & Hf & Tn & Tp & Tm).
  unfold contactOf, castName, castEmail, castPhone, castMessage.
  cbn [name email phone message].
  rewrite Tn, Tp, Tm.
  repeat split; try assumption.
  - eexists. reflexivity.
  - destruct H as [_ Htrim]. apply Htrim, trim_idem.
  - destruct H as [Hidem _]. apply Hidem.
Qed.

Lemma wellStored_withStatus c st :
  In st statuses -> wellStored c -> wellStored (withStatus c st).
Proof.
  intros Hst (Hschema & Hrest). split; [|exact Hrest].
  unfold schemaValid in *. cbn [withStatus name email phone message formType status].
  rewrite !andb_true_iff in *. destruct Hschema as [Hfields _].
  split; [exact Hfields|]. now apply enumerated_Some.
Qed.

Lemma handle_wellStored env w request s :
  (forall id c, contacts s !! id = Some c -> wellStored c) ->
  forall id c, contacts (snd (handle env w request s)) !! id = Some c -> wellStored c.
Proof.
  intros Hall id c.
  destruct (handle_changes env w request s) as (_ & [->|[Hins|Hupd]]).
  - apply Hall.
  - destruct Hins as (raw & _ & Hvalid & _ & Hschema & _ & -> & _).
    rewrite lookup_insert. case_decide.
    + intros [= <-]. now apply validated_wellStored.
    + apply Hall.
  - destruct Hupd as (oid & c0 & st & Hc0 & Hst & _ & ->).
    rewrite lookup_insert. case_decide.
    + intros [= <-]. apply wellStored_withStatus; [exact Hst | now apply (Hall oid)].
    + apply Hall.
Qed.

(** X11. Everything the server has stored went through the validation
    chains and the schema: in every reachable state each document passes
    the schema's validators (name and message within their lengths, phone of
    ten digits, form type hero or final, status enumerated), its name is 3
    to 100 letters or spaces, its message 10 to 1000 characters, its name,
    phone and message carry no white space around them, and its email is
    what [toLowerCase] made of a trimmed string: with no white space around
    it and in lower case, given that the engine's [toLowerCase] gives a
    string in lower case and adds no white space. *)
Theorem stored_documents_valid env s :
  reachable env s ->
  forall id c, contacts s !! id = Some c -> wellStored c.
Proof.
  induction 1 as [w|w r s _ IH].
  - intros id c Hc. rewrite boot_contacts, lookup_empty in Hc. discriminate.
  - now apply handle_wellStored.
Qed.

(** ** The duplicate window *)





(** X25. Which validated submissions the schema refuses. A request that
    passed validation, the spam gate and the duplicate check, on a database
    that answers and in a state whose ids are below the next fresh one, is
    answered 201 and stored exactly when its message has at most 1000 code
    units and its email, trimmed and put in lower case, is not blank and
    has at most 255 code units. Otherwise it is answered 500 with the
    generic message, the schema's validation error is logged, and nothing
    is stored: validator.js counts a surrogate pair once and a variation
    selector not at all, the schema counts code units. *)
Theorem schema_decides env w raw s s1 :
  snd (validateContactForm raw) = [] ->
  verifyRecaptcha env w (body_recaptchaToken (fst (validateContactForm raw))) s
  = (Return true, s1) ->
  mongoRead w = None -> mongoWrite w = None -> idsFresh s ->
  (forall id c, contacts s !! id = Some c ->
     recentByContact (body_email (fst (validateContactForm raw)))
       (body_phone (fst (validateContactForm raw)))
       (clockQuery w - oneHour) c = false) ->
  let body := fst (validateContactForm raw) in
  let c := contactOf (nextId s) w body in
  let fits := (JS.length (body_message body) <= 1000)%nat
              /\ castEmail (body_email body) <> ""
              /\ (JS.length (castEmail (body_email body)) <= 255)%nat in
  (fits ->
     fst (postContact env w raw s) = Return (created c)
     /\ contacts (snd (postContact env w raw s)) = <[nextId s := c]> (contacts s))
  /\ (~ fits ->
      fst (postContact env w raw s) = Return (submissionError env validationError)
      /\ contacts (snd (postContact env w raw s)) = contacts s
      /\ exists new,
           effects (snd (postContact env w raw s))
           = (effects s ++ new
              ++ [ConsoleError "Contact form submission error:"
                    (errMessage validationError)])%list)
  /\ ((validatorLength (body_message body) <= 1000)%nat
      /\ (validatorLength (body_email body) <= 255)%nat).
Proof.
  intros Hvalid Hgate Hread Hwrite Hfresh Hdup body c fits.
  pose proof (validated_schemaValid raw (nextId s) w Hvalid) as Hiff.
  fold body in Hiff. fold c in Hiff. fold fits in Hiff.
  pose proof (verifyRecaptcha_frame env w (body_recaptchaToken body) s) as Hframe.
  unfold body in Hframe. rewrite Hgate in Hframe. fold body in Hframe.
  cbn [snd] in Hframe. destruct Hframe as (Hc1 & Hn1 & _).
  split; [|split].
  - intros Hfits. apply Hiff in Hfits.
    assert (Hacc : Accepted env w raw s s1) by (split; assumption).
    destruct (postContact_accepts env w raw s s1 Hfresh Hacc) as (Hnew & _ & Hpost).
    fold body in Hpost. fold c in Hpost. rewrite Hpost. cbn [fst snd].
    split; [reflexivity|].
    destruct (dispatch_frame env w (contactDataOf c body) (withContact s1 c)) as (-> & _).
    cbn [withContact contacts]. now rewrite Hc1.
  - intros Hnot.
    assert (Hschema : schemaValid c = false).
    { destruct (schemaValid c) eqn:E; [|reflexivity]. exfalso. apply Hnot.
      apply Hiff. exact E. }
    destruct (database_refusal env w raw s s1 Hvalid Hgate Hread Hdup validationError)
      as (Hrun & Hsame).
    { unfold refusal. fold body. fold c. now rewrite Hschema. }
    rewrite Hrun. cbn [fst snd withEffects contacts effects].
    split; [reflexivity|]. split; [exact Hsame|].
    destruct (verifyRecaptcha_trace env w (body_recaptchaToken body) s)
      as (verdict & gate & Hgate' & _).
    unfold body in Hgate'. rewrite Hgate in Hgate'. injection Hgate' as _ ->.
    exists gate. cbn [withEffects effects]. now rewrite app_assoc.
  - rewrite validateContactForm_errors in Hvalid.
    pose proof (violations_nil _ Hvalid) as Hrules. unfold fieldRules in Hrules.
    unfold body. rewrite validateContactForm_body. cbn [body_message body_email].
    split.
    + assert (H : isLength 10 1000 (JS.trim (toString (raw_message raw))) = true)
        by (eapply Hrules; simpl; eauto 10).
      apply isLength_bounds in H. lia.
    + assert (H : isLength 0 255 (normalizeEmail (JS.trim (toString (raw_email raw)))) = true)
        by (eapply Hrules; simpl; eauto 10).
      apply isLength_bounds in H. lia.
Qed.

(** ** Further properties: the duplicate window as an invariant *)

Lemma spaced_insert s k c :
  spaced s -> contacts s !! k = None ->
  (forall j cj, contacts s !! j = Some cj ->
     email c = email cj \/ phone c = phone cj ->
     oneHour < submittedAt c - submittedAt cj) ->
  forall i j ci cj,
    i <> j -> <[k := c]> (contacts s) !! i = Some ci ->
    <[k := c]> (contacts s) !! j = Some cj ->
    email ci = email cj \/ phone ci = phone cj ->
    oneHour < Z.abs (submittedAt ci - submittedAt cj).
Proof.
  intros Hsp Hnone Hnew i j ci cj Hij.
  rewrite !lookup_insert. repeat case_decide; subst.
  - congruence.
  - intros [= <-] Hj Hsame. specialize (Hnew j cj Hj Hsame). lia.
  - intros Hi [= <-] Hsame.
    assert (Hsame' : email c = email ci \/ phone c = phone ci)
      by (destruct Hsame; [left | right]; congruence).
    specialize (Hnew i ci Hi Hsame'). lia.
  - intros Hi Hj. now apply (Hsp i j).
Qed.

(** X12. Handled one after the other, requests keep every two stored
    submissions with the same email or the same phone more than an hour
    apart: if that holds before a request, and the clock does not run
    backwards between the duplicate query and the building of the document,
    it holds after it. *)
Theorem duplicate_window_invariant env w request s :
  spaced s -> clockQuery w <= clockCreate w ->
  spaced (snd (handle env w request s)).
Proof.
  intros Hsp Hclock.
  destruct (handle_changes env w request s) as (_ & [Hsame|[Hins|Hupd]]).
  - unfold spaced. rewrite Hsame. exact Hsp.
  - destruct Hins as (raw & _ & _ & Hnone & _ & Hfind & Hins & _).
    unfold spaced. rewrite Hins. apply spaced_insert; [exact Hsp | exact Hnone|].
    intros j cj Hj Hsame.
    rewrite find_none_documents in Hfind. specialize (Hfind j cj Hj).
    unfold recentByContact in Hfind. cbn [contactOf email phone submittedAt] in *.
    apply andb_false_iff in Hfind. destruct Hfind as [Hfind|Hfind].
    + apply orb_false_iff in Hfind as [He Hp].
      apply eqb_neq in He, Hp. destruct Hsame; congruence.
    + apply Z.leb_gt in Hfind. lia.
  - destruct Hupd as (oid & c0 & st & Hc0 & _ & _ & Hupd).
    unfold spaced. rewrite Hupd. intros i j ci cj Hij.
    destruct (decide (oid = i)) as [Hi|Hi], (decide (oid = j)) as [Hj|Hj].
    + congruence.
    + rewrite <- Hi, lookup_insert_eq, lookup_insert_ne by exact Hj.
      intros [= <-] Hcj. cbn. apply (Hsp oid j); [congruence | exact Hc0 | exact Hcj].
    + rewrite <- Hj, lookup_insert_eq, lookup_insert_ne by exact Hi.
      intros Hci [= <-]. cbn. apply (Hsp i oid); [congruence | exact Hci | exact Hc0].
    + rewrite !lookup_insert_ne by assumption. now apply (Hsp i j).
Qed.

(** ** Further properties: the admin surface *)

Lemma chunks {A} (n : nat) (k : nat) : forall l : list A,
  (length l <= k * n)%nat ->
  concat (map (fun i => take n (drop (i * n) l)) (seq 0 k)) = l.
Proof using.
  induction k as [|k IH]; intros l Hlen.
  - destruct l; [reflexivity | cbn in Hlen; lia].
  - cbn [seq map concat]. rewrite <- seq_shift, map_map.
    transitivity (take n l ++ drop n l)%list; [|apply take_drop].
    f_equal.
    etransitivity; [|apply (IH (drop n l)); rewrite length_drop; lia].
    f_equal. apply map_ext. intros i. rewrite drop_drop. f_equal; f_equal; lia.
Qed.

Lemma listed_page w s page limit :
  1 <= page -> 1 <= limit -> page * limit <= JS.maxSafe -> mongoRead w = None ->
  listed (fst (getContacts w (Some page) (Some limit) s))
  = take (Z.to_nat limit)
      (drop (Z.to_nat ((page - 1) * limit))
         (merge_sort newerFirst (shuffle (scanOrder w) (documents s)))).
Proof.
  intros Hpage Hlimit Hsafe Hread.
  rewrite getContacts_run by assumption. reflexivity.
Qed.

(** Documents with different timestamps can be sorted in one way only. *)
Lemma sorted_unique (l1 l2 : list Contact) :
  NoDup (map submittedAt l1) ->
  StronglySorted newerFirst l1 -> StronglySorted newerFirst l2 ->
  l1 ≡ₚ l2 -> l1 = l2.
Proof using.
  revert l2. induction l1 as [|x l1 IH]; intros l2 Hnodup H1 H2 Hperm.
  - now apply Permutation_nil_l in Hperm.
  - destruct l2 as [|y l2]; [now apply Permutation_nil_r in Hperm|].
    apply StronglySorted_inv in H1 as [H1 Hx], H2 as [H2 Hy].
    apply NoDup_cons in Hnodup as [Hfresh Hnodup].
    assert (Hxy : x = y).
    { assert (Hin : x ∈ y :: l2) by (rewrite <- Hperm; left).
      apply elem_of_cons in Hin as [Hin|Hin]; [exact Hin|].
      assert (Hin' : y ∈ x :: l1) by (rewrite Hperm; left).
      apply elem_of_cons in Hin' as [Hin'|Hin']; [now symmetry|].
      exfalso. apply Hfresh.
      rewrite Forall_forall in Hx, Hy.
      pose proof (Hx y Hin') as Ha. pose proof (Hy x Hin) as Hb.
      unfold newerFirst in Ha, Hb.
      replace (submittedAt x) with (submittedAt y) by lia.
      apply list_elem_of_fmap. now exists y. }
    subst y. f_equal. apply IH; try assumption.
    now apply Permutation_cons_inv in Hperm.
Qed.

Lemma sorted_any_order swaps (l : list Contact) :
  NoDup (map submittedAt l) ->
  merge_sort newerFirst (shuffle swaps l) = merge_sort newerFirst l.
Proof using.
  intros Hnodup. apply sorted_unique.
  - rewrite merge_sort_Permutation, shuffle_Permutation. exact Hnodup.
  - apply StronglySorted_merge_sort; apply _.
  - apply StronglySorted_merge_sort; apply _.
  - now rewrite !merge_sort_Permutation, shuffle_Permutation.
Qed.

(** X13. Walking the pages visits every document exactly once, newest
    first, when no two documents have the same [submittedAt]: for a page
    size from 1 on, with safe integers, on a database that answers each of
    the requests, in whatever order each query meets the documents, the
    pages 1 to [pages] of the listing, put end to end, are the whole
    collection sorted by [submittedAt] descending, where [pages] is the
    number the listing itself reports; and none of them holds more than
    [limit] documents. *)
Theorem pages_cover_collection (w : nat -> World) s limit :
  1 <= limit -> Z.of_nat (size (contacts s)) + limit <= JS.maxSafe ->
  (forall i, mongoRead (w i) = None) ->
  NoDup (map submittedAt (documents s)) ->
  let pages := JS.ceilDiv (Z.of_nat (size (contacts s))) limit in
  let page i := listed (fst (getContacts (w i) (Some (Z.of_nat i)) (Some limit) s)) in
  concat (map page (seq 1 (Z.to_nat pages))) = merge_sort newerFirst (documents s)
  /\ concat (map page (seq 1 (Z.to_nat pages))) ≡ₚ documents s
  /\ StronglySorted newerFirst (concat (map page (seq 1 (Z.to_nat pages))))
  /\ (forall i, (1 <= i <= Z.to_nat pages)%nat -> (Z.of_nat (length (page i)) <= limit)).
Proof.
  intros Hlimit Hsafe Hread Hnodup pages page.
  pose proof (ceilDiv_bounds (Z.of_nat (size (contacts s))) limit ltac:(lia)) as Hb.
  fold pages in Hb.
  assert (Hpage : forall i, (1 <= i <= Z.to_nat pages)%nat ->
            page i = take (Z.to_nat limit)
                       (drop ((i - 1) * Z.to_nat limit)
                          (merge_sort newerFirst (documents s)))).
  { intros i Hi. unfold page. rewrite listed_page; try apply Hread; try nia.
    rewrite sorted_any_order by exact Hnodup.
    f_equal. f_equal. rewrite Z2Nat.inj_mul by lia. f_equal. lia. }
  assert (Hall : concat (map page (seq 1 (Z.to_nat pages)))
                 = merge_sort newerFirst (documents s)).
  { rewrite <- seq_shift, map_map.
    etransitivity;
      [|apply (chunks (Z.to_nat limit) (Z.to_nat pages)
                 (merge_sort newerFirst (documents s)))].
    - f_equal. apply map_ext_in. intros i Hi%in_seq. rewrite Hpage by lia.
      f_equal. f_equal. f_equal. lia.
    - rewrite (Permutation_length (merge_sort_Permutation newerFirst (documents s))).
      rewrite documents_length. nia. }
  split; [exact Hall|]. split; [|split].
  - rewrite Hall. apply merge_sort_Permutation.
  - rewrite Hall. apply StronglySorted_merge_sort; apply _.
  - intros i Hi. rewrite Hpage by exact Hi. rewrite length_take. lia.
Qed.

(** X14. A listing only reads: whatever the parameters and whatever the
    database does, [GET /api/contacts] leaves the collection, the id counter
    and the transport as they were and sends no mail; and the total it
    reports, when it answers 200, is the number of stored documents. *)
Theorem listing_reads_only w qpage qlimit s :
  let s' := snd (getContacts w qpage qlimit s) in
  contacts s' = contacts s /\ nextId s' = nextId s /\ transporter s' = transporter s
  /\ (exists new, effects s' = (effects s ++ new)%list /\ mails new = [])
  /\ (forall r, fst (getContacts w qpage qlimit s) = Return r -> statusCode r = 200 ->
        reportedTotal (Return r) = Z.of_nat (size (contacts s))).
Proof.
  cbv zeta.
  destruct (getContacts_ends w qpage qlimit s)
    as [(data & page & limit & total & pages & Hrun & Hread & Htotal)|(error & Hrun & _)].
  - rewrite Hrun. cbn. repeat split; auto.
    + exists []. now rewrite app_nil_r.
    + intros r [= <-] _. cbn. now rewrite Htotal, documents_length.
  - rewrite Hrun. cbn. repeat split; auto.
    + eexists. split; [reflexivity | reflexivity].
    + intros r [= <-]. discriminate.
Qed.

Lemma withStatus_withStatus c a b : withStatus (withStatus c a) b = withStatus c b.
Proof using. reflexivity. Qed.

(** X15. Status updates compose as overwrites: with an enumerated status,
    an update after any other update of the same id leaves the collection
    as the later update alone would (so repeating an update changes nothing
    more); and no update, valid or not, adds or removes a document. *)
Theorem status_update_overwrites w w' id st st' s :
  enumerated st' = true -> mongoWrite w' = None ->
  contacts (snd (patchStatus w' id st' (snd (patchStatus w id st s))))
  = contacts (snd (patchStatus w' id st' s))
  /\ dom (contacts (snd (patchStatus w id st s))) = dom (contacts s).
Proof.
  intros Hst' Hw'.
  assert (Hdom : forall w0 st0 s0,
            dom (contacts (snd (patchStatus w0 id st0 s0))) = dom (contacts s0)).
  { intros w0 st0 s0.
    destruct (patchStatus_ends w0 id st0 s0)
      as [[-> _]|[->|[(error & ->)|(oid & c & _ & Hc & _ & ->)]]]; cbn; auto.
    apply dom_insert_lookup_L. rewrite Hc. eauto. }
  split; [|apply Hdom].
  destruct (patchStatus_ends w id st s)
    as [[-> _]|[->|[(error & ->)|(oid & c & Hid & Hc & Hst & ->)]]]; cbn [snd].
  - reflexivity.
  - reflexivity.
  - destruct (patchStatus_ends w' id st' s)
      as [[_ H]|[Hrun|[(e & Hrun)|(oid & c & Hid & Hc & _ & Hrun)]]].
    + congruence.
    + rewrite Hrun.
      destruct (castObjectId id) as [oid|] eqn:Hid.
      * destruct (contacts s !! oid) as [c|] eqn:Hc.
        { rewrite (patchStatus_found w' id st' s oid c Hst' Hid Hw' Hc) in Hrun.
          discriminate. }
        now rewrite (patchStatus_missing w' id st' _ oid Hst' Hid Hw').
      * now rewrite (patchStatus_malformed w' id st' _ Hst' Hid).
    + rewrite Hrun.
      destruct (castObjectId id) as [oid|] eqn:Hid.
      * destruct (contacts s !! oid) as [c|] eqn:Hc.
        { rewrite (patchStatus_found w' id st' s oid c Hst' Hid Hw' Hc) in Hrun.
          discriminate. }
        rewrite (patchStatus_missing w' id st' s oid Hst' Hid Hw' Hc) in Hrun.
        discriminate.
      * now rewrite (patchStatus_malformed w' id st' _ Hst' Hid).
    + rewrite Hrun. cbn [snd].
      now rewrite (patchStatus_found w' id st' _ oid c Hst' Hid Hw').
  - rewrite (patchStatus_found w' id st' s oid c Hst' Hid Hw' Hc).
    erewrite (patchStatus_found w' id st' _ oid); cycle 1; eauto.
    { cbn. apply lookup_insert_eq. }
    cbn. rewrite withStatus_withStatus. apply insert_insert_eq.
Qed.

(** X16. When the database refuses the operation, the admin endpoints
    answer 500 with their own fixed messages, "Error fetching contacts" and
    "Error updating contact status", report the error on the console, and
    change nothing else; the message of the error is not sent to the client,
    in development mode either. *)
Theorem admin_database_failure w s error :
  (mongoRead w = Some error -> forall qpage qlimit,
     getContacts w qpage qlimit s
     = (Return {| statusCode := 500; json := JFailure "Error fetching contacts" |},
        withEffects s [ConsoleError "Error fetching contacts:" (errMessage error)]))
  /\ (mongoWrite w = Some error -> forall id oid st,
        castObjectId id = Some oid -> enumerated st = true ->
        patchStatus w id st s
        = (Return {| statusCode := 500; json := JFailure "Error updating contact status" |},
           withEffects s [ConsoleError "Error updating contact status:"
                            (errMessage error)])).
Proof.
  split.
  - intros Hread qpage qlimit. unfold getContacts.
    erewrite tryCatch_Throw; cycle 1.
    { apply bind_Throw. unfold findSorted. rewrite Hread. reflexivity. }
    reflexivity.
  - intros Hwrite id oid st Hid Hst.
    now apply (patchStatus_unavailable w id st s oid).
Qed.

(** ** Further properties: sanitizing, the transport, the health check *)

Lemma toString_trim v : toString (JS.trim <$> v) = JS.trim (toString v).
Proof using. now destruct v. Qed.

(** X17. White space around the name, the email, the phone and the message
    does not count: a request and the same request with these four fields
    trimmed are validated, answered and stored alike. *)
Theorem surrounding_space_ignored env w raw s :
  validateContactForm (trimmedBody raw) = validateContactForm raw
  /\ postContact env w (trimmedBody raw) s = postContact env w raw s.
Proof.
  assert (H : validateContactForm (trimmedBody raw) = validateContactForm raw).
  { unfold validateContactForm, trimmedBody.
    cbn [raw_name raw_email raw_phone raw_message raw_formType raw_recaptchaToken].
    rewrite !toString_trim.
    unfold nameChain, emailChain, phoneChain, messageChain.
    cbn [runChain]. now rewrite !trim_idem. }
  split; [exact H|]. unfold postContact. now rewrite H.
Qed.

(** X18. The transport is built lazily and once: [ensureTransporter]
    answers true exactly when a transport is there or the account is
    configured and one can be built now; it touches neither the collection
    nor the id counter; once it has answered true, every later call answers
    true and changes nothing, whatever [createTransport] would do then; and
    when it answers false there is still no transport. *)
Theorem transport_built_once env w s :
  exists ok,
    fst (ensureTransporter env w s) = Return ok
    /\ (ok = true <-> ready env w s)
    /\ contacts (snd (ensureTransporter env w s)) = contacts s
    /\ nextId (snd (ensureTransporter env w s)) = nextId s
    /\ (ok = true -> forall w',
          ensureTransporter env w' (snd (ensureTransporter env w s))
          = (Return true, snd (ensureTransporter env w s)))
    /\ (ok = false -> transporter (snd (ensureTransporter env w s)) = None).
Proof.
  unfold ready.
  destruct (transporter s) as [t|] eqn:Ht.
  { assert (Hs : is_Some (transporter s)) by (rewrite Ht; eauto).
    rewrite (ensureTransporter_some env w s Hs). exists true. cbn.
    repeat split; auto; try discriminate.
    intros _ w'. now apply ensureTransporter_some. }
  destruct (smtpConfigured env) eqn:Hc.
  2: { rewrite (ensureTransporter_unconfigured env w s Ht Hc). exists false. cbn.
       repeat split; auto; try discriminate.
       intros [[x Hx]|[Hx _]]; discriminate. }
  destruct (createTransport w) as [error|] eqn:Hb.
  - rewrite (ensureTransporter_failed env w s error Ht Hc Hb). exists false. cbn.
    repeat split; auto; try discriminate.
    intros [[x Hx]|[_ Hx]]; discriminate.
  - rewrite (ensureTransporter_built env w s Ht Hc Hb). exists true. cbn.
    repeat split; auto; try discriminate.
    all: try (intros _ w'; apply ensureTransporter_some; cbn; eauto).
Qed.

Lemma postContact_mails_unconfigured env w raw s :
  smtpConfigured env = false ->
  exists new,
    effects (snd (postContact env w raw s)) = (effects s ++ new)%list
    /\ mails new = [].
Proof.
  intros Hc.
  destruct (postContact_ends env w raw s)
    as (gate & r & s' & -> & Hmails & _ & _ & _ & Hend).
  cbn [snd]. destruct Hend as [Hinv -> | | |error s' ? ? ? ? Heff|].
  - exists []. now rewrite app_nil_r.
  - exists gate. auto.
  - exists gate. auto.
  - eexists. split; [exact Heff|]. now rewrite mails_app, Hmails.
  - match goal with
    | |- context [dispatch ?e ?w' ?d ?st] =>
        destruct (dispatch_frame e w' d st) as (_ & _ & Heff);
        exists (gate ++ dispatched e w' d st)%list
    end.
    rewrite Heff. cbn [withContact withEffects effects].
    split; [now rewrite app_assoc|].
    rewrite mails_app, Hmails. unfold dispatched. now rewrite Hc.
Qed.

(** X19. The health check and the mailer do not read the configuration
    alike: the health check reports the email service as "configured" as
    soon as SMTP_USER is set, while the handler sends mail only with
    SMTP_USER and SMTP_PASS. With the password missing the report says
    "configured" and no submission ever sends a message. The database entry
    reads "connected" exactly in ready state 1, and the check answers
    "healthy" in every state of the database. *)
Theorem health_reports_user_only env :
  JS.truthy (SMTP_USER env) = true -> JS.truthy (SMTP_PASS env) = false ->
  (forall readyState now,
     services_email (getHealth env readyState now) = "configured"
     /\ health_status (getHealth env readyState now) = "healthy"
     /\ (services_database (getHealth env readyState now) = "connected"
         <-> readyState = 1))
  /\ (forall w raw s,
        exists new,
          effects (snd (postContact env w raw s)) = (effects s ++ new)%list
          /\ mails new = []).
Proof.
  intros Huser Hpass. split.
  - intros readyState now. unfold getHealth. cbn. rewrite Huser.
    split; [reflexivity|]. split; [reflexivity|].
    destruct (Z.eqb_spec readyState 1); split; congruence.
  - intros w raw s. apply postContact_mails_unconfigured.
    unfold smtpConfigured. now rewrite Huser, Hpass.
Qed.

(** ** Further properties: one request after another *)

(** What a 201 answer tells: the request was valid, its document is the
    one the schema's setters make of the body, and it is in the collection
    under the id that was next. *)
Lemma created_stored env w raw s r :
  fst (postContact env w raw s) = Return r ->
  (statusCode r = 201 \/ exists m i t f, json r = JCreated m i t f) ->
  let c := contactOf (nextId s) w (fst (validateContactForm raw)) in
  r = created c
  /\ snd (validateContactForm raw) = []
  /\ schemaValid c = true
  /\ contacts s !! nextId s = None
  /\ contacts (snd (postContact env w raw s)) = <[nextId s := c]> (contacts s).
Proof.
  destruct (postContact_ends env w raw s) as (gate & r' & s' & -> & _ & _ & _ & _ & Hend).
  intros Hrun Hr c. cbn [fst snd] in *. injection Hrun as <-.
  destruct Hend as [| | |error s' ? Hc|Hvalid Hread Hwrite Hnone Hfind Hschema];
    try (destruct Hr as [Hr|(m & i & t & f & Hr)]; discriminate).
  fold c. repeat split; try assumption.
  match goal with
  | |- contacts (snd (dispatch ?e ?w' ?d ?st)) = _ =>
      destruct (dispatch_frame e w' d st) as (-> & _)
  end.
  reflexivity.
Qed.

(** X20. The id in the 201 answer addresses the stored submission: after a
    submission that was answered with the created response, a status
    update sent with an id that denotes the ObjectId of that response, and
    an enumerated status, is answered with 200 and the submitted data
    (name, phone and message trimmed, email trimmed and put in lower case)
    under the new status. *)
Theorem created_then_updated env w raw s r thanks oid at_ form w' id st :
  fst (postContact env w raw s) = Return r ->
  json r = JCreated thanks oid at_ form ->
  castObjectId id = Some oid -> In st statuses -> mongoWrite w' = None ->
  let body := fst (validateContactForm raw) in
  exists c,
    r = created c
    /\ statusCode r = 201
    /\ _id c = oid
    /\ name c = body_name body /\ phone c = body_phone body
    /\ message c = body_message body
    /\ email c = toLowerCase (JS.trim (body_email body))
    /\ fst (patchStatus w' id (Some st) (snd (postContact env w raw s)))
       = Return {| statusCode := 200; json := JContact (withStatus c st) |}.
Proof.
  intros Hrun Hjson Hid Hst Hw' body.
  destruct (created_stored env w raw s r Hrun) as (-> & Hvalid & _ & Hnone & Hcontacts).
  { right. eauto. }
  fold body in Hcontacts, Hjson |- *.
  injection Hjson as _ <- _ _.
  exists (contactOf (nextId s) w body).
  split; [reflexivity|]. split; [reflexivity|]. split; [reflexivity|].
  destruct (validated_rules raw Hvalid) as (_ & _ & _ & _ & _ & Tn & Tp & Tm).
  fold body in Tn, Tp, Tm.
  cbn [contactOf name phone message email]. unfold castName, castPhone, castMessage.
  split; [exact Tn|]. split; [exact Tp|]. split; [exact Tm|]. split; [reflexivity|].
  erewrite (patchStatus_found w' id (Some st) _ (nextId s)); [reflexivity| | | |].
  - now apply enumerated_Some.
  - exact Hid.
  - exact Hw'.
  - rewrite Hcontacts. apply lookup_insert_eq.
Qed.

(** X21. A stored submission shows up in the listing: after a submission
    that was answered 201, a listing on a database that answers reports one
    document more than were stored before, and its first page lists the
    new document when the page size, a safe integer, exceeds the number of
    documents. *)
Theorem created_then_listed env w raw s r w' limit :
  fst (postContact env w raw s) = Return r -> statusCode r = 201 ->
  mongoRead w' = None ->
  Z.of_nat (size (contacts s)) < limit -> limit <= JS.maxSafe ->
  let s' := snd (postContact env w raw s) in
  let c := contactOf (nextId s) w (fst (validateContactForm raw)) in
  reportedTotal (fst (getContacts w' (Some 1) (Some limit) s'))
  = Z.of_nat (size (contacts s)) + 1
  /\ In c (listed (fst (getContacts w' (Some 1) (Some limit) s'))).
Proof.
  intros Hrun Hr Hread Hlimit Hsafe s' c.
  destruct (created_stored env w raw s r Hrun (or_introl Hr))
    as (_ & _ & _ & Hnone & Hcontacts).
  fold s' in Hcontacts. fold c in Hcontacts.
  assert (Hsize : size (contacts s') = S (size (contacts s))).
  { rewrite Hcontacts. now apply map_size_insert_None. }
  split.
  - rewrite (getContacts_run w' s' 1 limit) by (try assumption; lia). cbn.
    rewrite documents_length, Hsize. lia.
  - rewrite listed_page by (try assumption; lia).
    change (Z.to_nat ((1 - 1) * limit)) with (Z.to_nat (0 * limit)).
    rewrite Z.mul_0_l. change (Z.to_nat 0) with 0%nat. rewrite drop_0.
    rewrite take_ge.
    + apply list_elem_of_In.
      rewrite merge_sort_Permutation, shuffle_Permutation.
      apply list_elem_of_In, documents_In. exists (nextId s).
      rewrite Hcontacts. apply lookup_insert_eq.
    + rewrite (Permutation_length (merge_sort_Permutation newerFirst _)).
      rewrite (Permutation_length (shuffle_Permutation _ _)).
      rewrite documents_length, Hsize. lia.
Qed.

(** ** Further properties: validation in full, and the email service *)

Lemma violations_all_true rules :
  (forall ok e, In (ok, e) rules -> ok = true) -> violations rules = [].
Proof using.
  induction rules as [|[ok e] rules IH]; intros H; cbn; [reflexivity|].
  rewrite (H ok e) by now left. apply IH. intros ok' e' Hin. apply (H ok' e'). now right.
Qed.

(** X22. The validation chains accept a request exactly when, after
    trimming name, email, phone and message: the name has 3 to 100
    characters, all letters or white space; the email is accepted by
    [isEmail] and its normalized form has at most 255 characters; the phone
    is exactly ten digits; the message has 10 to 1000 characters; the form
    type is "hero" or "final" (not trimmed); and the captcha token is
    present and not empty. Characters are counted as validator.js counts
    them, which for the name and the phone is the number of code units. *)
Theorem validation_accepts_iff raw :
  let n := JS.trim (toString (raw_name raw)) in
  let e := JS.trim (toString (raw_email raw)) in
  let p := JS.trim (toString (raw_phone raw)) in
  let m := JS.trim (toString (raw_message raw)) in
  snd (validateContactForm raw) = []
  <-> ((3 <= JS.length n <= 100)%nat
       /\ JS.every (fun c => JS.isLetter c || JS.isWhiteSpace c) n = true)
      /\ (isEmail e = true /\ (validatorLength (normalizeEmail e) <= 255)%nat)
      /\ (JS.length p = 10%nat /\ JS.every JS.isDigit p = true)
      /\ (10 <= validatorLength m <= 1000)%nat
      /\ (raw_formType raw = Some "hero" \/ raw_formType raw = Some "final")
      /\ (exists token, raw_recaptchaToken raw = Some token /\ token <> "").
Proof.
  intros n e p m. rewrite validateContactForm_errors.
  assert (Hform : isIn formTypes (toString (raw_formType raw)) = true
                  <-> raw_formType raw = Some "hero" \/ raw_formType raw = Some "final").
  { unfold isIn, formTypes, JS.includes. cbn [existsb].
    rewrite !orb_true_iff, !eqb_eq.
    destruct (raw_formType raw) as [f|]; cbn.
    - split.
      + intros [->|[->|H]]; [now left | now right | discriminate].
      + intros [[= ->]|[= ->]]; auto.
    - split; [intros [H|[H|H]]; discriminate | intros [H|H]; discriminate]. }
  assert (Htoken : notEmpty (toString (raw_recaptchaToken raw)) = true
                   <-> exists token, raw_recaptchaToken raw = Some token /\ token <> "").
  { unfold notEmpty. destruct (raw_recaptchaToken raw) as [t|]; cbn.
    - rewrite negb_true_iff, eqb_neq. split.
      + intros H. exists t. auto.
      + intros (t' & [= <-] & H). exact H.
    - split; [discriminate | intros (t' & H & _); discriminate]. }
  assert (Hlen : forall lo hi x, isLength lo hi x = true
                                 <-> (lo <= validatorLength x <= hi)%nat).
  { intros lo hi x. unfold isLength. rewrite andb_true_iff, !Nat.leb_le. reflexivity. }
  assert (Hname : isLength 3 100 n = true /\ reLettersAndSpaces n = true
                  <-> (3 <= JS.length n <= 100)%nat
                      /\ JS.every (fun c => JS.isLetter c || JS.isWhiteSpace c) n = true).
  { split.
    - intros [H1 H2]. rewrite Hlen, (reLettersAndSpaces_length n H2) in H1.
      split; [exact H1|]. now apply andb_true_iff in H2 as [_ H2].
    - intros [H1 H2].
      assert (Hre : reLettersAndSpaces n = true).
      { unfold reLettersAndSpaces. rewrite H2, andb_true_r, negb_true_iff, eqb_neq.
        intros Hn. rewrite Hn in H1. cbn in H1. lia. }
      split; [|exact Hre]. now rewrite Hlen, (reLettersAndSpaces_length n Hre). }
  assert (Hphone : reTenDigits p = true
                   <-> JS.length p = 10%nat /\ JS.every JS.isDigit p = true).
  { unfold reTenDigits. rewrite andb_true_iff, Nat.eqb_eq. reflexivity. }
  split.
  - intros Hnil. pose proof (violations_nil _ Hnil) as Hrules.
    unfold fieldRules in Hrules. fold n e p m in Hrules.
    split; [apply Hname; split; eapply Hrules; simpl; eauto 10|].
    split; [split; [eapply Hrules; simpl; eauto 10|]|].
    { assert (H : isLength 0 255 (normalizeEmail e) = true)
        by (eapply Hrules; simpl; eauto 10).
      apply Hlen in H. lia. }
    split; [apply Hphone; eapply Hrules; simpl; eauto 10|].
    split; [apply Hlen; eapply Hrules; simpl; eauto 10|].
    split; [apply Hform; eapply Hrules; simpl; eauto 10|].
    apply Htoken; eapply Hrules; simpl; eauto 10.
  - intros (Hn & (He & Hel) & Hp & Hm & Hf & Ht).
    apply Hname in Hn as [Hn1 Hn2]. apply Hphone in Hp. apply Hlen in Hm.
    apply Hform in Hf. apply Htoken in Ht.
    assert (Hel' : isLength 0 255 (normalizeEmail e) = true) by (apply Hlen; lia).
    apply violations_all_true. unfold fieldRules. fold n e p m.
    intros ok err Hin. cbn [In] in Hin.
    repeat (destruct Hin as [Hin|Hin]; [injection Hin as <- _; assumption|]).
    destruct Hin.
Qed.

(** X23. The email service reports a failed delivery on the console and
    passes the transport's own error on to its caller; a delivery that
    works leaves the message as its only trace. This is so for the
    operator's notification and for the applicant's acknowledgement, when a
    transport is there. *)
Theorem delivery_failure_rethrown env w d s :
  is_Some (transporter s) ->
  (sendMail w (notificationMail env d) = None ->
     sendContactNotification env w d s
     = (Return tt, withEffects s [MailSent (notificationMail env d)]))
  /\ (forall error, sendMail w (notificationMail env d) = Some error ->
        sendContactNotification env w d s
        = (Throw error,
           withEffects s [ConsoleError " Error sending contact notification email:"
                            (errMessage error)]))
  /\ (sendMail w (autoReplyMail env d) = None ->
        sendAutoReply env w d s
        = (Return tt, withEffects s [MailSent (autoReplyMail env d)]))
  /\ (forall error, sendMail w (autoReplyMail env d) = Some error ->
        sendAutoReply env w d s
        = (Throw error,
           withEffects s [ConsoleError " Error sending auto-reply email:"
                            (errMessage error)])).
Proof.
  intros Hs. unfold sendContactNotification, sendAutoReply.
  rewrite !(bind_Return _ _ _ _ _ (ensureTransporter_some env w s Hs)). cbn [negb].
  unfold tryCatch, transporterSendMail.
  repeat split.
  - intros ->. reflexivity.
  - intros error ->. reflexivity.
  - intros ->. reflexivity.
  - intros error ->. reflexivity.
Qed.

(** X24. Start-up never fails on the mail configuration: the constructor
    of the email service returns, in whatever state and world, and the
    process starts in the state it leaves. The process starts with an empty
    collection; it has a transport exactly when SMTP_USER and SMTP_PASS are
    both set and [createTransport] succeeds; a [createTransport] that throws
    is reported on the console and the server starts without a
    transport. *)
Theorem startup_transport env w :
  (forall s0, fst (construct env w s0) = Return tt)
  /\ boot env w
     = snd (construct env w
              {| contacts := ∅; nextId := 0%N; transporter := None; effects := [] |})
  /\ contacts (boot env w) = ∅
  /\ nextId (boot env w) = 0%N
  /\ (is_Some (transporter (boot env w))
      <-> smtpConfigured env = true /\ createTransport w = None)
  /\ (forall error, smtpConfigured env = true -> createTransport w = Some error ->
        transporter (boot env w) = None
        /\ effects (boot env w)
           = [ConsoleError " Error initializing email service:" (errMessage error)])
  /\ (createTransport w = None \/ smtpConfigured env = false ->
      effects (boot env w) = []).
Proof.
  split.
  { intros s0. unfold construct, initializeTransporter, mbind, Async_bind,
      consoleError, emit, setTransporter, modify.
    destruct (smtpConfigured env); [destruct (createTransport w)|]; reflexivity. }
  split; [reflexivity|].
  unfold boot, initializeTransporter, mbind, Async_bind, consoleError, emit,
    setTransporter, modify.
  destruct (smtpConfigured env); [destruct (createTransport w) as [error|]|];
    cbn [fst snd contacts nextId transporter effects app].
  - split; [reflexivity|]. split; [reflexivity|]. split; [split|split].
    + intros [t Ht]. discriminate.
    + intros [_ H]. discriminate.
    + intros error' _ [= <-]. split; reflexivity.
    + intros [H|H]; discriminate.
  - split; [reflexivity|]. split; [reflexivity|]. split; [split|split].
    + intros _. split; reflexivity.
    + intros _. eexists. reflexivity.
    + intros error _ H. discriminate.
    + intros _. reflexivity.
  - split; [reflexivity|]. split; [reflexivity|]. split; [split|split].
    + intros [t Ht]. discriminate.
    + intros [H _]. discriminate.
    + intros error H. discriminate.
    + intros _. reflexivity.
Qed.

End Server.
(** ** The server at work *)

(** The server with the stand-ins for validator.js and for the engine. *)
Abbreviation validated := (validateContactForm hasAt JS.lowerLatin).
Abbreviation post := (postContact hasAt JS.lowerLatin JS.lowerLatin JS.upperLatin).
Abbreviation serve := (handle hasAt JS.lowerLatin JS.lowerLatin JS.upperLatin).
Abbreviation reached := (reachable hasAt JS.lowerLatin JS.lowerLatin JS.upperLatin).
Abbreviation accepted := (Accepted hasAt JS.lowerLatin JS.lowerLatin).
Abbreviation afterJane :=
  (afterSubmission hasAt JS.lowerLatin JS.lowerLatin JS.upperLatin janeDoe).
Abbreviation afterBoth := (snd (post production later janeDoe afterJane)).
Abbreviation janeBody := (fst (validated janeDoe)).
Abbreviation janeId := "000000000000000000000000".

Lemma isUpper_spec c :
  JS.isUpper c = true
  <-> (65 <= c <= 90 \/ 192 <= c <= 222 /\ c <> 215)%N.
Proof.
  unfold JS.isUpper.
  rewrite orb_true_iff, !andb_true_iff, negb_true_iff, !N.leb_le.
  rewrite N.eqb_neq. tauto.
Qed.

Lemma isWhiteSpace_spec c :
  JS.isWhiteSpace c = true
  <-> (9 <= c <= 13 \/ c = 32 \/ c = 160 \/ c = 0x1680 \/ 0x2000 <= c <= 0x200a
       \/ c = 0x2028 \/ c = 0x2029 \/ c = 0x202f \/ c = 0x205f \/ c = 0x3000
       \/ c = 0xfeff)%N.
Proof.
  unfold JS.isWhiteSpace.
  rewrite !orb_true_iff, !andb_true_iff, !N.leb_le, !N.eqb_eq. tauto.
Qed.

Lemma lowerChar_idem c : JS.lowerChar (JS.lowerChar c) = JS.lowerChar c.
Proof.
  unfold JS.lowerChar. destruct (JS.isUpper c) eqn:E; [|now rewrite E].
  destruct (JS.isUpper (c + 32)) eqn:E'; [|reflexivity].
  apply isUpper_spec in E, E'. lia.
Qed.

Lemma lowerLatin_idem s : JS.lowerLatin (JS.lowerLatin s) = JS.lowerLatin s.
Proof.
  induction s as [|c s IH]; simpl; [reflexivity|].
  now rewrite lowerChar_idem, IH.
Qed.

Lemma isWhiteSpace_lowerChar c : JS.isWhiteSpace (JS.lowerChar c) = JS.isWhiteSpace c.
Proof.
  unfold JS.lowerChar. destruct (JS.isUpper c) eqn:E; [|reflexivity].
  apply isUpper_spec in E.
  destruct (JS.isWhiteSpace (c + 32)) eqn:A, (JS.isWhiteSpace c) eqn:B;
    try reflexivity; apply isWhiteSpace_spec in A || apply isWhiteSpace_spec in B; lia.
Qed.

Lemma trimStart_lowerLatin s :
  JS.trimStart (JS.lowerLatin s) = JS.lowerLatin (JS.trimStart s).
Proof.
  induction s as [|c s IH]; cbn; [reflexivity|].
  rewrite isWhiteSpace_lowerChar. now destruct (JS.isWhiteSpace c).
Qed.

Lemma trimEnd_lowerLatin s :
  JS.trimEnd (JS.lowerLatin s) = JS.lowerLatin (JS.trimEnd s).
Proof.
  induction s as [|c s IH]; cbn; [reflexivity|].
  rewrite IH, isWhiteSpace_lowerChar.
  destruct (JS.trimEnd s); cbn; [now destruct (JS.isWhiteSpace c) | reflexivity].
Qed.

(** The stand-in for [toLowerCase] is stable. *)
Lemma lowerLatin_stable : caseStable JS.lowerLatin.
Proof.
  split; [exact lowerLatin_idem|].
  intros s Hs. unfold JS.trim in *.
  now rewrite trimStart_lowerLatin, trimEnd_lowerLatin, Hs.
Qed.

Lemma started_invariant : invariant production started.
Proof. apply boot_invariant. Qed.

Lemma started_empty id : contacts started !! id = None.
Proof. unfold started. rewrite boot_contacts. apply lookup_empty. Qed.

Lemma janeDoe_accepted : accepted production calm janeDoe started started.
Proof.
  split; try reflexivity.
  intros id c Hc. rewrite started_empty in Hc. discriminate.
Qed.

Lemma afterJane_contacts : contacts afterJane = <[0%N := janeStored]> ∅.
Proof. vm_compute. reflexivity. Qed.

Lemma afterJane_lookup : contacts afterJane !! 0%N = Some janeStored.
Proof. rewrite afterJane_contacts. apply lookup_insert_eq. Qed.


Lemma afterJane_reachable : reached production afterJane.
Proof.
  apply (reachable_step hasAt JS.lowerLatin JS.lowerLatin JS.upperLatin
           production calm (PostContact janeDoe)).
  apply reachable_boot.
Qed.


Lemma afterBoth_contacts :
  contacts afterBoth = <[1%N := janeAgain]> (<[0%N := janeStored]> ∅).
Proof. vm_compute. reflexivity. Qed.


(** A bad name is reported together with the missing token. *)
Lemma validation_gate_witness :
  post production calm badName afterJane
  = (Return {| statusCode := 400;
               json := JValidationFailed "Validation failed"
                         (violations (fieldRules hasAt JS.lowerLatin badName)) |},
     afterJane)
  /\ In {| param := "name"; msg := "Name can only contain letters and spaces" |}
       (violations (fieldRules hasAt JS.lowerLatin badName))
  /\ (forall e', In (false, e') (fieldRules hasAt JS.lowerLatin badName) ->
                 In e' (violations (fieldRules hasAt JS.lowerLatin badName))).
Proof.
  apply (validation_gate hasAt JS.lowerLatin JS.lowerLatin JS.upperLatin
           production calm badName afterJane).
  right. left. reflexivity.
Defined.

(** In production, with a secret, the verdict of the service is the answer
    and a timeout closes the gate. *)
Lemma verifyRecaptcha_spec_witness :
  verifyRecaptcha production calm "human" started
  = (Return true, withEffects started [SiteVerifyRequest "6LcSecret" "human"])
  /\ fst (verifyRecaptcha production calm "robot" started) = Return false
  /\ verifyRecaptcha production calm "test_token" started = (Return true, started).
Proof.
  pose proof (verifyRecaptcha_spec production calm "human" started) as (_ & _ & _ & H & _).
  pose proof (verifyRecaptcha_spec production calm "robot" started) as (_ & _ & _ & H' & _).
  pose proof (verifyRecaptcha_spec production calm "test_token" started) as (_ & Hb & _).
  destruct (H eq_refl eq_refl "6LcSecret" eq_refl ltac:(discriminate)) as [Hok _].
  destruct (H' eq_refl eq_refl "6LcSecret" eq_refl ltac:(discriminate)) as [_ Hfail].
  split; [exact (Hok true eq_refl)|]. split; [exact (Hfail timedOut eq_refl)|].
  exact (Hb eq_refl).
Defined.

(** Jane's submission: stored in lower case with status "new", answered
    with 201. *)
Lemma submission_persisted_witness :
  (exists c,
     contacts started !! _id c = None
     /\ contacts (snd (post production calm janeDoe started))
        = <[_id c := c]> (contacts started)
     /\ _id c = nextId started
     /\ status c = "new"
     /\ submittedAt c = clockCreate calm
     /\ email c = JS.lowerLatin (JS.trim (body_email janeBody))
     /\ (caseStable JS.lowerLatin -> JS.lowerLatin (email c) = email c)
     /\ formType c = body_formType janeBody
     /\ fst (post production calm janeDoe started)
        = Return {| statusCode := 201;
                    json := JCreated "Thank you for your inquiry! We will contact you within 24 hours."
                              (_id c) (submittedAt c) (formType c) |})
  /\ (JS.length (body_message janeBody) <= 1000)%nat
  /\ JS.lowerLatin (JS.trim (body_email janeBody)) <> ""
  /\ (JS.length (JS.lowerLatin (JS.trim (body_email janeBody))) <= 255)%nat.
Proof.
  exact (submission_persisted hasAt JS.lowerLatin JS.lowerLatin JS.upperLatin
           production calm janeDoe started started
           (proj1 started_invariant) janeDoe_accepted).
Defined.

(** A message of 501 astral characters: the chains accept it, the spam
    gate and the duplicate check let it through, the database answers, and
    the schema refuses its 1002 code units: the answer is 500 and nothing is
    stored. *)
Lemma astral_message_counterexample :
  snd (validated wordy) = []
  /\ verifyRecaptcha production calm (body_recaptchaToken (fst (validated wordy))) started
     = (Return true, started)
  /\ find (recentByContact JS.lowerLatin (body_email (fst (validated wordy)))
             (body_phone (fst (validated wordy))) (clockQuery calm - oneHour))
       (documents started) = None
  /\ mongoRead calm = None /\ mongoWrite calm = None
  /\ validatorLength (body_message (fst (validated wordy))) = 501%nat
  /\ JS.length (body_message (fst (validated wordy))) = 1002%nat
  /\ fst (post production calm wordy started)
     = Return {| statusCode := 500;
                 json := JServerError
                           "An error occurred while processing your request. Please try again later."
                           None |}
  /\ contacts (snd (post production calm wordy started)) = contacts started.
Proof. vm_compute. repeat split; reflexivity. Qed.

(** An id that is not an ObjectId and that no document has: the answer is
    500, not 404. *)
Lemma unknown_malformed_id_counterexample :
  (forall id c, contacts afterJane !! id = Some c -> _id c = 0%N)
  /\ castObjectId "jane" = None
  /\ fst (patchStatus calm "jane" (Some "contacted") afterJane)
     = Return {| statusCode := 500; json := JFailure "Error updating contact status" |}
  /\ fst (patchStatus calm "jane" (Some "contacted") afterJane)
     <> Return {| statusCode := 404; json := JFailure "Contact not found" |}.
Proof.
  split; [|split; [reflexivity | split; [reflexivity | discriminate]]].
  intros id c. rewrite afterJane_contacts, lookup_insert.
  case_decide; [intros [= <-]; reflexivity | rewrite lookup_empty; discriminate].
Qed.

(** The three outcomes on Jane's record. *)
Lemma update_status_outcomes_witness :
  patchStatus calm janeId (Some "bogus") afterJane
  = (Return {| statusCode := 400; json := JFailure "Invalid status value" |}, afterJane)
  /\ patchStatus calm "000000000000000000000001" (Some "contacted") afterJane
     = (Return {| statusCode := 404; json := JFailure "Contact not found" |}, afterJane)
  /\ (exists c',
        fst (patchStatus calm janeId (Some "contacted") afterJane)
        = Return {| statusCode := 200; json := JContact c' |}
        /\ Some (status c') = Some "contacted"
        /\ contacts (snd (patchStatus calm janeId (Some "contacted") afterJane)) !! 0%N
           = Some c').
Proof.
  split; [|split].
  - exact (proj1 (update_status_outcomes calm janeId (Some "bogus") afterJane) eq_refl).
  - apply (proj1 (proj2 (update_status_outcomes calm "000000000000000000000001"
                           (Some "contacted") afterJane)) 1%N);
      [reflexivity | reflexivity | reflexivity |].
    rewrite afterJane_contacts. reflexivity.
  - exact (proj2 (proj2 (update_status_outcomes calm janeId (Some "contacted") afterJane))
             0%N janeStored eq_refl eq_refl eq_refl afterJane_lookup).
Defined.

(** The first page of twenty after Jane's two submissions: the query
    meets the older one first and lists the newer one first. *)
Lemma list_contacts_witness :
  (exists sorted items pages,
     getContacts later (Some 1) (Some 20) afterBoth
     = (Return {| statusCode := 200;
                  json := JContacts items (JS.Finite 1) (JS.Finite 20)
                            (Z.of_nat (size (contacts afterBoth))) (JS.Finite pages) |},
        afterBoth)
     /\ sorted ≡ₚ documents afterBoth
     /\ StronglySorted newerFirst sorted
     /\ items = take (Z.to_nat 20) (drop (Z.to_nat ((1 - 1) * 20)) sorted)
     /\ StronglySorted newerFirst items
     /\ 20 * (pages - 1) < Z.of_nat (size (contacts afterBoth)) <= 20 * pages
     /\ pages = JS.ceilDiv (Z.of_nat (size (contacts afterBoth))) 20
     /\ (Z.of_nat (size (contacts afterBoth)) <= (1 - 1) * 20 -> items = []))
  /\ shuffle (scanOrder later) (documents afterBoth) = [janeStored; janeAgain]
  /\ listed (fst (getContacts later (Some 1) (Some 20) afterBoth))
     = [janeAgain; janeStored]
  /\ listed (fst (getContacts later (Some 2) (Some 1) afterBoth)) = [janeStored].
Proof.
  split.
  - apply (list_contacts later afterBoth 1 20); [lia | lia | vm_compute; discriminate
                                                 | reflexivity].
  - vm_compute. repeat split; reflexivity.
Defined.

(** Page 0 is served as page 1, page -1 is answered with 500, and a page
    size of 400 nines is reported as no page at all. *)
Lemma page_out_of_range_counterexample :
  fst (getContacts calm (Some 0) (Some 20) afterJane)
  = Return {| statusCode := 200;
              json := JContacts [janeStored] (JS.Finite 1) (JS.Finite 20) 1
                        (JS.Finite 1) |}
  /\ fst (getContacts calm (Some (-1)) (Some 20) afterJane)
     = Return {| statusCode := 500; json := JFailure "Error fetching contacts" |}
  /\ (exists items,
        fst (getContacts calm (Some 1) (Some (10 ^ 400 - 1)) afterJane)
        = Return {| statusCode := 200;
                    json := JContacts items (JS.Finite 1) (JS.Infinity false) 1
                              (JS.Finite 0) |})
  /\ JS.ceilDiv 1 (10 ^ 400 - 1) = 1.
Proof.
  split; [vm_compute; reflexivity|]. split; [vm_compute; reflexivity|].
  split; [eexists; vm_compute; reflexivity | vm_compute; reflexivity].
Qed.

(** Jane's submission with a transport that refuses her auto-reply: 201
    all the same, the operator is notified, the refusal is on the console. *)
Lemma notifications_best_effort_witness :
  let c := contactOf JS.lowerLatin (nextId started) calm janeBody in
  let d := contactDataOf c janeBody in
  fst (post production calm janeDoe started) = Return (created c)
  /\ contacts afterJane !! _id c = Some c
  /\ (exists new,
        effects afterJane = (effects started ++ new)%list
        /\ In (MailSent (notificationMail JS.upperLatin production d)) new
        /\ ~ In (MailSent (autoReplyMail production d)) new
        /\ In (ConsoleError "Failed to send auto-reply:" "452 mailbox full") new).
Proof.
  intros c d.
  destruct (notifications_best_effort hasAt JS.lowerLatin JS.lowerLatin JS.upperLatin
              production calm janeDoe started started (proj1 started_invariant)
              janeDoe_accepted)
    as (Hresp & (new & Hnew & Hadmin & Hreply & _ & Hlog & _) & _).
  split; [|split].
  - destruct (Hresp (createTransport calm) (sendMail calm)) as (H & _). exact H.
  - exact afterJane_lookup.
  - exists new. split; [exact Hnew|]. split; [|split].
    + apply Hadmin. split; [reflexivity|]. split; [|reflexivity].
      right. split; reflexivity.
    + intros Hin. apply Hreply in Hin. destruct Hin as (_ & _ & Hsent).
      vm_compute in Hsent. discriminate.
    + apply (Hlog mailboxFull); [reflexivity | right; split; reflexivity | reflexivity].
Defined.

(** Jane's record in the state reached by her submission. *)
Lemma stored_status_enumerated_witness :
  status janeStored = "new" \/ status janeStored = "contacted"
  \/ status janeStored = "converted".
Proof.
  exact (stored_status_enumerated hasAt JS.lowerLatin JS.lowerLatin JS.upperLatin
           production afterJane afterJane_reachable 0%N janeStored afterJane_lookup).
Defined.

(** Marking Jane's record as contacted. *)
Lemma update_status_frame_witness :
  let s' := snd (patchStatus calm janeId (Some "contacted") afterJane) in
  (exists c', contacts s' !! 0%N = Some c'
              /\ _id c' = _id janeStored /\ name c' = name janeStored
              /\ email c' = email janeStored /\ phone c' = phone janeStored
              /\ message c' = message janeStored /\ formType c' = formType janeStored
              /\ submittedAt c' = submittedAt janeStored /\ status c' = "contacted")
  /\ (forall other, other <> 0%N -> contacts s' !! other = contacts afterJane !! other)
  /\ nextId s' = nextId afterJane /\ transporter s' = transporter afterJane
  /\ effects s' = effects afterJane.
Proof.
  apply (update_status_frame calm janeId 0%N "contacted" afterJane janeStored);
    [reflexivity | exact afterJane_lookup | right; left; reflexivity | reflexivity].
Defined.

(** An id that is not an ObjectId. *)
Lemma malformed_id_server_error_witness :
  fst (patchStatus calm "jane" (Some "contacted") afterJane)
  = Return {| statusCode := 500; json := JFailure "Error updating contact status" |}
  /\ fst (patchStatus calm "jane" (Some "contacted") afterJane) <> Return contactNotFound
  /\ contacts (snd (patchStatus calm "jane" (Some "contacted") afterJane))
     = contacts afterJane
  /\ effects (snd (patchStatus calm "jane" (Some "contacted") afterJane))
     = (effects afterJane
        ++ [ConsoleError "Error updating contact status:"
              (errMessage (castError "jane"))])%list.
Proof.
  apply (malformed_id_server_error calm "jane" (Some "contacted") afterJane);
    reflexivity.
Defined.

(** ** More of the server at work *)

Lemma started_spaced : spaced started.
Proof. intros i j ci cj _ Hi. rewrite started_empty in Hi. discriminate. Qed.

Lemma started_ready : is_Some (transporter started).
Proof. eexists. reflexivity. Qed.

Lemma started_unblocked raw id c :
  contacts started !! id = Some c ->
  recentByContact JS.lowerLatin (body_email (fst (validated raw)))
    (body_phone (fst (validated raw))) (clockQuery calm - oneHour) c = false.
Proof. intros Hc. rewrite started_empty in Hc. discriminate. Qed.

(** In development mode the token "robot" is not looked at. *)
Lemma development_skips_verification_witness :
  fst (post development calm robot started) <> Return captchaFailed
  /\ exists new,
       effects (snd (post development calm robot started))
       = (effects started ++ new)%list
       /\ verifications new = [].
Proof.
  exact (development_skips_verification hasAt JS.lowerLatin JS.lowerLatin JS.upperLatin
           development calm robot started eq_refl).
Defined.

(** In production the same submission is turned away: the service timed
    out. *)
Lemma captcha_rejection_witness :
  exists new,
    post production calm robot started
    = (Return {| statusCode := 400;
                 json := JFailure "Captcha verification failed. Please try again." |},
       withEffects started new)
    /\ verifications new = [("6LcSecret", "robot")]
    /\ mails new = [].
Proof.
  apply (captcha_rejection hasAt JS.lowerLatin JS.lowerLatin JS.upperLatin
           production calm robot started "6LcSecret");
    [reflexivity | reflexivity | reflexivity | reflexivity | discriminate |].
  vm_compute. discriminate.
Defined.

(** Jane's submission when the database cannot be read, when it cannot be
    written to, and the message of 501 astral characters, which the schema
    refuses on a database that works. *)
Lemma database_failure_witness :
  let answer := fun text =>
    {| statusCode := 500;
       json := JServerError
                 "An error occurred while processing your request. Please try again later."
                 (if isDevelopment production then Some text else None) |} in
  let used := {| contacts := contacts started; nextId := N.succ (nextId started);
                 transporter := transporter started; effects := effects started |} in
  post production readDown janeDoe started
  = (Return (answer "connection timed out"),
     withEffects started
       [ConsoleError "Contact form submission error:" "connection timed out"])
  /\ post production writeDown janeDoe started
     = (Return (answer "connection timed out"),
        withEffects used
          [ConsoleError "Contact form submission error:" "connection timed out"])
  /\ post production calm wordy started
     = (Return (answer "Contact validation failed"),
        withEffects used
          [ConsoleError "Contact form submission error:" "Contact validation failed"]).
Proof.
  intros answer used. split; [|split].
  - exact (proj1 (database_failure hasAt JS.lowerLatin JS.lowerLatin JS.upperLatin
                    production readDown janeDoe started started unreachable
                    eq_refl eq_refl) eq_refl).
  - apply (proj2 (database_failure hasAt JS.lowerLatin JS.lowerLatin JS.upperLatin
                    production writeDown janeDoe started started unreachable
                    eq_refl eq_refl) eq_refl (started_unblocked janeDoe));
      reflexivity.
  - apply (proj2 (database_failure hasAt JS.lowerLatin JS.lowerLatin JS.upperLatin
                    production calm wordy started started unreachable
                    eq_refl eq_refl) eq_refl (started_unblocked wordy)).
    vm_compute. reflexivity.
Defined.


(** Jane's record after it was marked as contacted. *)
Lemma documents_persist_witness :
  exists c',
    contacts (snd (serve production calm (PatchStatus janeId (Some "contacted")) afterJane))
      !! 0%N = Some c'
    /\ sameButStatus janeStored c'.
Proof.
  apply (documents_persist hasAt JS.lowerLatin JS.lowerLatin JS.upperLatin
           production afterJane _ 0%N janeStored).
  - apply evolves_step. apply evolves_refl.
  - exact afterJane_lookup.
Defined.

(** Jane's record is as the validation chains and the schema leave it. *)
Lemma stored_documents_valid_witness :
  wellStored JS.lowerLatin janeStored
  /\ JS.trim (email janeStored) = email janeStored
  /\ JS.lowerLatin (email janeStored) = email janeStored.
Proof.
  pose proof (stored_documents_valid hasAt JS.lowerLatin JS.lowerLatin JS.upperLatin
                production afterJane afterJane_reachable 0%N janeStored
                afterJane_lookup) as H.
  split; [exact H|].
  destruct H as (_ & _ & _ & _ & _ & _ & _ & _ & Hemail).
  exact (Hemail lowerLatin_stable).
Defined.

(** Jane's two submissions, with the same email and the same phone, lie
    more than an hour apart. *)
Lemma duplicate_window_invariant_witness :
  spaced afterBoth
  /\ contacts afterBoth !! 0%N = Some janeStored
  /\ contacts afterBoth !! 1%N = Some janeAgain
  /\ email janeStored = email janeAgain
  /\ oneHour < Z.abs (submittedAt janeStored - submittedAt janeAgain).
Proof.
  split.
  - apply (duplicate_window_invariant hasAt JS.lowerLatin JS.lowerLatin JS.upperLatin
             production later (PostContact janeDoe) afterJane).
    + apply (duplicate_window_invariant hasAt JS.lowerLatin JS.lowerLatin JS.upperLatin
               production calm (PostContact janeDoe) started started_spaced).
      vm_compute. discriminate.
    + vm_compute. discriminate.
  - rewrite afterBoth_contacts. repeat split; vm_compute; reflexivity.
Defined.

(** The two pages of one document after Jane's two submissions, served by
    queries that meet the documents in different orders. *)
Lemma pages_cover_collection_witness :
  let w := fun i : nat => if Nat.even i then later else calm in
  let page := fun i : nat =>
                listed (fst (getContacts (w i) (Some (Z.of_nat i)) (Some 1) afterBoth)) in
  (concat (map page (seq 1 (Z.to_nat (JS.ceilDiv (Z.of_nat (size (contacts afterBoth))) 1))))
   = merge_sort newerFirst (documents afterBoth)
   /\ concat (map page (seq 1 (Z.to_nat (JS.ceilDiv (Z.of_nat (size (contacts afterBoth))) 1))))
      ≡ₚ documents afterBoth
   /\ StronglySorted newerFirst
        (concat (map page
                   (seq 1 (Z.to_nat (JS.ceilDiv (Z.of_nat (size (contacts afterBoth))) 1)))))
   /\ (forall i,
         (1 <= i <= Z.to_nat (JS.ceilDiv (Z.of_nat (size (contacts afterBoth))) 1))%nat ->
         Z.of_nat (length (page i)) <= 1))
  /\ page 1%nat = [janeAgain] /\ page 2%nat = [janeStored]
  /\ scanOrder (w 1%nat) <> scanOrder (w 2%nat).
Proof.
  intros w page. split.
  - apply (pages_cover_collection w afterBoth 1).
    + lia.
    + vm_compute. discriminate.
    + intros i. unfold w. now destruct (Nat.even i).
    + vm_compute. repeat constructor; cbn; intros H;
        repeat (apply elem_of_cons in H as [H|H]; [discriminate|]);
        now apply elem_of_nil in H.
  - vm_compute. repeat split; try reflexivity. discriminate.
Defined.

(** Jane's record marked as contacted, then as converted. *)
Lemma status_update_overwrites_witness :
  contacts (snd (patchStatus calm janeId (Some "converted")
                   (snd (patchStatus calm janeId (Some "contacted") afterJane))))
  = contacts (snd (patchStatus calm janeId (Some "converted") afterJane))
  /\ dom (contacts (snd (patchStatus calm janeId (Some "contacted") afterJane)))
     = dom (contacts afterJane).
Proof.
  exact (status_update_overwrites calm calm janeId (Some "contacted") (Some "converted")
           afterJane eq_refl eq_refl).
Defined.

(** The health check without the password of the mail account. *)
Lemma health_reports_user_only_witness :
  (forall readyState now,
     services_email (getHealth userOnly readyState now) = "configured"
     /\ health_status (getHealth userOnly readyState now) = "healthy"
     /\ (services_database (getHealth userOnly readyState now) = "connected"
         <-> readyState = 1))
  /\ (forall w raw s,
        exists new,
          effects (snd (post userOnly w raw s)) = (effects s ++ new)%list
          /\ mails new = []).
Proof.
  exact (health_reports_user_only hasAt JS.lowerLatin JS.lowerLatin JS.upperLatin
           userOnly eq_refl eq_refl).
Defined.

(** Jane's submission, then her record marked as contacted by the id of
    the 201 answer. *)
Lemma created_then_updated_witness :
  exists c,
    created janeStored = created c
    /\ statusCode (created janeStored) = 201
    /\ _id c = 0%N
    /\ name c = body_name janeBody
    /\ phone c = body_phone janeBody
    /\ message c = body_message janeBody
    /\ email c = JS.lowerLatin (JS.trim (body_email janeBody))
    /\ fst (patchStatus calm janeId (Some "contacted") afterJane)
       = Return {| statusCode := 200; json := JContact (withStatus c "contacted") |}.
Proof.
  apply (created_then_updated hasAt JS.lowerLatin JS.lowerLatin JS.upperLatin
           production calm janeDoe started (created janeStored)
           "Thank you for your inquiry! We will contact you within 24 hours."
           0%N 1000005 "hero" calm janeId "contacted");
    [reflexivity | reflexivity | reflexivity | right; left; reflexivity | reflexivity].
Defined.

(** Jane's second submission, then the first page of twenty. *)
Lemma created_then_listed_witness :
  reportedTotal (fst (getContacts later (Some 1) (Some 20) afterBoth))
  = Z.of_nat (size (contacts afterJane)) + 1
  /\ In (contactOf JS.lowerLatin (nextId afterJane) later janeBody)
       (listed (fst (getContacts later (Some 1) (Some 20) afterBoth))).
Proof.
  apply (created_then_listed hasAt JS.lowerLatin JS.lowerLatin JS.upperLatin
           production later janeDoe afterJane (created janeAgain) later 20);
    [reflexivity | reflexivity | reflexivity | | vm_compute; discriminate].
  rewrite afterJane_contacts. vm_compute. reflexivity.
Defined.

(** The transport of [calm] refuses the mail to Jane and takes the one to
    the operator. *)
Lemma delivery_failure_rethrown_witness :
  let d := contactDataOf janeStored janeBody in
  sendContactNotification JS.upperLatin production calm d started
  = (Return tt,
     withEffects started [MailSent (notificationMail JS.upperLatin production d)])
  /\ sendAutoReply production calm d started
     = (Throw mailboxFull,
        withEffects started
          [ConsoleError " Error sending auto-reply email:" "452 mailbox full"]).
Proof.
  intros d.
  pose proof (delivery_failure_rethrown JS.upperLatin production calm d started
                started_ready)
    as (Hsent & _ & _ & Hfailed).
  split; [exact (Hsent eq_refl) | exact (Hfailed mailboxFull eq_refl)].
Defined.

(** Jane's message fits and is stored; the message of 501 astral
    characters passes the chains and does not fit. *)
Lemma schema_decides_witness :
  (fst (post production calm janeDoe started)
   = Return (created (contactOf JS.lowerLatin (nextId started) calm janeBody))
   /\ contacts afterJane
      = <[nextId started := contactOf JS.lowerLatin (nextId started) calm janeBody]>
          (contacts started))
  /\ (fst (post production calm wordy started)
      = Return (submissionError production validationError)
      /\ contacts (snd (post production calm wordy started)) = contacts started
      /\ exists new,
           effects (snd (post production calm wordy started))
           = (effects started ++ new
              ++ [ConsoleError "Contact form submission error:"
                    (errMessage validationError)])%list)
  /\ (validatorLength (body_message (fst (validated wordy))) <= 1000)%nat
  /\ ~ (JS.length (body_message (fst (validated wordy))) <= 1000)%nat.
Proof.
  pose proof (schema_decides hasAt JS.lowerLatin JS.lowerLatin JS.upperLatin
                production calm janeDoe started started eq_refl eq_refl eq_refl eq_refl
                (proj1 started_invariant) (started_unblocked janeDoe))
    as (Hfits & _ & _).
  pose proof (schema_decides hasAt JS.lowerLatin JS.lowerLatin JS.upperLatin
                production calm wordy started started eq_refl eq_refl eq_refl eq_refl
                (proj1 started_invariant) (started_unblocked wordy))
    as (_ & Hnot & Hcount & _).
  assert (Hlong : ~ (JS.length (body_message (fst (validated wordy))) <= 1000)%nat).
  { vm_compute. intros H. apply Nat.leb_le in H. vm_compute in H. discriminate. }
  split; [|split; [|split]].
  - apply Hfits. vm_compute. repeat split; try discriminate;
      apply Nat.leb_le; vm_compute; reflexivity.
  - apply Hnot. intros (H & _). now apply Hlong.
  - exact Hcount.
  - exact Hlong.
Defined.
